(** * The versioned canvas state store of the SIGMA backend

    A shallow embedding of [backend/models.py], [backend/state.py],
    [backend/tools.py] and the canvas endpoints of [backend/main.py],
    followed by the properties of the store: fingerprints, idempotency,
    apply, undo and redo.

    Python values are modelled by value.  This is sound for the code at hand:
    [_apply_single_change] works on [dict(state[...])] copies and on freshly
    built lists, never on a list held by a snapshot, so no snapshot is ever
    changed through an alias of the live canvas. *)

From Stdlib Require Import NArith Ascii String List Lia.
From stdpp Require Import base decidable option list strings gmap.

Local Open Scope string_scope.

(** ** [hashlib.sha256(...).hexdigest()]

    FIPS 180-4 over 32-bit words held in [N]; every addition is reduced
    modulo 2^32 where the standard says so. *)
Module hashlib.

Local Open Scope N_scope.

Definition mask32 : N := 4294967295.

Definition add32 (x y : N) : N := N.land (x + y) mask32.
Definition not32 (x : N) : N := N.lxor x mask32.
Definition rotr (n x : N) : N :=
  N.lor (N.shiftr x n) (N.land (N.shiftl x (32 - n)) mask32).

Definition Ch (x y z : N) : N := N.lxor (N.land x y) (N.land (not32 x) z).
Definition Maj (x y z : N) : N :=
  N.lxor (N.lxor (N.land x y) (N.land x z)) (N.land y z).
Definition big_sigma0 (x : N) : N :=
  N.lxor (N.lxor (rotr 2 x) (rotr 13 x)) (rotr 22 x).
Definition big_sigma1 (x : N) : N :=
  N.lxor (N.lxor (rotr 6 x) (rotr 11 x)) (rotr 25 x).
Definition small_sigma0 (x : N) : N :=
  N.lxor (N.lxor (rotr 7 x) (rotr 18 x)) (N.shiftr x 3).
Definition small_sigma1 (x : N) : N :=
  N.lxor (N.lxor (rotr 17 x) (rotr 19 x)) (N.shiftr x 10).

(** Round constants: the first 32 bits of the fractional parts of the cube
    roots of the first 64 primes, written in decimal. *)
Definition round_constants : list N :=
  [ 1116352408; 1899447441; 3049323471; 3921009573
  ; 961987163; 1508970993; 2453635748; 2870763221
  ; 3624381080; 310598401; 607225278; 1426881987
  ; 1925078388; 2162078206; 2614888103; 3248222580
  ; 3835390401; 4022224774; 264347078; 604807628
  ; 770255983; 1249150122; 1555081692; 1996064986
  ; 2554220882; 2821834349; 2952996808; 3210313671
  ; 3336571891; 3584528711; 113926993; 338241895
  ; 666307205; 773529912; 1294757372; 1396182291
  ; 1695183700; 1986661051; 2177026350; 2456956037
  ; 2730485921; 2820302411; 3259730800; 3345764771
  ; 3516065817; 3600352804; 4094571909; 275423344
  ; 430227734; 506948616; 659060556; 883997877
  ; 958139571; 1322822218; 1537002063; 1747873779
  ; 1955562222; 2024104815; 2227730452; 2361852424
  ; 2428436474; 2756734187; 3204031479; 3329325298 ].

(** The eight working variables / chaining values. *)
Record words8 := W8 { wa : N; wb : N; wc : N; wd : N; we : N; wf : N; wg : N; wh : N }.

Definition initial_hash : words8 :=
  W8 1779033703 3144134277 1013904242 2773480762
     1359893119 2600822924 528734635 1541459225.

Definition round (s : words8) (k w : N) : words8 :=
  let t1 := add32 (add32 (add32 (wh s) (big_sigma1 (we s)))
                         (add32 (Ch (we s) (wf s) (wg s)) k)) w in
  let t2 := add32 (big_sigma0 (wa s)) (Maj (wa s) (wb s) (wc s)) in
  W8 (add32 t1 t2) (wa s) (wb s) (wc s) (add32 (wd s) t1) (we s) (wf s) (wg s).

(** The 64 rounds of one block.  [window] holds the sixteen most recent
    schedule words, oldest first; the word of the current round is its head
    and the next schedule word is appended as the head is dropped. *)
Fixpoint rounds (ks : list N) (window : list N) (s : words8) : words8 :=
  match ks, window with
  | k :: ks', w0 :: rest =>
      let next := add32 (add32 (small_sigma1 (nth 14 window 0)) (nth 9 window 0))
                        (add32 (small_sigma0 (nth 1 window 0)) w0) in
      rounds ks' (rest ++ [next]) (round s k w0)
  | _, _ => s
  end.

Definition compress (h : words8) (block : list N) : words8 :=
  let s := rounds round_constants block h in
  W8 (add32 (wa h) (wa s)) (add32 (wb h) (wb s)) (add32 (wc h) (wc s))
     (add32 (wd h) (wd s)) (add32 (we h) (we s)) (add32 (wf h) (wf s))
     (add32 (wg h) (wg s)) (add32 (wh h) (wh s)).

(** Big-endian bytes of [x], [n] of them. *)
Fixpoint be_bytes (n : nat) (x : N) : list N :=
  match n with
  | O => []
  | S n' => N.land (N.shiftr x (8 * N.of_nat n')) 255 :: be_bytes n' x
  end.

Definition pad (msg : list N) : list N :=
  let len := N.of_nat (length msg) in
  let zeros := N.to_nat ((119 - len mod 64) mod 64) in
  msg ++ [128] ++ repeat 0 zeros ++ be_bytes 8 (8 * len).

(** Four bytes to a word, sixteen words to a block. *)
Fixpoint to_words (bytes : list N) : list N :=
  match bytes with
  | b0 :: b1 :: b2 :: b3 :: rest =>
      (N.shiftl b0 24 + N.shiftl b1 16 + N.shiftl b2 8 + b3) :: to_words rest
  | _ => []
  end.

Fixpoint digest_blocks (fuel : nat) (ws : list N) (h : words8) : words8 :=
  match fuel with
  | O => h
  | S fuel' =>
      match ws with
      | [] => h
      | _ => digest_blocks fuel' (skipn 16 ws) (compress h (firstn 16 ws))
      end
  end.

Definition bytes_of_string (s : string) : list N :=
  map N_of_ascii (list_ascii_of_string s).

Definition hex_digit (d : N) : ascii :=
  if d <? 10 then ascii_of_N (48 + d) else ascii_of_N (87 + d).

Fixpoint hex_word (digits : nat) (x : N) (tail : string) : string :=
  match digits with
  | O => tail
  | S d' => String (hex_digit (N.land (N.shiftr x (4 * N.of_nat d')) 15))
                   (hex_word d' x tail)
  end.

Definition hexdigest (h : words8) : string :=
  hex_word 8 (wa h) (hex_word 8 (wb h) (hex_word 8 (wc h) (hex_word 8 (wd h)
  (hex_word 8 (we h) (hex_word 8 (wf h) (hex_word 8 (wg h)
  (hex_word 8 (wh h) EmptyString))))))).

(** [hashlib.sha256(s.encode()).hexdigest()]: a Rocq string is the UTF-8
    byte string that [encode] returns. *)
Definition sha256_hexdigest (s : string) : string :=
  let ws := to_words (pad (bytes_of_string s)) in
  hexdigest (digest_blocks (length ws) ws initial_hash).

End hashlib.


(** ** Python values used by the store *)

(** Truthiness of an [Optional[str]]: [None] and the empty string are falsy. *)
Definition truthy (o : option string) : bool :=
  match o with
  | Some s => negb (String.eqb s EmptyString)
  | None => false
  end.

(** [a or b] on two [Optional[str]] values. *)
Definition py_or (a b : option string) : option string :=
  if truthy a then a else b.

(** [a or 'text'] where the right operand is a plain string. *)
Definition or_str (a : option string) (b : string) : string :=
  match a with
  | Some s => if String.eqb s EmptyString then b else s
  | None => b
  end.

(** What an f-string prints for an [Optional[str]]. *)
Definition py_str (o : option string) : string := default "None" o.

(** The string held by an [Optional[str]] that has just been tested truthy. *)
Definition text_of (o : option string) : string := default EmptyString o.

Definition newline : string := String (ascii_of_nat 10) EmptyString.

(** [repr(s)] of a [str], the form [%r] prints.  The text is quoted with
    apostrophes, or with double quotes when it holds an apostrophe and no
    double quote; the quote in use and the backslash are escaped, tab, newline
    and carriage return are written [\t], [\n], [\r], and the other control
    characters [\xNN].  A string stands for its UTF-8 bytes, and the bytes
    of a character outside ASCII are copied, as Python copies a printable
    character. *)
Definition apostrophe : ascii := ascii_of_nat 39.
Definition double_quote : ascii := ascii_of_nat 34.
Definition backslash : ascii := ascii_of_nat 92.

Fixpoint holds (c : ascii) (s : string) : bool :=
  match s with
  | EmptyString => false
  | String c' rest => Ascii.eqb c' c || holds c rest
  end.

Definition escaped (quote c : ascii) : string :=
  let n := N_of_ascii c in
  if Ascii.eqb c quote || Ascii.eqb c backslash then String backslash (String c EmptyString)
  else if (n =? 9)%N then String backslash "t"
  else if (n =? 10)%N then String backslash "n"
  else if (n =? 13)%N then String backslash "r"
  else if (n <? 32)%N || (n =? 127)%N then
    String backslash
      (String "x" (String (hashlib.hex_digit (n / 16)%N)
                          (String (hashlib.hex_digit (n mod 16)%N) EmptyString)))
  else String c EmptyString.

Definition py_repr (s : string) : string :=
  let quote := if holds apostrophe s && negb (holds double_quote s)
               then double_quote else apostrophe in
  String quote
    (String.concat EmptyString (escaped quote <$> list_ascii_of_string s)
     ++ String quote EmptyString).

(** A Python call either returns or raises.  A string stands for the UTF-8
    bytes of a [str], so the arguments are texts that have an encoding, and
    for them the only exception the store raises is the [ValueError] of an
    [Enum] constructor. *)
Inductive Exception :=
| ValueError (msg : string).

Inductive Outcome (A : Type) :=
| Return (a : A)
| Raise (e : Exception).
Arguments Return {A} a.
Arguments Raise {A} e.

Definition is_raise {A} (o : Outcome A) : bool :=
  match o with Raise _ => true | Return _ => false end.

(** ** models.py: enums *)

Module Importance.
Inductive t := very_essential | fairly_essential | not_essential.
Definition value (x : t) : string :=
  match x with
  | very_essential => "very_essential"
  | fairly_essential => "fairly_essential"
  | not_essential => "not_essential"
  end.
End Importance.

Module SegmentImportance.
Inductive t := very_important | fairly_important | not_important.
Definition value (x : t) : string :=
  match x with
  | very_important => "very_important"
  | fairly_important => "fairly_important"
  | not_important => "not_important"
  end.
(** [SegmentImportance(s)]: the member whose value is [s], else [ValueError]. *)
Definition parse (s : string) : Outcome t :=
  if String.eqb s "very_important" then Return very_important
  else if String.eqb s "fairly_important" then Return fairly_important
  else if String.eqb s "not_important" then Return not_important
  else Raise (ValueError (py_repr s ++ " is not a valid SegmentImportance")).
End SegmentImportance.

Module CanvasType.
Inductive t := bmc | vpc | segments.
Definition value (x : t) : string :=
  match x with
  | bmc => "bmc"
  | vpc => "vpc"
  | segments => "segments"
  end.
(** [CanvasType(s)] *)
Definition parse (s : string) : Outcome t :=
  if String.eqb s "bmc" then Return bmc
  else if String.eqb s "vpc" then Return vpc
  else if String.eqb s "segments" then Return segments
  else Raise (ValueError (py_repr s ++ " is not a valid CanvasType")).
#[global] Instance eq_dec : EqDecision t.
Proof. solve_decision. Defined.
End CanvasType.

Module ChangeAction.
Inductive t := add | update | remove.
Definition value (x : t) : string :=
  match x with
  | add => "add"
  | update => "update"
  | remove => "remove"
  end.
(** [ChangeAction(s)] *)
Definition parse (s : string) : Outcome t :=
  if String.eqb s "add" then Return add
  else if String.eqb s "update" then Return update
  else if String.eqb s "remove" then Return remove
  else Raise (ValueError (py_repr s ++ " is not a valid ChangeAction")).
#[global] Instance eq_dec : EqDecision t.
Proof. solve_decision. Defined.
End ChangeAction.

(** ** models.py: records

    Each pydantic model is a record in a module of its own, so that the
    fields keep their names ([id], [canvas_type], [importance], ...). *)

Module CanvasItem.
Record t := make { text : string; importance : Importance.t }.
End CanvasItem.

Module CustomerSegment.
Record t := make {
  id : string;
  name : string;
  description : string;
  persona : string;
  importance : SegmentImportance.t }.
End CustomerSegment.

(** The payload of a snapshot: [dict(state["bmc"])], [dict(state["vpc"])] or
    [{"items": [...]}] for the segments. *)
Inductive Snapshot :=
| BMCSnapshot (d : gmap string (list string))
| VPCSnapshot (d : gmap string (list CanvasItem.t))
| SegmentsSnapshot (items : list CustomerSegment.t).

Module CanvasVersion.
Record t := make {
  id : string;
  timestamp : string;
  canvas_type : CanvasType.t;
  change_description : string;
  change_hash : string;
  snapshot_before : Snapshot;
  snapshot_after : Snapshot;
  applied_by : string }.
End CanvasVersion.

Module ProposedChange.
Record t := make {
  id : string;
  canvas_type : CanvasType.t;
  field : string;
  action : ChangeAction.t;
  old_value : option string;
  new_value : option string;
  reason : string;
  change_hash : string }.

(** [compute_hash]: the first 16 hex digits of the SHA-256 of
    [canvas_type|field|action|new_value or ''].  [raw.encode()] gives the
    UTF-8 bytes, which the string already is. *)
Definition compute_hash (self : t) : string :=
  let raw := CanvasType.value (canvas_type self) ++ "|" ++ field self ++ "|"
             ++ ChangeAction.value (action self) ++ "|"
             ++ or_str (new_value self) EmptyString in
  substring 0 16 (hashlib.sha256_hexdigest raw).

(** [model_post_init]: the hash is computed only when none was given. *)
Definition model_post_init (self : t) : t :=
  if String.eqb (change_hash self) EmptyString
  then make (id self) (canvas_type self) (field self) (action self)
            (old_value self) (new_value self) (reason self) (compute_hash self)
  else self.

(** [ProposedChange(canvas_type=..., field=..., ...)] as the proposal tool
    calls it: [id] is the value drawn from [uuid4], [change_hash] is left to
    its default [''] and filled in by [model_post_init]. *)
Definition construct (uuid : string) (ct : CanvasType.t) (f : string)
    (a : ChangeAction.t) (ov nv : option string) (r : string) : t :=
  model_post_init (make uuid ct f a ov nv r EmptyString).
End ProposedChange.

Module ActionOutcome.
Record t := make {
  id : string;
  timestamp : string;
  action_name : string;
  outcome : string;
  learnings : string }.
End ActionOutcome.

(** ** models.py: seed data *)

Definition get_seed_bmc : gmap string (list string) :=
  list_to_map
    [ ("key_partners", ["Cloud infrastructure providers"; "University incubators"])
    ; ("key_activities", ["Product development"; "Customer discovery interviews"])
    ; ("key_resources", ["Engineering team"; "Customer research data"])
    ; ("value_propositions", ["AI-powered business model validation for founders"])
    ; ("customer_relationships", ["Self-service platform"; "Guided onboarding"])
    ; ("channels", ["Direct web app"; "Startup community events"])
    ; ("customer_segments", ["Early-stage tech founders"; "Accelerator programs"])
    ; ("cost_structure", ["Cloud hosting"; "AI API costs"; "Team salaries"])
    ; ("revenue_streams", ["SaaS subscription"]) ].

Definition get_seed_vpc : gmap string (list CanvasItem.t) :=
  list_to_map
    [ ("customer_jobs",
        [ CanvasItem.make "Validate business model assumptions" Importance.very_essential
        ; CanvasItem.make "Track experiment outcomes" Importance.very_essential
        ; CanvasItem.make "Iterate on value proposition" Importance.fairly_essential ])
    ; ("pains",
        [ CanvasItem.make "Manual canvas updates are tedious" Importance.very_essential
        ; CanvasItem.make "Hard to connect experiment results to model changes"
            Importance.fairly_essential ])
    ; ("gains",
        [ CanvasItem.make "Faster iteration cycles" Importance.very_essential
        ; CanvasItem.make "Evidence-based business model decisions"
            Importance.fairly_essential ])
    ; ("products_services",
        [ CanvasItem.make "AI co-pilot for canvas management" Importance.very_essential ])
    ; ("pain_relievers",
        [ CanvasItem.make "Automatic canvas updates from experiment results"
            Importance.very_essential ])
    ; ("gain_creators",
        [ CanvasItem.make "Version history with undo/redo" Importance.fairly_essential ]) ].

(** The two segment ids are [uuid4] draws. *)
Definition get_seed_segments (uuid1 uuid2 : string) : list CustomerSegment.t :=
  [ CustomerSegment.make uuid1 "Technical Founders"
      "Founders with engineering backgrounds building B2B SaaS"
      "Alex, 28, ex-FAANG engineer, building dev tools startup"
      SegmentImportance.very_important
  ; CustomerSegment.make uuid2 "Accelerator Teams"
      "Teams in accelerator programs needing structured validation"
      "Priya, 32, leading a 3-person team in Y Combinator"
      SegmentImportance.fairly_important ].

(** ** state.py: the per-thread canvas state *)

Record State := mkState {
  bmc : gmap string (list string);
  vpc : gmap string (list CanvasItem.t);
  segments : list CustomerSegment.t;
  versions : list CanvasVersion.t;
  pending_changes : list ProposedChange.t;
  rejected_changes : list ProposedChange.t;
  undo_stack : list CanvasVersion.t;
  redo_stack : list CanvasVersion.t;
  auto_mode : bool;
  action_log : list ActionOutcome.t }.

(** [state[key] = value], one setter per key the code assigns. *)
Definition set_bmc (v : gmap string (list string)) (s : State) : State :=
  mkState v (vpc s) (segments s) (versions s) (pending_changes s)
          (rejected_changes s) (undo_stack s) (redo_stack s) (auto_mode s) (action_log s).
Definition set_vpc (v : gmap string (list CanvasItem.t)) (s : State) : State :=
  mkState (bmc s) v (segments s) (versions s) (pending_changes s)
          (rejected_changes s) (undo_stack s) (redo_stack s) (auto_mode s) (action_log s).
Definition set_segments (v : list CustomerSegment.t) (s : State) : State :=
  mkState (bmc s) (vpc s) v (versions s) (pending_changes s)
          (rejected_changes s) (undo_stack s) (redo_stack s) (auto_mode s) (action_log s).
Definition set_versions (v : list CanvasVersion.t) (s : State) : State :=
  mkState (bmc s) (vpc s) (segments s) v (pending_changes s)
          (rejected_changes s) (undo_stack s) (redo_stack s) (auto_mode s) (action_log s).
Definition set_pending_changes (v : list ProposedChange.t) (s : State) : State :=
  mkState (bmc s) (vpc s) (segments s) (versions s) v
          (rejected_changes s) (undo_stack s) (redo_stack s) (auto_mode s) (action_log s).
Definition set_rejected_changes (v : list ProposedChange.t) (s : State) : State :=
  mkState (bmc s) (vpc s) (segments s) (versions s) (pending_changes s)
          v (undo_stack s) (redo_stack s) (auto_mode s) (action_log s).
Definition set_undo_stack (v : list CanvasVersion.t) (s : State) : State :=
  mkState (bmc s) (vpc s) (segments s) (versions s) (pending_changes s)
          (rejected_changes s) v (redo_stack s) (auto_mode s) (action_log s).
Definition set_redo_stack (v : list CanvasVersion.t) (s : State) : State :=
  mkState (bmc s) (vpc s) (segments s) (versions s) (pending_changes s)
          (rejected_changes s) (undo_stack s) v (auto_mode s) (action_log s).
Definition set_auto_mode (v : bool) (s : State) : State :=
  mkState (bmc s) (vpc s) (segments s) (versions s) (pending_changes s)
          (rejected_changes s) (undo_stack s) (redo_stack s) v (action_log s).
Definition set_action_log (v : list ActionOutcome.t) (s : State) : State :=
  mkState (bmc s) (vpc s) (segments s) (versions s) (pending_changes s)
          (rejected_changes s) (undo_stack s) (redo_stack s) (auto_mode s) v.

(** [get_canvas_state] on a thread id not yet in [canvas_store]: the state
    the thread starts from. *)
Definition get_canvas_state (uuid1 uuid2 : string) : State :=
  mkState get_seed_bmc get_seed_vpc (get_seed_segments uuid1 uuid2)
          [] [] [] [] [] false [].

(** [list.pop()] on a non-empty list: the list without its last element, and
    that element.  The callers test for emptiness first. *)
Definition pop {A} (l : list A) : option (list A * A) :=
  match reverse l with
  | [] => None
  | x :: r => Some (reverse r, x)
  end.

(** The fingerprints of the version log:
    [{v["change_hash"] for v in state.get("versions", [])}] *)
Definition existing_hashes (s : State) : list string :=
  CanvasVersion.change_hash <$> versions s.

(** ** tools.py: [_apply_single_change] *)

(** What [_apply_single_change] returns: one constructor per [return]
    statement, rendered to the returned text by [render_apply].  The final
    [else: return "Unknown canvas type"] has no constructor: [canvas_type] is
    a [CanvasType] member, so that branch is never taken. *)
Inductive ApplyReport :=
| InvalidBMCField (field : string)
| InvalidVPCField (field : string)
| SegmentNotFound (old_value : option string)
| Applied (change : ProposedChange.t).

(** [f"{action} '{change.new_value or change.old_value}' in {canvas_type}.{field}"] *)
Definition describe (change : ProposedChange.t) : string :=
  ChangeAction.value (ProposedChange.action change) ++ " '"
  ++ py_str (py_or (ProposedChange.new_value change) (ProposedChange.old_value change))
  ++ "' in " ++ CanvasType.value (ProposedChange.canvas_type change)
  ++ "." ++ ProposedChange.field change.

Definition render_apply (r : ApplyReport) : string :=
  match r with
  | InvalidBMCField f => "Invalid BMC field: " ++ f
  | InvalidVPCField f => "Invalid VPC field: " ++ f
  | SegmentNotFound ov =>
      "No segment found with name '" ++ py_str ov ++ "'. "
      ++ "Pass the segment's name as old_value to identify which segment to update."
  | Applied change =>
      "Applied: " ++ describe change ++ ". Reason: " ++ ProposedChange.reason change
  end.

(** The values drawn while one change is applied: the id and timestamp of the
    [CanvasVersion], and the id of the [CustomerSegment] a segments [add]
    may create. *)
Record Fresh := mkFresh {
  version_id : string;
  version_timestamp : string;
  segment_id : string }.

Definition is_action (a : ChangeAction.t) (change : ProposedChange.t) : bool :=
  bool_decide (ProposedChange.action change = a).

(** The bmc branch after the field check: [entries] is [canvas_dict[field]]. *)
Definition apply_bmc (canvas_dict : gmap string (list string)) (field : string)
    (entries : list string) (change : ProposedChange.t) : gmap string (list string) :=
  let old_value := ProposedChange.old_value change in
  let new_value := ProposedChange.new_value change in
  if is_action ChangeAction.add change && truthy new_value then
    if bool_decide (text_of new_value ∈ entries) then canvas_dict
    else <[field := (entries ++ [text_of new_value])%list]> canvas_dict
  else if is_action ChangeAction.remove change && truthy old_value then
    <[field := filter (λ v, v ≠ text_of old_value) entries]> canvas_dict
  else if is_action ChangeAction.update change && truthy old_value && truthy new_value then
    <[field := (λ v, if bool_decide (v = text_of old_value) then text_of new_value else v) <$> entries]>
      canvas_dict
  else canvas_dict.

(** [{**item, "text": new_value}] *)
Definition with_text (item : CanvasItem.t) (new_text : string) : CanvasItem.t :=
  CanvasItem.make new_text (CanvasItem.importance item).

(** The vpc branch after the field check. *)
Definition apply_vpc (canvas_dict : gmap string (list CanvasItem.t)) (field : string)
    (items : list CanvasItem.t) (change : ProposedChange.t)
    : gmap string (list CanvasItem.t) :=
  let old_value := ProposedChange.old_value change in
  let new_value := ProposedChange.new_value change in
  if is_action ChangeAction.add change && truthy new_value then
    let existing_texts := CanvasItem.text <$> items in
    if bool_decide (text_of new_value ∈ existing_texts) then canvas_dict
    else <[field := (items ++ [CanvasItem.make (text_of new_value)
                                       Importance.fairly_essential])%list]> canvas_dict
  else if is_action ChangeAction.remove change && truthy old_value then
    <[field := filter (λ item, CanvasItem.text item ≠ text_of old_value) items]> canvas_dict
  else if is_action ChangeAction.update change && truthy old_value && truthy new_value then
    <[field := (λ item, if bool_decide (CanvasItem.text item = text_of old_value)
                             then with_text item (text_of new_value) else item) <$> items]>
      canvas_dict
  else canvas_dict.

(** The attribute assignment inside the segments [update] loop.  A [field]
    outside the four names assigns nothing. *)
Definition set_attribute (seg : CustomerSegment.t) (field new_value : string)
    : Outcome CustomerSegment.t :=
  let '(CustomerSegment.make i n d p imp) := seg in
  if String.eqb field "name" then Return (CustomerSegment.make i new_value d p imp)
  else if String.eqb field "description" then Return (CustomerSegment.make i n new_value p imp)
  else if String.eqb field "persona" then Return (CustomerSegment.make i n d new_value imp)
  else if String.eqb field "importance" then
    match SegmentImportance.parse new_value with
    | Return imp' => Return (CustomerSegment.make i n d p imp')
    | Raise e => Raise e
    end
  else Return seg.

(** The [for seg in segments: ... break ... else: return ...] loop: the first
    segment named [old_value] is updated; [Return None] is the [else] clause
    (no segment of that name). *)
Fixpoint update_segment (segs : list CustomerSegment.t) (old_value field new_value : string)
    : Outcome (option (list CustomerSegment.t)) :=
  match segs with
  | [] => Return None
  | seg :: rest =>
      if String.eqb (CustomerSegment.name seg) old_value then
        match set_attribute seg field new_value with
        | Return seg' => Return (Some (seg' :: rest))
        | Raise e => Raise e
        end
      else
        match update_segment rest old_value field new_value with
        | Return (Some rest') => Return (Some (seg :: rest'))
        | Return None => Return None
        | Raise e => Raise e
        end
  end.

(** The segments branch: the new list of segments, [Return None] when the
    update loop falls into its [else], or the exception it raises. *)
Definition apply_segments (segs : list CustomerSegment.t) (change : ProposedChange.t)
    (fresh : Fresh) : Outcome (option (list CustomerSegment.t)) :=
  let field := ProposedChange.field change in
  let old_value := ProposedChange.old_value change in
  let new_value := ProposedChange.new_value change in
  if is_action ChangeAction.add change && truthy new_value then
    if existsb (λ s, String.eqb (CustomerSegment.name s) (text_of new_value)) segs
    then Return (Some segs)
    else Return (Some (segs ++
           [CustomerSegment.make (segment_id fresh) (text_of new_value)
              (if String.eqb field "name" then EmptyString else field)
              EmptyString SegmentImportance.fairly_important])%list)
  else if is_action ChangeAction.remove change && truthy old_value then
    Return (Some (filter (λ s, CustomerSegment.name s ≠ text_of old_value) segs))
  else if is_action ChangeAction.update change && truthy old_value && truthy new_value then
    update_segment segs (text_of old_value) field (text_of new_value)
  else Return (Some segs).

(** The tail of [_apply_single_change]: build the [CanvasVersion], append it
    to the version log, clear the redo stack, push it on the undo stack. *)
Definition new_version (state : State) (change : ProposedChange.t)
    (snapshot_before snapshot_after : Snapshot) (fresh : Fresh) : CanvasVersion.t :=
  CanvasVersion.make (version_id fresh) (version_timestamp fresh)
    (ProposedChange.canvas_type change) (describe change)
    (ProposedChange.change_hash change) snapshot_before snapshot_after
    (if auto_mode state then "auto" else "manual").

Definition record_version (state : State) (change : ProposedChange.t)
    (snapshot_before snapshot_after : Snapshot) (fresh : Fresh) : State :=
  let version := new_version state change snapshot_before snapshot_after fresh in
  let state := set_versions (versions state ++ [version])%list state in
  let state := set_redo_stack [] state in
  set_undo_stack (undo_stack state ++ [version])%list state.

Definition _apply_single_change (state : State) (change : ProposedChange.t)
    (fresh : Fresh) : State * Outcome ApplyReport :=
  let field := ProposedChange.field change in
  match ProposedChange.canvas_type change with
  | CanvasType.bmc =>
      let canvas_dict := bmc state in
      let snapshot_before := BMCSnapshot canvas_dict in
      match canvas_dict !! field with
      | None => (state, Return (InvalidBMCField field))
      | Some entries =>
          let canvas_dict := apply_bmc canvas_dict field entries change in
          let state := set_bmc canvas_dict state in
          (record_version state change snapshot_before (BMCSnapshot canvas_dict) fresh,
           Return (Applied change))
      end
  | CanvasType.vpc =>
      let canvas_dict := vpc state in
      let snapshot_before := VPCSnapshot canvas_dict in
      match canvas_dict !! field with
      | None => (state, Return (InvalidVPCField field))
      | Some items =>
          let canvas_dict := apply_vpc canvas_dict field items change in
          let state := set_vpc canvas_dict state in
          (record_version state change snapshot_before (VPCSnapshot canvas_dict) fresh,
           Return (Applied change))
      end
  | CanvasType.segments =>
      let snapshot_before := SegmentsSnapshot (segments state) in
      match apply_segments (segments state) change fresh with
      | Raise e => (state, Raise e)
      | Return None => (state, Return (SegmentNotFound (ProposedChange.old_value change)))
      | Return (Some segs) =>
          let state := set_segments segs state in
          (record_version state change snapshot_before (SegmentsSnapshot segs) fresh,
           Return (Applied change))
      end
  end.

(** ** tools.py: [propose_canvas_update] *)

Inductive ProposeReport :=
| DuplicateSkipped (change_hash : string)
| AutoApplied (result : ApplyReport)
| WaitingForApproval (change : ProposedChange.t).

Definition render_propose (r : ProposeReport) : string :=
  match r with
  | DuplicateSkipped h =>
      "This change has already been applied (hash: " ++ h ++ "). Skipping duplicate."
  | AutoApplied result => "[Auto-applied] " ++ render_apply result
  | WaitingForApproval change =>
      "Proposed change:" ++ newline
      ++ "  Canvas: " ++ CanvasType.value (ProposedChange.canvas_type change) ++ newline
      ++ "  Field: " ++ ProposedChange.field change ++ newline
      ++ "  Action: " ++ ChangeAction.value (ProposedChange.action change) ++ newline
      ++ "  Old: " ++ or_str (ProposedChange.old_value change) "(none)" ++ newline
      ++ "  New: " ++ or_str (ProposedChange.new_value change) "(none)" ++ newline
      ++ "  Reason: " ++ ProposedChange.reason change ++ newline
      ++ "[change_id:" ++ ProposedChange.id change ++ "] Waiting for founder approval."
  end.

(** [uuid] is the id drawn for the [ProposedChange]; [fresh] holds the draws
    of the apply that auto mode runs. *)
Definition propose_canvas_update (state : State) (canvas_type field action : string)
    (new_value old_value : option string) (reason : string)
    (uuid : string) (fresh : Fresh) : State * Outcome ProposeReport :=
  match CanvasType.parse canvas_type with
  | Raise e => (state, Raise e)
  | Return ct =>
  match ChangeAction.parse action with
  | Raise e => (state, Raise e)
  | Return a =>
      let change := ProposedChange.construct uuid ct field a old_value new_value reason in
      if bool_decide (ProposedChange.change_hash change ∈ existing_hashes state) then
        (state, Return (DuplicateSkipped (ProposedChange.change_hash change)))
      else if auto_mode state then
        match _apply_single_change state change fresh with
        | (state, Return result) => (state, Return (AutoApplied result))
        | (state, Raise e) => (state, Raise e)
        end
      else
        (set_pending_changes (pending_changes state ++ [change])%list state,
         Return (WaitingForApproval change))
  end
  end.

(** ** tools.py: [apply_proposed_changes] *)

Inductive BatchReport :=
| ChangeNotFound (cid : string)
| AlreadyApplied (cid : string)
| Processed (result : ApplyReport).

Definition render_batch_line (r : BatchReport) : string :=
  match r with
  | ChangeNotFound cid => "Change " ++ cid ++ " not found in pending changes."
  | AlreadyApplied cid => "Change " ++ cid ++ " already applied (duplicate). Skipping."
  | Processed result => render_apply result
  end.

(** ["\n".join(results)] *)
Definition render_batch (results : list BatchReport) : string :=
  String.concat newline (render_batch_line <$> results).

(** [next((c for c in pending if c["id"] == cid), None)] *)
Definition find_change (pending : list ProposedChange.t) (cid : string)
    : option ProposedChange.t :=
  List.find (λ c, String.eqb (ProposedChange.id c) cid) pending.

(** The [for cid in change_ids] loop.  [pending] is the list read before the
    loop; [fresh i] holds the draws of the apply run by the iteration at
    position [i] of [change_ids].  An exception raised by an apply leaves the
    loop at once. *)
Fixpoint apply_loop (pending : list ProposedChange.t) (fresh : nat → Fresh) (i : nat)
    (change_ids : list string) (state : State) (results : list BatchReport)
    : State * Outcome (list BatchReport) :=
  match change_ids with
  | [] => (state, Return results)
  | cid :: rest =>
      match find_change pending cid with
      | None =>
          apply_loop pending fresh (S i) rest state (results ++ [ChangeNotFound cid])%list
      | Some change_dict =>
          if bool_decide (ProposedChange.change_hash change_dict ∈ existing_hashes state)
          then apply_loop pending fresh (S i) rest state (results ++ [AlreadyApplied cid])%list
          else
            let change := ProposedChange.model_post_init change_dict in
            match _apply_single_change state change (fresh i) with
            | (state, Return result) =>
                apply_loop pending fresh (S i) rest state (results ++ [Processed result])%list
            | (state, Raise e) => (state, Raise e)
            end
      end
  end.

(** The ids the batch works on: all pending ids when none is given. *)
Definition batch_ids (state : State) (change_ids : list string) : list string :=
  match change_ids with
  | [] => ProposedChange.id <$> pending_changes state
  | _ => change_ids
  end.

Definition apply_proposed_changes (state : State) (change_ids : list string)
    (fresh : nat → Fresh) : State * Outcome (list BatchReport) :=
  let pending := pending_changes state in
  let change_ids := batch_ids state change_ids in
  match apply_loop pending fresh 0 change_ids state [] with
  | (state, Raise e) => (state, Raise e)
  | (state, Return results) =>
      (set_pending_changes
         (filter (λ c, ProposedChange.id c ∉ change_ids) pending) state,
       Return results)
  end.

(** ** tools.py: [undo_last_change] and [redo_change] *)

Inductive UndoReport :=
| NothingToUndo
| Undone (change_description : string).

Inductive RedoReport :=
| NothingToRedo
| Redone (change_description : string).

Definition render_undo (r : UndoReport) : string :=
  match r with
  | NothingToUndo => "Nothing to undo."
  | Undone d => "Undone: " ++ d
  end.

Definition render_redo (r : RedoReport) : string :=
  match r with
  | NothingToRedo => "Nothing to redo."
  | Redone d => "Redone: " ++ d
  end.

(** The [if canvas_type == "bmc": state["bmc"] = snapshot ...] chain shared
    by undo and redo.  Python stores whatever payload the entry holds; here a
    payload of another canvas's shape has no key to go to and is dropped.
    [_apply_single_change] is the only place entries are built, and it gives
    both snapshots the shape of [canvas_type] (lemmas [apply_applied] and
    [shape_snapshot_of]). *)
Definition restore (canvas_type : CanvasType.t) (snapshot : Snapshot) (state : State)
    : State :=
  match canvas_type, snapshot with
  | CanvasType.bmc, BMCSnapshot d => set_bmc d state
  | CanvasType.vpc, VPCSnapshot d => set_vpc d state
  | CanvasType.segments, SegmentsSnapshot items => set_segments items state
  | _, _ => state
  end.

Definition undo_last_change (state : State) : State * UndoReport :=
  match pop (undo_stack state) with
  | None => (state, NothingToUndo)
  | Some (undo_stack, last_version) =>
      let state := set_undo_stack undo_stack state in
      let state := set_redo_stack (redo_stack state ++ [last_version])%list state in
      let state :=
        set_versions
          (filter (λ v, CanvasVersion.change_hash v ≠ CanvasVersion.change_hash last_version)
                  (versions state)) state in
      let state := restore (CanvasVersion.canvas_type last_version)
                           (CanvasVersion.snapshot_before last_version) state in
      (state, Undone (CanvasVersion.change_description last_version))
  end.

Definition redo_change (state : State) : State * RedoReport :=
  match pop (redo_stack state) with
  | None => (state, NothingToRedo)
  | Some (redo_stack, version) =>
      let state := set_redo_stack redo_stack state in
      let state := set_undo_stack (undo_stack state ++ [version])%list state in
      let state :=
        if bool_decide (CanvasVersion.change_hash version ∈ existing_hashes state)
        then state
        else set_versions (versions state ++ [version])%list state in
      let state := restore (CanvasVersion.canvas_type version)
                           (CanvasVersion.snapshot_after version) state in
      (state, Redone (CanvasVersion.change_description version))
  end.

(** ** tools.py: [log_action_outcome]; main.py: rejection and auto mode *)

Definition log_action_outcome (state : State) (action_name outcome learnings : string)
    (uuid now : string) : State :=
  let entry := ActionOutcome.make uuid now action_name outcome learnings in
  set_action_log (action_log state ++ [entry])%list state.

Inductive RejectReport :=
| ChangeIdRequired
| RejectNotFound (change_id : string)
| Rejected (change_id : string) (remaining : nat).

(** [reject_change] of main.py; [HTTPException(400)] when no id is given.
    When the filter has removed an element, [next] has found one, so
    [rejected] is a change and not [None] in the last branch. *)
Definition reject_change (state : State) (change_id : string) : State * RejectReport :=
  if String.eqb change_id EmptyString then (state, ChangeIdRequired)
  else
    let before := length (pending_changes state) in
    let rejected := find_change (pending_changes state) change_id in
    let state :=
      set_pending_changes
        (filter (λ c, ProposedChange.id c ≠ change_id) (pending_changes state)) state in
    let after := length (pending_changes state) in
    if Nat.eqb before after then (state, RejectNotFound change_id)
    else
      match rejected with
      | Some change =>
          (set_rejected_changes (rejected_changes state ++ [change])%list state,
           Rejected change_id after)
      | None => (state, Rejected change_id after)
      end.

(** [update_thread_state] of main.py, for a request that carries [auto_mode]. *)
Definition update_thread_state (state : State) (value : bool) : State :=
  set_auto_mode value state.

(** ** The store as a state machine

    One constructor per entry point that writes to a thread's state, with the
    arguments of the call and the values it draws from [uuid4] and the
    clock. *)
Inductive Op :=
| Propose (canvas_type field action : string) (new_value old_value : option string)
          (reason : string) (uuid : string) (fresh : Fresh)
| ApplyApproved (change_ids : list string) (fresh : nat → Fresh)
| Undo
| Redo
| LogActionOutcome (action_name outcome learnings : string) (uuid now : string)
| Reject (change_id : string)
| SetAutoMode (value : bool).

Definition step (state : State) (op : Op) : State :=
  match op with
  | Propose ct f a nv ov r uuid fresh =>
      (propose_canvas_update state ct f a nv ov r uuid fresh).1
  | ApplyApproved ids fresh => (apply_proposed_changes state ids fresh).1
  | Undo => (undo_last_change state).1
  | Redo => (redo_change state).1
  | LogActionOutcome n o l uuid now => log_action_outcome state n o l uuid now
  | Reject cid => (reject_change state cid).1
  | SetAutoMode b => update_thread_state state b
  end.

(** The state of a thread after a sequence of calls, oldest first. *)
Definition run (ops : list Op) (state : State) : State := foldl step state ops.

(** A thread state the store can be in: the seeded state after some calls. *)
Definition reachable (state : State) : Prop :=
  ∃ uuid1 uuid2 ops, state = run ops (get_canvas_state uuid1 uuid2).

(** ** tools.py: [get_version_history] *)

(** [l[start:]] for a Python list and any integer [start]: a negative start
    counts from the end, and a start beyond either end is clamped. *)
Definition py_slice_from {A} (start : Z) (l : list A) : list A :=
  let len := Z.of_nat (length l) in
  let start := if (start <? 0)%Z then Z.max (start + len) 0 else Z.min start len in
  drop (Z.to_nat start) l.

(** [versions[-limit:]] after the optional filter on the canvas type.  The
    stored [canvas_type] is an enum member, equal to a string when its value
    is that string. *)
Definition recent_versions (state : State) (canvas_type : option string) (limit : Z)
    : list CanvasVersion.t :=
  let versions :=
    if truthy canvas_type
    then filter (λ v, CanvasType.value (CanvasVersion.canvas_type v) = text_of canvas_type)
                (versions state)
    else versions state in
  py_slice_from (- limit) versions.

(** [f"  [{v['timestamp']}] {v['change_description']} (by: {v.get('applied_by', 'unknown')})"];
    every entry has the key [applied_by]. *)
Definition history_line (v : CanvasVersion.t) : string :=
  "  [" ++ CanvasVersion.timestamp v ++ "] " ++ CanvasVersion.change_description v
  ++ " (by: " ++ CanvasVersion.applied_by v ++ ")".

Definition get_version_history (state : State) (canvas_type : option string) (limit : Z)
    : string :=
  match recent_versions state canvas_type limit with
  | [] => "No version history yet."
  | recent =>
      String.concat newline ("Version History:" :: (history_line <$> reverse recent))
  end.

(** ** state.py and main.py: the registry of threads

    [canvas_store] maps a thread id to the state of the thread.  Every tool
    and endpoint starts with [get_canvas_state(thread_id)] and then works on
    the dict it returns, which is the one held by the store. *)

(** [get_canvas_state(thread_id)] with the store made explicit: the store
    after the call and the state returned.  [uuid1] and [uuid2] are drawn only
    when the thread is seeded. *)
Definition get_canvas_state_in (canvas_store : gmap string State)
    (thread_id uuid1 uuid2 : string) : gmap string State * State :=
  match canvas_store !! thread_id with
  | Some state => (canvas_store, state)
  | None =>
      let state := get_canvas_state uuid1 uuid2 in
      (<[thread_id := state]> canvas_store, state)
  end.

(** [delete_thread] of main.py, on the canvas store. *)
Definition delete_thread (canvas_store : gmap string State) (thread_id : string)
    : gmap string State :=
  match canvas_store !! thread_id with
  | Some _ => delete thread_id canvas_store
  | None => canvas_store
  end.

(** What can happen to the store: a call of [op] in the context of a thread,
    a bare [get_canvas_state] (thread creation, the read-only tools and
    endpoints), the deletion of a thread. *)
Inductive StoreOp :=
| Call (thread_id uuid1 uuid2 : string) (op : Op)
| Touch (thread_id uuid1 uuid2 : string)
| DeleteThread (thread_id : string).

Definition store_step (canvas_store : gmap string State) (sop : StoreOp)
    : gmap string State :=
  match sop with
  | Call thread_id uuid1 uuid2 op =>
      let '(canvas_store, state) := get_canvas_state_in canvas_store thread_id uuid1 uuid2 in
      <[thread_id := step state op]> canvas_store
  | Touch thread_id uuid1 uuid2 =>
      (get_canvas_state_in canvas_store thread_id uuid1 uuid2).1
  | DeleteThread thread_id => delete_thread canvas_store thread_id
  end.

(** The store after a sequence of events, starting from [canvas_store = {}]. *)
Definition store_run (sops : list StoreOp) : gmap string State :=
  foldl store_step ∅ sops.

(** ** Vocabulary of the properties *)

(** The three canvases of a thread, apart from its queues and logs. *)
Record Canvases := mkCanvases {
  the_bmc : gmap string (list string);
  the_vpc : gmap string (list CanvasItem.t);
  the_segments : list CustomerSegment.t }.

Definition canvases (s : State) : Canvases := mkCanvases (bmc s) (vpc s) (segments s).

(** The payload [_apply_single_change] snapshots for a canvas type. *)
Definition snapshot_of (ct : CanvasType.t) (c : Canvases) : Snapshot :=
  match ct with
  | CanvasType.bmc => BMCSnapshot (the_bmc c)
  | CanvasType.vpc => VPCSnapshot (the_vpc c)
  | CanvasType.segments => SegmentsSnapshot (the_segments c)
  end.

(** [restore], seen on the canvases alone. *)
Definition put (ct : CanvasType.t) (snapshot : Snapshot) (c : Canvases) : Canvases :=
  match ct, snapshot with
  | CanvasType.bmc, BMCSnapshot d => mkCanvases d (the_vpc c) (the_segments c)
  | CanvasType.vpc, VPCSnapshot d => mkCanvases (the_bmc c) d (the_segments c)
  | CanvasType.segments, SegmentsSnapshot items => mkCanvases (the_bmc c) (the_vpc c) items
  | _, _ => c
  end.

(** The canvas type whose payload a snapshot is. *)
Definition shape (snapshot : Snapshot) : CanvasType.t :=
  match snapshot with
  | BMCSnapshot _ => CanvasType.bmc
  | VPCSnapshot _ => CanvasType.vpc
  | SegmentsSnapshot _ => CanvasType.segments
  end.

(** A stack of entries, top first, can be undone from canvases [c]: the top
    entry's [snapshot_after] is the present content of its canvas, and below
    it the same holds once its [snapshot_before] has been restored. *)
Fixpoint undoable (c : Canvases) (stack : list CanvasVersion.t) : Prop :=
  match stack with
  | [] => True
  | v :: below =>
      snapshot_of (CanvasVersion.canvas_type v) c = CanvasVersion.snapshot_after v
      ∧ shape (CanvasVersion.snapshot_before v) = CanvasVersion.canvas_type v
      ∧ undoable (put (CanvasVersion.canvas_type v) (CanvasVersion.snapshot_before v) c) below
  end.

(** The mirror image for the redo stack. *)
Fixpoint redoable (c : Canvases) (stack : list CanvasVersion.t) : Prop :=
  match stack with
  | [] => True
  | v :: below =>
      snapshot_of (CanvasVersion.canvas_type v) c = CanvasVersion.snapshot_before v
      ∧ shape (CanvasVersion.snapshot_after v) = CanvasVersion.canvas_type v
      ∧ redoable (put (CanvasVersion.canvas_type v) (CanvasVersion.snapshot_after v) c) below
  end.

(** What every reachable thread state satisfies. *)
Record store_inv (s : State) : Prop := {
  inv_log_is_undo_stack : versions s = undo_stack s;
  inv_hashes_distinct :
    NoDup (CanvasVersion.change_hash <$> (undo_stack s ++ redo_stack s)%list);
  inv_undoable : undoable (canvases s) (reverse (undo_stack s));
  inv_redoable : redoable (canvases s) (reverse (redo_stack s));
  inv_pending_hashed :
    Forall (λ c, ProposedChange.change_hash c ≠ EmptyString) (pending_changes s) }.

(** Changes applied one after the other, the way the proposal tool and the
    batch loop apply them: only a change whose fingerprint is not in the log
    is applied, and here every apply has to report success.  [None] when one
    of the changes is a duplicate, fails or raises. *)
Fixpoint apply_all (s : State) (changes : list (ProposedChange.t * Fresh)) : option State :=
  match changes with
  | [] => Some s
  | (change, fresh) :: rest =>
      if bool_decide (ProposedChange.change_hash change ∈ existing_hashes s) then None
      else
        match _apply_single_change s change fresh with
        | (s', Return (Applied _)) => apply_all s' rest
        | _ => None
        end
  end.

(** [n] calls of a tool in a row. *)
Definition undo_n (n : nat) (s : State) : State :=
  Nat.iter n (λ s, (undo_last_change s).1) s.
Definition redo_n (n : nat) (s : State) : State :=
  Nat.iter n (λ s, (redo_change s).1) s.

(** The string [compute_hash] feeds to SHA-256. *)
Definition hash_input (ct : CanvasType.t) (field : string) (a : ChangeAction.t)
    (new_value : option string) : string :=
  CanvasType.value ct ++ "|" ++ field ++ "|" ++ ChangeAction.value a ++ "|"
  ++ or_str new_value EmptyString.

(** The strings a bmc field or a vpc section holds (for the vpc, the texts of
    its items); [None] when the canvas has no such field, and for the
    segments, which have no fields of this kind. *)
Definition field_content (s : State) (change : ProposedChange.t) : option (list string) :=
  match ProposedChange.canvas_type change with
  | CanvasType.bmc => bmc s !! ProposedChange.field change
  | CanvasType.vpc =>
      (λ items : list CanvasItem.t, CanvasItem.text <$> items)
        <$> vpc s !! ProposedChange.field change
  | CanvasType.segments => None
  end.

(** A change that cannot alter a field holding [present]: an update whose
    [old_value] is none of the entries, or an add of an entry already there. *)
Definition changes_nothing (change : ProposedChange.t) (present : list string) : Prop :=
  (ProposedChange.action change = ChangeAction.update
   ∧ ∀ old, ProposedChange.old_value change = Some old → old ∉ present)
  ∨ (ProposedChange.action change = ChangeAction.add
     ∧ ∃ new, ProposedChange.new_value change = Some new ∧ new ∈ present).



(** The nine fields of the bmc and the six sections of the vpc. *)
Definition bmc_fields : gset string :=
  list_to_set
    [ "key_partners"; "key_activities"; "key_resources"; "value_propositions"
    ; "customer_relationships"; "channels"; "customer_segments"; "cost_structure"
    ; "revenue_streams" ].

Definition vpc_sections : gset string :=
  list_to_set
    [ "customer_jobs"; "pains"; "gains"; "products_services"; "pain_relievers"
    ; "gain_creators" ].

Definition keyed_canvases (c : Canvases) : Prop :=
  dom (the_bmc c) = bmc_fields ∧ dom (the_vpc c) = vpc_sections.

Definition keyed_snapshot (snapshot : Snapshot) : Prop :=
  match snapshot with
  | BMCSnapshot d => dom d = bmc_fields
  | VPCSnapshot d => dom d = vpc_sections
  | SegmentsSnapshot _ => True
  end.

Definition keyed_entry (v : CanvasVersion.t) : Prop :=
  keyed_snapshot (CanvasVersion.snapshot_before v)
  ∧ keyed_snapshot (CanvasVersion.snapshot_after v).

(** The canvases of a reachable state, and every snapshot on its stacks, have
    exactly the keys of the seed. *)
Definition keys_inv (s : State) : Prop :=
  keyed_canvases (canvases s)
  ∧ Forall keyed_entry (undo_stack s ++ redo_stack s)%list.

(** What a batch may report for an id: "not found" when no pending change
    carries the id, else "already applied" or the report of its apply. *)
Definition report_fits (pending : list ProposedChange.t) (cid : string)
    (r : BatchReport) : Prop :=
  match find_change pending cid with
  | None => r = ChangeNotFound cid
  | Some _ => r = AlreadyApplied cid ∨ ∃ result, r = Processed result
  end.

(** Enumerations used to count strings: every character, the strings of one
    length over an alphabet, and the strings up to a length. *)
Definition all_ascii : list ascii := ascii_of_nat <$> seq 0 256.

Fixpoint strings_of_length (alphabet : list ascii) (n : nat) : list string :=
  match n with
  | O => [EmptyString]
  | S n' => c ← alphabet; String c <$> strings_of_length alphabet n'
  end.

Definition strings_up_to (alphabet : list ascii) (n : nat) : list string :=
  k ← seq 0 (S n); strings_of_length alphabet k.

(** The entries [get_version_history] chooses from: the whole log, or the
    entries of one canvas type when a non-empty filter is given. *)
Definition matching_versions (s : State) (canvas_type : option string)
    : list CanvasVersion.t :=
  if truthy canvas_type
  then filter (λ v, CanvasType.value (CanvasVersion.canvas_type v) = text_of canvas_type)
              (versions s)
  else versions s.

(** The sixteen characters a fingerprint is written with. *)
Definition hex_digits : list ascii := list_ascii_of_string "0123456789abcdef".

(** The canvases an undo stack leads back to from canvases [c]: the
    [snapshot_before] of every entry put back, newest entry first. *)
Definition rewound (c : Canvases) (stack : list CanvasVersion.t) : Canvases :=
  foldr (λ v c, put (CanvasVersion.canvas_type v) (CanvasVersion.snapshot_before v) c)
        c stack.

(** ** Concrete threads used as witnesses and counterexamples *)

Definition seeded : State := get_canvas_state "seg-0001" "seg-0002".

Definition draw1 : Fresh := mkFresh "ver-0001" "2025-03-01T10:00:00+00:00" "seg-0003".
Definition draw2 : Fresh := mkFresh "ver-0002" "2025-03-01T10:05:00+00:00" "seg-0004".

(** Auto mode on, then two proposals that apply at once: a partner added to
    the bmc and a segment added to the segments. *)
Definition two_applies : list Op :=
  [ SetAutoMode true
  ; Propose "bmc" "key_partners" "add" (Some "Acme Cloud") None "interviews" "chg-0001" draw1
  ; Propose "segments" "name" "add" (Some "Students") None "survey" "chg-0002" draw2 ].

(** The two changes of [two_applies], as constructed by the proposal tool. *)
Definition two_changes : list (ProposedChange.t * Fresh) :=
  [ (ProposedChange.construct "chg-0001" CanvasType.bmc "key_partners" ChangeAction.add
       None (Some "Acme Cloud") "interviews", draw1)
  ; (ProposedChange.construct "chg-0002" CanvasType.segments "name" ChangeAction.add
       None (Some "Students") "survey", draw2) ].

(** The seeded thread with auto mode switched on. *)
Definition auto_seeded : State := update_thread_state seeded true.

(** The thread after the two changes, applied in auto mode. *)
Definition after_two_changes : State :=
  default auto_seeded (apply_all auto_seeded two_changes).

(** An add to a vpc section of a text the section already holds. *)
Definition repeated_pain : ProposedChange.t :=
  ProposedChange.construct "chg-0005" CanvasType.vpc "pains" ChangeAction.add
    None (Some "Manual canvas updates are tedious") "heard again".


(** Segment updates aimed at a name no segment carries: with the new persona
    given, and without it. *)
Definition alex_update : ProposedChange.t :=
  ProposedChange.construct "chg-0007" CanvasType.segments "persona" ChangeAction.update
    (Some "Alex") (Some "Senior engineer, 5 yrs") "interview".

Definition alex_update_without_value : ProposedChange.t :=
  ProposedChange.construct "chg-0008" CanvasType.segments "persona" ChangeAction.update
    (Some "Alex") None "interview".

(** A segments add whose field is none of name, description, persona and
    importance. *)
Definition add_with_unknown_field : ProposedChange.t :=
  ProposedChange.construct "chg-0009" CanvasType.segments "pricing_tier" ChangeAction.add
    None (Some "Students") "survey".

(** Manual mode: an importance update with a value outside the enum is
    queued, then a partner is proposed. *)
Definition queue_with_bad_importance : list Op :=
  [ Propose "segments" "importance" "update" (Some "critical") (Some "Technical Founders")
            "interview" "chg-0001" draw1
  ; Propose "bmc" "key_partners" "add" (Some "Acme Cloud") None "interviews"
            "chg-0002" draw2 ].

(** A store with two threads: one of them applies a change, is deleted and
    comes back under the same id. *)
Definition busy_store : list StoreOp :=
  [ Call "thread-a" "seg-0001" "seg-0002" (SetAutoMode true)
  ; Call "thread-a" "seg-0003" "seg-0004"
      (Propose "bmc" "key_partners" "add" (Some "Acme Cloud") None "interviews"
               "chg-0001" draw1)
  ; Call "thread-b" "seg-0005" "seg-0006"
      (Propose "vpc" "gains" "add" (Some "Less rework") None "interviews" "chg-0002" draw2)
  ; DeleteThread "thread-a"
  ; Call "thread-a" "seg-0007" "seg-0008"
      (Propose "bmc" "channels" "add" (Some "Newsletter") None "survey" "chg-0003" draw1) ].

Definition thread_a_of_busy_store : State :=
  default seeded (store_run busy_store !! "thread-a").

(** Manual mode: two proposals wait in the queue. *)
Definition two_in_queue : State :=
  run [ Propose "bmc" "key_partners" "add" (Some "Acme Cloud") None "interviews"
                "chg-0001" draw1
      ; Propose "vpc" "gains" "add" (Some "Less rework") None "interviews"
                "chg-0002" draw2 ] seeded.

(** Changes to seeded fields: an entry of the cost structure removed, a
    channel renamed, a partner added and removed again, a pain reworded, a
    persona rewritten, and a segment added under the field [persona]. *)
Definition drop_cloud_hosting : ProposedChange.t :=
  ProposedChange.construct "chg-0010" CanvasType.bmc "cost_structure" ChangeAction.remove
    (Some "Cloud hosting") None "moved on-premise".

Definition rename_channel : ProposedChange.t :=
  ProposedChange.construct "chg-0011" CanvasType.bmc "channels" ChangeAction.update
    (Some "Direct web app") (Some "Mobile app") "usage data".

Definition add_acme : ProposedChange.t :=
  ProposedChange.construct "chg-0012" CanvasType.bmc "key_partners" ChangeAction.add
    None (Some "Acme Cloud") "interviews".

Definition remove_acme : ProposedChange.t :=
  ProposedChange.construct "chg-0013" CanvasType.bmc "key_partners" ChangeAction.remove
    (Some "Acme Cloud") None "contract ended".

Definition reword_pain : ProposedChange.t :=
  ProposedChange.construct "chg-0014" CanvasType.vpc "pains" ChangeAction.update
    (Some "Manual canvas updates are tedious") (Some "Canvas upkeep eats a day a week")
    "interviews".

Definition rewrite_persona : ProposedChange.t :=
  ProposedChange.construct "chg-0015" CanvasType.segments "persona" ChangeAction.update
    (Some "Technical Founders") (Some "Sam, 35, second-time founder") "interviews".

Definition add_students_persona : ProposedChange.t :=
  ProposedChange.construct "chg-0016" CanvasType.segments "persona" ChangeAction.add
    None (Some "Students") "survey".

(** * Properties *)

(** A closed equation is settled by evaluating its two sides on the virtual
    machine; the kernel does so when the proof is checked. *)
Ltac evaluate :=
  lazymatch goal with |- ?a = ?b => vm_cast_no_check (eq_refl b) end.

(** ** SHA-256 test vectors *)

Example sha256_empty :
  hashlib.sha256_hexdigest EmptyString
  = "e3b0c44298fc1c149afbf4c8996fb92427ae41e4649b934ca495991b7852b855".
Proof. vm_compute. reflexivity. Qed.

Example sha256_abc :
  hashlib.sha256_hexdigest "abc"
  = "ba7816bf8f01cfea414140de5dae2223b00361a396177a9cb410ff61f20015ad".
Proof. vm_compute. reflexivity. Qed.

Example sha256_two_blocks :
  hashlib.sha256_hexdigest
    "aaaaaaaaaaaaaaaaaaaaaaaaaaaaaaaaaaaaaaaaaaaaaaaaaaaaaaaa"
  = "b35439a4ac6f0948b6d6f9e3c6af0f5f590ce20f1bde7090ef7970686ec6738a".
Proof. vm_compute. reflexivity. Qed.

Example compute_hash_acme :
  ProposedChange.change_hash
    (ProposedChange.construct "c1" CanvasType.bmc "key_partners" ChangeAction.add
       None (Some "Acme Cloud") "seen in interviews")
  = "eda6738fb9088c06".
Proof. vm_compute. reflexivity. Qed.

(** ** [repr] of a string *)

Example repr_plain : py_repr "roadmap" = "'roadmap'".
Proof. reflexivity. Qed.

(** An apostrophe alone switches to double quotes; with both kinds of quote
    in the text the apostrophes stay and are escaped. *)
Example repr_apostrophe :
  py_repr "it's" = String double_quote ("it's" ++ String double_quote EmptyString).
Proof. reflexivity. Qed.

Example repr_both_quotes :
  py_repr ("a'b" ++ String double_quote "c")
  = "'a\'b" ++ String double_quote "c'".
Proof. reflexivity. Qed.

Example repr_control_characters :
  py_repr ("x" ++ String (ascii_of_nat 9) "y" ++ newline
           ++ String (ascii_of_nat 1) (String (ascii_of_nat 127) (String backslash "z")))
  = "'x\ty\n\x01\x7f\\z'".
Proof. reflexivity. Qed.

(** ** Lists and strings *)

Lemma pop_snoc {A} (l : list A) (x : A) : pop (l ++ [x]) = Some (l, x).
Proof. unfold pop. by rewrite reverse_snoc, reverse_involutive. Qed.

Lemma pop_nil {A} : pop (@nil A) = None.
Proof. reflexivity. Qed.

Lemma pop_Some {A} (l l' : list A) (x : A) : pop l = Some (l', x) → l = (l' ++ [x])%list.
Proof.
  unfold pop. destruct (reverse l) as [|y r] eqn:E; [done|].
  intros [= <- <-]. apply (f_equal reverse) in E.
  by rewrite reverse_involutive, reverse_cons in E.
Qed.

Lemma pop_None {A} (l : list A) : pop l = None → l = [].
Proof.
  unfold pop. destruct (reverse l) as [|y r] eqn:E; [|done].
  intros _. apply (f_equal reverse) in E. by rewrite reverse_involutive in E.
Qed.

Lemma filter_all {A} (P : A → Prop) `{!∀ x, Decision (P x)} (l : list A) :
  Forall P l → filter P l = l.
Proof.
  induction 1 as [|x l Hx _ IH]; [done|].
  rewrite filter_cons_True by done. by rewrite IH.
Qed.

Lemma filter_none {A} (P : A → Prop) `{!∀ x, Decision (P x)} (l : list A) :
  Forall (λ x, ¬ P x) l → filter P l = [].
Proof.
  induction 1 as [|x l Hx _ IH]; [done|].
  by rewrite filter_cons_False.
Qed.

Lemma list_ascii_of_string_app (a b : string) :
  list_ascii_of_string (a ++ b) = (list_ascii_of_string a ++ list_ascii_of_string b)%list.
Proof. induction a as [|c a IH]; simpl; [done|]. by rewrite IH. Qed.

Lemma list_ascii_of_string_inj (a b : string) :
  list_ascii_of_string a = list_ascii_of_string b → a = b.
Proof.
  intros H. rewrite <-(string_of_list_ascii_of_string a), <-(string_of_list_ascii_of_string b).
  by rewrite H.
Qed.

(** [s ++ t] determines [s] once [t] is known. *)
Lemma string_app_inv_tail (a b t : string) : a ++ t = b ++ t → a = b.
Proof.
  intros H. apply list_ascii_of_string_inj.
  apply (f_equal list_ascii_of_string) in H.
  rewrite !list_ascii_of_string_app in H. by apply app_inv_tail in H.
Qed.

Lemma string_app_inv_head (s a b : string) : s ++ a = s ++ b → a = b.
Proof. apply String.app_inj. Qed.

(** ** Fingerprints *)

Arguments hashlib.sha256_hexdigest : simpl never.

Lemma compute_hash_input (c : ProposedChange.t) :
  ProposedChange.compute_hash c
  = substring 0 16 (hashlib.sha256_hexdigest
      (hash_input (ProposedChange.canvas_type c) (ProposedChange.field c)
                  (ProposedChange.action c) (ProposedChange.new_value c))).
Proof. reflexivity. Qed.

Lemma construct_change_hash uuid ct f a ov nv r :
  ProposedChange.change_hash (ProposedChange.construct uuid ct f a ov nv r)
  = substring 0 16 (hashlib.sha256_hexdigest (hash_input ct f a nv)).
Proof. reflexivity. Qed.

(** A digest prints as 64 hex digits, so its first 16 are never the empty
    string. *)
Lemma compute_hash_nonempty (c : ProposedChange.t) :
  ProposedChange.compute_hash c ≠ EmptyString.
Proof.
  rewrite compute_hash_input. unfold hashlib.sha256_hexdigest.
  set (h := hashlib.digest_blocks _ _ _). clearbody h.
  destruct h; discriminate.
Qed.

Lemma construct_change_hash_nonempty uuid ct f a ov nv r :
  ProposedChange.change_hash (ProposedChange.construct uuid ct f a ov nv r) ≠ EmptyString.
Proof.
  rewrite construct_change_hash.
  apply (compute_hash_nonempty (ProposedChange.make uuid ct f a ov nv r EmptyString)).
Qed.

(** Building a [ProposedChange] back from a stored [change_dict] keeps the
    hash it carries. *)
Lemma model_post_init_hashed (c : ProposedChange.t) :
  ProposedChange.change_hash c ≠ EmptyString → ProposedChange.model_post_init c = c.
Proof.
  intros H. unfold ProposedChange.model_post_init.
  by destruct (String.eqb_spec (ProposedChange.change_hash c) EmptyString).
Qed.

Lemma canvas_type_value_inj (x y : CanvasType.t) :
  CanvasType.value x = CanvasType.value y → x = y.
Proof. by destruct x, y. Qed.

Lemma change_action_value_inj (x y : ChangeAction.t) :
  ChangeAction.value x = ChangeAction.value y → x = y.
Proof. by destruct x, y. Qed.

Lemma hash_input_canvas_type ct1 ct2 f a nv :
  hash_input ct1 f a nv = hash_input ct2 f a nv → ct1 = ct2.
Proof.
  unfold hash_input. intros H.
  by apply string_app_inv_tail, canvas_type_value_inj in H.
Qed.

Lemma hash_input_field ct f1 f2 a nv :
  hash_input ct f1 a nv = hash_input ct f2 a nv → f1 = f2.
Proof.
  unfold hash_input. intros H.
  do 2 apply string_app_inv_head in H.
  by apply string_app_inv_tail in H.
Qed.

Lemma hash_input_action ct f a1 a2 nv :
  hash_input ct f a1 nv = hash_input ct f a2 nv → a1 = a2.
Proof.
  unfold hash_input. intros H.
  do 4 apply string_app_inv_head in H.
  by apply string_app_inv_tail, change_action_value_inj in H.
Qed.

Lemma hash_input_new_value ct f a nv1 nv2 :
  hash_input ct f a nv1 = hash_input ct f a nv2 →
  or_str nv1 EmptyString = or_str nv2 EmptyString.
Proof.
  unfold hash_input. intros H.
  by do 6 apply string_app_inv_head in H.
Qed.

(** ** Canvases and snapshots *)

Lemma canvases_restore ct snapshot s :
  canvases (restore ct snapshot s) = put ct snapshot (canvases s).
Proof. by destruct ct, snapshot. Qed.

Lemma put_snapshot_of ct c : put ct (snapshot_of ct c) c = c.
Proof. by destruct ct, c. Qed.

Lemma snapshot_of_put ct snapshot c :
  shape snapshot = ct → snapshot_of ct (put ct snapshot c) = snapshot.
Proof. intros <-. by destruct snapshot. Qed.

Lemma put_put ct snapshot1 snapshot2 c :
  shape snapshot2 = ct → put ct snapshot2 (put ct snapshot1 c) = put ct snapshot2 c.
Proof. intros <-. by destruct snapshot2, snapshot1. Qed.

Lemma shape_snapshot_of ct c : shape (snapshot_of ct c) = ct.
Proof. by destruct ct. Qed.

(** Restoring a snapshot touches the canvases only. *)
Lemma restore_bookkeeping ct snapshot s :
  versions (restore ct snapshot s) = versions s
  ∧ pending_changes (restore ct snapshot s) = pending_changes s
  ∧ rejected_changes (restore ct snapshot s) = rejected_changes s
  ∧ undo_stack (restore ct snapshot s) = undo_stack s
  ∧ redo_stack (restore ct snapshot s) = redo_stack s
  ∧ auto_mode (restore ct snapshot s) = auto_mode s
  ∧ action_log (restore ct snapshot s) = action_log s.
Proof. by destruct ct, snapshot. Qed.

(** Two states with the same ten components are the same state. *)
Lemma state_eq (s t : State) :
  canvases s = canvases t → versions s = versions t →
  pending_changes s = pending_changes t → rejected_changes s = rejected_changes t →
  undo_stack s = undo_stack t → redo_stack s = redo_stack t →
  auto_mode s = auto_mode t → action_log s = action_log t → s = t.
Proof.
  destruct s, t. unfold canvases. simpl.
  intros [= -> -> ->] -> -> -> -> -> -> ->. reflexivity.
Qed.

(** ** What one apply does *)

(** A successful apply: the version it records, and where it goes. *)
Lemma apply_applied s change fresh s' change' :
  _apply_single_change s change fresh = (s', Return (Applied change')) →
  change' = change ∧
  ∃ v,
    CanvasVersion.change_hash v = ProposedChange.change_hash change
    ∧ CanvasVersion.canvas_type v = ProposedChange.canvas_type change
    ∧ CanvasVersion.snapshot_before v
      = snapshot_of (ProposedChange.canvas_type change) (canvases s)
    ∧ CanvasVersion.snapshot_after v
      = snapshot_of (ProposedChange.canvas_type change) (canvases s')
    ∧ canvases s'
      = put (ProposedChange.canvas_type change) (CanvasVersion.snapshot_after v) (canvases s)
    ∧ versions s' = (versions s ++ [v])%list
    ∧ undo_stack s' = (undo_stack s ++ [v])%list
    ∧ redo_stack s' = []
    ∧ pending_changes s' = pending_changes s
    ∧ rejected_changes s' = rejected_changes s
    ∧ auto_mode s' = auto_mode s
    ∧ action_log s' = action_log s.
Proof.
  unfold _apply_single_change.
  destruct (ProposedChange.canvas_type change) eqn:Hct.
  - destruct (bmc s !! ProposedChange.field change) as [entries|]; [|done].
    intros [= <- <-]. split; [done|].
    exists (new_version s change (BMCSnapshot (bmc s))
              (BMCSnapshot (apply_bmc (bmc s) (ProposedChange.field change) entries change))
              fresh).
    simpl. by rewrite Hct.
  - destruct (vpc s !! ProposedChange.field change) as [items|]; [|done].
    intros [= <- <-]. split; [done|].
    exists (new_version s change (VPCSnapshot (vpc s))
              (VPCSnapshot (apply_vpc (vpc s) (ProposedChange.field change) items change))
              fresh).
    simpl. by rewrite Hct.
  - destruct (apply_segments (segments s) change fresh) as [[segs|]|e]; [|done|done].
    intros [= <- <-]. split; [done|].
    exists (new_version s change (SegmentsSnapshot (segments s)) (SegmentsSnapshot segs) fresh).
    simpl. by rewrite Hct.
Qed.

(** Every other way out of an apply -- a report other than [Applied], or an
    exception -- leaves the whole state as it was: the code validates before
    it assigns. *)
Lemma apply_not_applied s change fresh s' o :
  _apply_single_change s change fresh = (s', o) →
  (∀ c, o ≠ Return (Applied c)) → s' = s.
Proof.
  unfold _apply_single_change. intros H Hno.
  destruct (ProposedChange.canvas_type change).
  - destruct (bmc s !! ProposedChange.field change); simplify_eq; [|done].
    by destruct (Hno change).
  - destruct (vpc s !! ProposedChange.field change); simplify_eq; [|done].
    by destruct (Hno change).
  - destruct (apply_segments (segments s) change fresh) as [[segs|]|e]; simplify_eq; [|done|done].
    by destruct (Hno change).
Qed.

(** An apply reports [Applied], [InvalidField], [SegmentNotFound], or raises. *)
Lemma apply_outcomes s change fresh :
  (∃ s', _apply_single_change s change fresh = (s', Return (Applied change)))
  ∨ (∃ o, _apply_single_change s change fresh = (s, o)
          ∧ ∀ c, o ≠ Return (Applied c)).
Proof.
  destruct (_apply_single_change s change fresh) as [s' o] eqn:E.
  destruct o as [[f|f|ov|c]|e];
    try (right;
         assert (s' = s) as -> by (eapply apply_not_applied; [exact E|done]);
         eexists; split; [reflexivity|done]).
  left. destruct (apply_applied _ _ _ _ _ E) as [-> _]. by exists s'.
Qed.

(** ** What undo and redo do *)

Lemma undo_step s U v :
  undo_stack s = (U ++ [v])%list →
  undo_last_change s
  = (restore (CanvasVersion.canvas_type v) (CanvasVersion.snapshot_before v)
       (set_versions
          (filter (λ w, CanvasVersion.change_hash w ≠ CanvasVersion.change_hash v)
                  (versions s))
          (set_redo_stack (redo_stack s ++ [v])%list (set_undo_stack U s))),
     Undone (CanvasVersion.change_description v)).
Proof. intros H. unfold undo_last_change. by rewrite H, pop_snoc. Qed.

Lemma undo_empty s : undo_stack s = [] → undo_last_change s = (s, NothingToUndo).
Proof. intros H. unfold undo_last_change. by rewrite H. Qed.

Lemma redo_step s R v :
  redo_stack s = (R ++ [v])%list →
  redo_change s
  = (restore (CanvasVersion.canvas_type v) (CanvasVersion.snapshot_after v)
       (if bool_decide (CanvasVersion.change_hash v ∈ existing_hashes s)
        then set_undo_stack (undo_stack s ++ [v])%list (set_redo_stack R s)
        else set_versions (versions s ++ [v])%list
               (set_undo_stack (undo_stack s ++ [v])%list (set_redo_stack R s))),
     Redone (CanvasVersion.change_description v)).
Proof.
  intros H. unfold redo_change. rewrite H, pop_snoc.
  unfold existing_hashes. simpl. by case_bool_decide.
Qed.

Lemma redo_empty s : redo_stack s = [] → redo_change s = (s, NothingToRedo).
Proof. intros H. unfold redo_change. by rewrite H. Qed.

(** Undo removes the undone entry's fingerprint from the version log,
    whatever the log holds. *)
Lemma undo_reopens_hash s U v :
  undo_stack s = (U ++ [v])%list →
  CanvasVersion.change_hash v ∉ existing_hashes (undo_last_change s).1.
Proof.
  intros H. rewrite (undo_step _ _ _ H). simpl.
  unfold existing_hashes.
  destruct (restore_bookkeeping (CanvasVersion.canvas_type v)
              (CanvasVersion.snapshot_before v)
              (set_versions
                 (filter (λ w, CanvasVersion.change_hash w ≠ CanvasVersion.change_hash v)
                         (versions s))
                 (set_redo_stack (redo_stack s ++ [v])%list (set_undo_stack U s))))
    as (-> & _).
  simpl. intros (w & Hw & Hin)%list_elem_of_fmap.
  apply list_elem_of_filter in Hin as [Hne _]. by apply Hne.
Qed.

(** ** The invariant *)

Lemma store_inv_seed uuid1 uuid2 : store_inv (get_canvas_state uuid1 uuid2).
Proof. split; simpl; try done. constructor. Qed.

(** The invariant reads the canvases, the log, the two stacks and the
    pending queue, and nothing else. *)
Lemma store_inv_ext s t :
  store_inv s →
  canvases t = canvases s → versions t = versions s →
  undo_stack t = undo_stack s → redo_stack t = redo_stack s →
  Forall (λ c, ProposedChange.change_hash c ≠ EmptyString) (pending_changes t) →
  store_inv t.
Proof.
  intros [I1 I2 I3 I4 I5] Hc Hv Hu Hr Hp.
  split; rewrite ?Hc, ?Hv, ?Hu, ?Hr; done.
Qed.

Lemma hashes_undo_of_inv s :
  store_inv s → NoDup (CanvasVersion.change_hash <$> undo_stack s).
Proof.
  intros [_ I2 _ _ _]. rewrite fmap_app in I2. by apply NoDup_app in I2 as (? & _ & _).
Qed.

Lemma store_inv_apply s change fresh s' o :
  store_inv s →
  ProposedChange.change_hash change ∉ existing_hashes s →
  _apply_single_change s change fresh = (s', o) →
  store_inv s'.
Proof.
  intros Hinv Hfresh E.
  destruct (apply_outcomes s change fresh) as [[s'' E']|(o' & E' & _)];
    rewrite E' in E; simplify_eq; [|done].
  destruct (apply_applied _ _ _ _ _ E')
    as (_ & v & Hh & Hct & Hb & Ha & Hc & Hv & Hu & Hr & Hp & _).
  pose proof Hinv as [I1 I2 I3 I4 I5].
  split.
  - by rewrite Hv, Hu, I1.
  - rewrite Hu, Hr, app_nil_r, fmap_app. apply NoDup_app. split; [|split].
    + by apply hashes_undo_of_inv.
    + intros h Hin [->|[]%elem_of_nil]%elem_of_cons. apply Hfresh.
      unfold existing_hashes. by rewrite I1, <-Hh.
    + apply NoDup_singleton.
  - rewrite Hu, reverse_snoc. simpl. rewrite Hct. split; [by rewrite Ha|]. split.
    + rewrite Hb. apply shape_snapshot_of.
    + rewrite Hc, put_put by (rewrite Hb; apply shape_snapshot_of).
      by rewrite Hb, put_snapshot_of.
  - by rewrite Hr.
  - by rewrite Hp.
Qed.

Lemma store_inv_undo s : store_inv s → store_inv (undo_last_change s).1.
Proof.
  intros Hinv. destruct (pop (undo_stack s)) as [[U v]|] eqn:Hpop.
  2: { apply pop_None in Hpop. by rewrite (undo_empty _ Hpop). }
  apply pop_Some in Hpop. rewrite (undo_step _ _ _ Hpop). simpl.
  pose proof Hinv as [I1 I2 I3 I4 I5].
  rewrite Hpop, reverse_snoc in I3. simpl in I3. destruct I3 as (Hafter & Hshape & Hbelow).
  set (t := set_versions _ _).
  destruct (restore_bookkeeping (CanvasVersion.canvas_type v)
              (CanvasVersion.snapshot_before v) t) as (Hv & Hp & _ & Hu & Hr & _).
  assert (Hdistinct : CanvasVersion.change_hash v ∉ CanvasVersion.change_hash <$> U).
  { pose proof (hashes_undo_of_inv _ Hinv) as Hnd.
    rewrite Hpop, fmap_app in Hnd. apply NoDup_app in Hnd as (_ & Hnd & _).
    intros Hin. apply (Hnd _ Hin). simpl. apply list_elem_of_here. }
  split.
  - rewrite Hv, Hu. unfold t. simpl. rewrite I1, Hpop, filter_app.
    rewrite filter_all, filter_none, app_nil_r; [done| |].
    + constructor; [|constructor]. by intros [].
    + apply Forall_forall. intros w Hw Heq. apply Hdistinct.
      rewrite <-Heq. by apply list_elem_of_fmap_2.
  - rewrite Hu, Hr. unfold t. simpl.
    rewrite Hpop in I2.
    assert (Hperm : (U ++ redo_stack s ++ [v])%list ≡ₚ ((U ++ [v]) ++ redo_stack s)%list).
    { rewrite <-app_assoc. apply Permutation_app_head, Permutation_app_comm. }
    by rewrite Hperm.
  - rewrite canvases_restore, Hu. unfold t. simpl. exact Hbelow.
  - rewrite canvases_restore, Hr. unfold t. simpl. rewrite reverse_snoc. simpl.
    split; [by apply snapshot_of_put|]. split.
    + rewrite <-Hafter. apply shape_snapshot_of.
    + rewrite put_put by (rewrite <-Hafter; apply shape_snapshot_of).
      by rewrite <-Hafter, put_snapshot_of.
  - by rewrite Hp.
Qed.

Lemma store_inv_redo s : store_inv s → store_inv (redo_change s).1.
Proof.
  intros Hinv. destruct (pop (redo_stack s)) as [[R v]|] eqn:Hpop.
  2: { apply pop_None in Hpop. by rewrite (redo_empty _ Hpop). }
  apply pop_Some in Hpop. rewrite (redo_step _ _ _ Hpop). simpl.
  pose proof Hinv as [I1 I2 I3 I4 I5].
  rewrite Hpop, reverse_snoc in I4. simpl in I4. destruct I4 as (Hbefore & Hshape & Hbelow).
  assert (Hdistinct : CanvasVersion.change_hash v ∉ existing_hashes s).
  { unfold existing_hashes. rewrite I1. rewrite Hpop, fmap_app in I2.
    apply NoDup_app in I2 as (_ & Hnd & _). intros Hin. apply (Hnd _ Hin).
    rewrite fmap_app. apply elem_of_app. right. apply list_elem_of_here. }
  rewrite bool_decide_eq_false_2 by done.
  set (t := set_versions _ _).
  destruct (restore_bookkeeping (CanvasVersion.canvas_type v)
              (CanvasVersion.snapshot_after v) t) as (Hv & Hp & _ & Hu & Hr & _).
  split.
  - rewrite Hv, Hu. unfold t. simpl. by rewrite I1.
  - rewrite Hu, Hr. unfold t. simpl. rewrite Hpop in I2.
    assert (Hperm : ((undo_stack s ++ [v]) ++ R)%list ≡ₚ (undo_stack s ++ R ++ [v])%list).
    { rewrite <-app_assoc. apply Permutation_app_head, Permutation_app_comm. }
    by rewrite Hperm.
  - rewrite canvases_restore, Hu. unfold t. simpl. rewrite reverse_snoc. simpl.
    split; [by apply snapshot_of_put|]. split.
    + rewrite <-Hbefore. apply shape_snapshot_of.
    + rewrite put_put by (rewrite <-Hbefore; apply shape_snapshot_of).
      by rewrite <-Hbefore, put_snapshot_of.
  - rewrite canvases_restore, Hr. unfold t. simpl. exact Hbelow.
  - by rewrite Hp.
Qed.

Lemma find_change_Some pending cid c :
  find_change pending cid = Some c → c ∈ pending ∧ ProposedChange.id c = cid.
Proof.
  unfold find_change. intros [Hin Heq]%find_some.
  split; [by apply list_elem_of_In|]. by apply String.eqb_eq.
Qed.

Lemma find_change_None pending cid :
  find_change pending cid = None → cid ∉ ProposedChange.id <$> pending.
Proof.
  unfold find_change. intros Hnone (c & -> & Hin)%list_elem_of_fmap.
  apply list_elem_of_In in Hin.
  pose proof (find_none _ _ Hnone _ Hin) as Hne. simpl in Hne.
  by rewrite String.eqb_refl in Hne.
Qed.

Lemma store_inv_propose s ct f a nv ov r uuid fresh :
  store_inv s → store_inv (propose_canvas_update s ct f a nv ov r uuid fresh).1.
Proof.
  intros Hinv. unfold propose_canvas_update.
  destruct (CanvasType.parse ct) as [ct'|]; [|done].
  destruct (ChangeAction.parse a) as [a'|]; [|done].
  case_bool_decide as Hdup; [done|].
  destruct (auto_mode s).
  - destruct (_apply_single_change _ _ _) as [s' [res|e]] eqn:E; simpl;
      by eapply store_inv_apply.
  - simpl. eapply store_inv_ext; [exact Hinv|done..|]. simpl.
    apply Forall_app. split; [apply Hinv|].
    constructor; [apply construct_change_hash_nonempty|constructor].
Qed.

Lemma store_inv_apply_loop pending fresh ids :
  Forall (λ c, ProposedChange.change_hash c ≠ EmptyString) pending →
  ∀ i s results, store_inv s → store_inv (apply_loop pending fresh i ids s results).1.
Proof.
  intros Hpending. induction ids as [|cid ids IH]; intros i s results Hinv; simpl; [done|].
  destruct (find_change pending cid) as [c|] eqn:Hfind; [|by apply IH].
  case_bool_decide as Hdup; [by apply IH|].
  apply find_change_Some in Hfind as [Hin _].
  rewrite Forall_forall in Hpending. specialize (Hpending _ Hin).
  rewrite (model_post_init_hashed _ Hpending).
  destruct (_apply_single_change s c (fresh i)) as [s' [res|e]] eqn:E.
  - apply IH. by eapply store_inv_apply.
  - simpl. by eapply store_inv_apply.
Qed.

(** The loop never writes to the pending queue. *)
Lemma apply_loop_pending pending fresh ids :
  ∀ i s results,
    pending_changes (apply_loop pending fresh i ids s results).1 = pending_changes s.
Proof.
  induction ids as [|cid ids IH]; intros i s results; simpl; [done|].
  destruct (find_change pending cid) as [c|]; [|by apply IH].
  case_bool_decide; [by apply IH|].
  destruct (_apply_single_change s _ (fresh i)) as [s' o] eqn:E.
  assert (pending_changes s' = pending_changes s) as Hs'.
  { destruct (apply_outcomes s (ProposedChange.model_post_init c) (fresh i))
      as [[s'' E']|(o' & E' & _)]; rewrite E' in E; simplify_eq; [|done].
    by destruct (apply_applied _ _ _ _ _ E') as (_ & v & _ & _ & _ & _ & _ & _ & _ & _ & ? & _). }
  destruct o as [res|e]; [|done]. by rewrite IH.
Qed.

Lemma store_inv_apply_proposed_changes s ids fresh :
  store_inv s → store_inv (apply_proposed_changes s ids fresh).1.
Proof.
  intros Hinv. unfold apply_proposed_changes.
  pose proof (store_inv_apply_loop (pending_changes s) fresh (batch_ids s ids)
                (inv_pending_hashed _ Hinv) 0 s [] Hinv) as Hloop.
  destruct (apply_loop _ _ _ _ _ _) as [s' [results|e]]; simpl in *; [|done].
  eapply store_inv_ext; [exact Hloop|done..|]. simpl.
  eapply Forall_forall. intros c [_ Hin]%list_elem_of_filter.
  pose proof (inv_pending_hashed _ Hinv) as Hp. rewrite Forall_forall in Hp. by apply Hp.
Qed.

Lemma store_inv_reject s cid : store_inv s → store_inv (reject_change s cid).1.
Proof.
  intros Hinv. unfold reject_change.
  assert (Forall (λ c, ProposedChange.change_hash c ≠ EmptyString)
            (filter (λ c, ProposedChange.id c ≠ cid) (pending_changes s))) as Hfilter.
  { eapply Forall_forall. intros c [_ Hin]%list_elem_of_filter.
    pose proof (inv_pending_hashed _ Hinv) as Hp. rewrite Forall_forall in Hp. by apply Hp. }
  destruct (String.eqb cid EmptyString); [done|]. simpl.
  destruct (Nat.eqb _ _); [by eapply store_inv_ext|].
  destruct (find_change _ _); by eapply store_inv_ext.
Qed.

Lemma store_inv_step s op : store_inv s → store_inv (step s op).
Proof.
  intros Hinv. destruct op; simpl.
  - by apply store_inv_propose.
  - by apply store_inv_apply_proposed_changes.
  - by apply store_inv_undo.
  - by apply store_inv_redo.
  - eapply store_inv_ext; [exact Hinv|done..|apply Hinv].
  - by apply store_inv_reject.
  - eapply store_inv_ext; [exact Hinv|done..|apply Hinv].
Qed.

Lemma store_inv_run ops : ∀ s, store_inv s → store_inv (run ops s).
Proof.
  unfold run. induction ops as [|op ops IH]; intros s Hinv; simpl; [done|].
  by apply IH, store_inv_step.
Qed.

Lemma store_inv_reachable s : reachable s → store_inv s.
Proof. intros (uuid1 & uuid2 & ops & ->). apply store_inv_run, store_inv_seed. Qed.

(** ** Undo followed by redo *)

Lemma undo_fields s U v :
  undo_stack s = (U ++ [v])%list →
  canvases (undo_last_change s).1
  = put (CanvasVersion.canvas_type v) (CanvasVersion.snapshot_before v) (canvases s)
  ∧ versions (undo_last_change s).1
    = filter (λ w, CanvasVersion.change_hash w ≠ CanvasVersion.change_hash v) (versions s)
  ∧ pending_changes (undo_last_change s).1 = pending_changes s
  ∧ rejected_changes (undo_last_change s).1 = rejected_changes s
  ∧ undo_stack (undo_last_change s).1 = U
  ∧ redo_stack (undo_last_change s).1 = (redo_stack s ++ [v])%list
  ∧ auto_mode (undo_last_change s).1 = auto_mode s
  ∧ action_log (undo_last_change s).1 = action_log s.
Proof.
  intros H. rewrite (undo_step _ _ _ H). simpl. rewrite canvases_restore.
  set (t := set_versions _ _).
  destruct (restore_bookkeeping (CanvasVersion.canvas_type v)
              (CanvasVersion.snapshot_before v) t) as (-> & -> & -> & -> & -> & -> & ->).
  done.
Qed.

Lemma redo_fields s R v :
  redo_stack s = (R ++ [v])%list →
  CanvasVersion.change_hash v ∉ existing_hashes s →
  canvases (redo_change s).1
  = put (CanvasVersion.canvas_type v) (CanvasVersion.snapshot_after v) (canvases s)
  ∧ versions (redo_change s).1 = (versions s ++ [v])%list
  ∧ pending_changes (redo_change s).1 = pending_changes s
  ∧ rejected_changes (redo_change s).1 = rejected_changes s
  ∧ undo_stack (redo_change s).1 = (undo_stack s ++ [v])%list
  ∧ redo_stack (redo_change s).1 = R
  ∧ auto_mode (redo_change s).1 = auto_mode s
  ∧ action_log (redo_change s).1 = action_log s.
Proof.
  intros H Hnew. rewrite (redo_step _ _ _ H). simpl.
  rewrite bool_decide_eq_false_2 by done.
  rewrite canvases_restore.
  set (t := set_versions _ _).
  destruct (restore_bookkeeping (CanvasVersion.canvas_type v)
              (CanvasVersion.snapshot_after v) t) as (-> & -> & -> & -> & -> & -> & ->).
  done.
Qed.

(** In a reachable state the log is the undo stack, so filtering out the top
    entry's fingerprint removes exactly that entry. *)
Lemma undo_versions s U v :
  store_inv s → undo_stack s = (U ++ [v])%list →
  versions (undo_last_change s).1 = U
  ∧ CanvasVersion.change_hash v ∉ CanvasVersion.change_hash <$> U.
Proof.
  intros Hinv H.
  pose proof (store_inv_undo _ Hinv) as [I1' _ _ _ _].
  destruct (undo_fields _ _ _ H) as (_ & _ & _ & _ & Hu & _).
  rewrite I1', Hu. split; [done|].
  pose proof (hashes_undo_of_inv _ Hinv) as Hnd.
  rewrite H, fmap_app in Hnd. apply NoDup_app in Hnd as (_ & Hnd & _).
  intros Hin. apply (Hnd _ Hin). apply list_elem_of_here.
Qed.

(** One undo followed by one redo gives back the state, all of it. *)
Lemma redo_undo_id s :
  store_inv s → undo_stack s ≠ [] →
  (redo_change (undo_last_change s).1).1 = s.
Proof.
  intros Hinv Hne.
  destruct (pop (undo_stack s)) as [[U v]|] eqn:Hpop; [|by apply pop_None in Hpop].
  apply pop_Some in Hpop.
  destruct (undo_fields _ _ _ Hpop) as (Hc & _ & Hp & Hrej & Hu & Hr & Ha & Hl).
  destruct (undo_versions _ _ _ Hinv Hpop) as [Hv Hdistinct].
  assert (CanvasVersion.change_hash v ∉ existing_hashes (undo_last_change s).1) as Hnew.
  { unfold existing_hashes. by rewrite Hv. }
  destruct (redo_fields _ _ _ Hr Hnew) as (Hc' & Hv' & Hp' & Hrej' & Hu' & Hr' & Ha' & Hl').
  pose proof Hinv as [I1 _ I3 _ _].
  rewrite Hpop, reverse_snoc in I3. simpl in I3. destruct I3 as (Hafter & Hshape & _).
  apply state_eq.
  - rewrite Hc', Hc, put_put by (rewrite <-Hafter; apply shape_snapshot_of).
    by rewrite <-Hafter, put_snapshot_of.
  - by rewrite Hv', Hv, I1.
  - by rewrite Hp'.
  - by rewrite Hrej'.
  - by rewrite Hu', Hu.
  - by rewrite Hr'.
  - by rewrite Ha'.
  - by rewrite Hl'.
Qed.

Lemma undo_n_succ n s : undo_n (S n) s = undo_n n (undo_last_change s).1.
Proof. unfold undo_n. by rewrite Nat.iter_succ_r. Qed.

Lemma undo_stack_length_undo s :
  length (undo_stack (undo_last_change s).1) = pred (length (undo_stack s)).
Proof.
  destruct (pop (undo_stack s)) as [[U v]|] eqn:Hpop.
  - apply pop_Some in Hpop.
    destruct (undo_fields _ _ _ Hpop) as (_ & _ & _ & _ & -> & _).
    rewrite Hpop, length_app. simpl. lia.
  - apply pop_None in Hpop. rewrite (undo_empty _ Hpop). simpl. by rewrite Hpop.
Qed.

(** [n] undos followed by [n] redos give back the state, as long as the undo
    stack holds [n] entries. *)
Lemma redo_n_undo_n n :
  ∀ s, store_inv s → (n ≤ length (undo_stack s))%nat → redo_n n (undo_n n s) = s.
Proof.
  induction n as [|n IH]; intros s Hinv Hlen; [done|].
  rewrite undo_n_succ. unfold redo_n. simpl. fold (redo_n n (undo_n n (undo_last_change s).1)).
  rewrite IH.
  - apply redo_undo_id; [done|]. intros E. rewrite E in Hlen. simpl in Hlen. lia.
  - by apply store_inv_undo.
  - rewrite undo_stack_length_undo. lia.
Qed.

(** Each successful apply puts one entry on the undo stack, so after [n] of
    them the stack holds at least [n]. *)
Lemma applied_pushes_one s change fresh s' c :
  _apply_single_change s change fresh = (s', Return (Applied c)) →
  length (undo_stack s') = S (length (undo_stack s)).
Proof.
  intros E. destruct (apply_applied _ _ _ _ _ E)
    as (_ & v & _ & _ & _ & _ & _ & _ & -> & _).
  rewrite length_app. simpl. lia.
Qed.

(** ** Claims about the version log and the undo/redo stacks *)

Lemma canvas_type_parse_value ct : CanvasType.parse (CanvasType.value ct) = Return ct.
Proof. by destruct ct. Qed.

Lemma change_action_parse_value a : ChangeAction.parse (ChangeAction.value a) = Return a.
Proof. by destruct a. Qed.

(** A proposal whose fingerprint is in the log is skipped: nothing changes. *)
Lemma propose_duplicate s ct f a nv ov r uuid fresh :
  ProposedChange.change_hash (ProposedChange.construct uuid ct f a ov nv r)
    ∈ existing_hashes s →
  propose_canvas_update s (CanvasType.value ct) f (ChangeAction.value a) nv ov r uuid fresh
  = (s, Return (DuplicateSkipped
                  (ProposedChange.change_hash
                     (ProposedChange.construct uuid ct f a ov nv r)))).
Proof.
  intros Hin. unfold propose_canvas_update.
  rewrite canvas_type_parse_value, change_action_parse_value.
  by rewrite bool_decide_eq_true_2.
Qed.

(** A proposal whose fingerprint is not in the log is never reported as a
    duplicate. *)
Lemma propose_fresh s ct f a nv ov r uuid fresh :
  ProposedChange.change_hash (ProposedChange.construct uuid ct f a ov nv r)
    ∉ existing_hashes s →
  propose_canvas_update s (CanvasType.value ct) f (ChangeAction.value a) nv ov r uuid fresh
  = if auto_mode s then
      match _apply_single_change s (ProposedChange.construct uuid ct f a ov nv r) fresh with
      | (s', Return result) => (s', Return (AutoApplied result))
      | (s', Raise e) => (s', Raise e)
      end
    else
      (set_pending_changes
         (pending_changes s ++ [ProposedChange.construct uuid ct f a ov nv r])%list s,
       Return (WaitingForApproval (ProposedChange.construct uuid ct f a ov nv r))).
Proof.
  intros Hin. unfold propose_canvas_update.
  rewrite canvas_type_parse_value, change_action_parse_value.
  by rewrite bool_decide_eq_false_2.
Qed.

(** C1. In every thread state reached from the seeded state by any sequence
    of calls (propose, applyApproved, undo, redo, and also reject, the auto
    mode switch and the action log), no two entries of the version log carry
    the same fingerprint.  The guards that keep it so: a proposal whose
    fingerprint is in the log returns "duplicate, skipped" and changes
    nothing; the batch loop reports "already applied" for a pending change
    whose fingerprint is in the log and goes on to the next id without
    applying it; redo appends the entry to the log only if its fingerprint is
    not there. *)
Theorem version_log_fingerprints_distinct :
  (∀ uuid1 uuid2 ops, NoDup (existing_hashes (run ops (get_canvas_state uuid1 uuid2))))
  ∧ (∀ s ct f a nv ov r uuid fresh,
       ProposedChange.change_hash (ProposedChange.construct uuid ct f a ov nv r)
         ∈ existing_hashes s →
       propose_canvas_update s (CanvasType.value ct) f (ChangeAction.value a)
                             nv ov r uuid fresh
       = (s, Return (DuplicateSkipped
                       (ProposedChange.change_hash
                          (ProposedChange.construct uuid ct f a ov nv r)))))
  ∧ (∀ pending fresh i cid rest s results c,
       find_change pending cid = Some c →
       ProposedChange.change_hash c ∈ existing_hashes s →
       apply_loop pending fresh i (cid :: rest) s results
       = apply_loop pending fresh (S i) rest s (results ++ [AlreadyApplied cid])%list)
  ∧ (∀ s R v,
       redo_stack s = (R ++ [v])%list →
       versions (redo_change s).1
       = if bool_decide (CanvasVersion.change_hash v ∈ existing_hashes s)
         then versions s else (versions s ++ [v])%list).
Proof.
  split; [|split; [|split]].
  - intros uuid1 uuid2 ops.
    pose proof (store_inv_run ops _ (store_inv_seed uuid1 uuid2)) as Hinv.
    unfold existing_hashes. rewrite (inv_log_is_undo_stack _ Hinv).
    by apply hashes_undo_of_inv.
  - intros. by apply propose_duplicate.
  - intros pending fresh i cid rest s results c Hfind Hin. simpl.
    by rewrite Hfind, bool_decide_eq_true_2.
  - intros s R v H. rewrite (redo_step _ _ _ H). simpl.
    set (t := if bool_decide _ then _ else _).
    destruct (restore_bookkeeping (CanvasVersion.canvas_type v)
                (CanvasVersion.snapshot_after v) t) as (-> & _).
    unfold t. by case_bool_decide.
Qed.

(** A run of successful applies keeps the invariant and puts one entry per
    change on the undo stack. *)
Lemma apply_all_inv changes :
  ∀ s s', store_inv s → apply_all s changes = Some s' →
          store_inv s'
          ∧ length (undo_stack s') = (length (undo_stack s) + length changes)%nat.
Proof.
  induction changes as [|[change fresh] changes IH]; intros s s' Hinv; simpl.
  - intros [= <-]. split; [done|lia].
  - case_bool_decide as Hdup; [done|].
    destruct (_apply_single_change s change fresh) as [s1 [[f|f|ov|c]|e]] eqn:E; try done.
    intros Hrest.
    destruct (IH s1 s' (store_inv_apply _ _ _ _ _ Hinv Hdup E) Hrest) as [Hinv' Hlen].
    split; [done|]. rewrite Hlen, (applied_pushes_one _ _ _ _ _ E). lia.
Qed.

(** C2. Start from any state a thread can be in and apply a sequence of
    changes, each apply succeeding; call the result [s].  Undoing as many
    times as there were changes and then redoing as many times gives back
    each canvas as it was in [s], and a version log with the same set of
    fingerprints as in [s]. *)
Theorem undo_redo_round_trip uuid1 uuid2 ops changes s :
  apply_all (run ops (get_canvas_state uuid1 uuid2)) changes = Some s →
  bmc (redo_n (length changes) (undo_n (length changes) s)) = bmc s
  ∧ vpc (redo_n (length changes) (undo_n (length changes) s)) = vpc s
  ∧ segments (redo_n (length changes) (undo_n (length changes) s)) = segments s
  ∧ ∀ h, h ∈ existing_hashes (redo_n (length changes) (undo_n (length changes) s))
         ↔ h ∈ existing_hashes s.
Proof.
  intros Happlied.
  destruct (apply_all_inv changes _ _
              (store_inv_run ops _ (store_inv_seed uuid1 uuid2)) Happlied) as [Hinv Hlen].
  rewrite redo_n_undo_n; [done|done|lia].
Qed.

Lemma undo_redo_round_trip_witness :
  apply_all (run [SetAutoMode true] seeded) two_changes = Some after_two_changes
  ∧ bmc (redo_n 2 (undo_n 2 after_two_changes)) = bmc after_two_changes
  ∧ vpc (redo_n 2 (undo_n 2 after_two_changes)) = vpc after_two_changes
  ∧ segments (redo_n 2 (undo_n 2 after_two_changes)) = segments after_two_changes
  ∧ ∀ h, h ∈ existing_hashes (redo_n 2 (undo_n 2 after_two_changes))
         ↔ h ∈ existing_hashes after_two_changes.
Proof.
  assert (apply_all (run [SetAutoMode true] seeded) two_changes = Some after_two_changes)
    as Happlied.
  { assert (is_Some (apply_all (run [SetAutoMode true] seeded) two_changes)) as [s Hs]
      by (apply (bool_decide_unpack _); vm_compute; exact I).
    unfold after_two_changes, auto_seeded, update_thread_state.
    change (set_auto_mode true seeded) with (run [SetAutoMode true] seeded).
    by rewrite Hs. }
  split; [exact Happlied|].
  exact (undo_redo_round_trip "seg-0001" "seg-0002" [SetAutoMode true] two_changes
           after_two_changes Happlied).
Defined.

(** The two undos of the witness are not idle: they take both entries off the
    log and put the canvases back to the seed. *)
Example two_undos_revert :
  versions (undo_n 2 (run two_applies seeded)) = []
  ∧ bmc (undo_n 2 (run two_applies seeded)) = bmc seeded
  ∧ segments (undo_n 2 (run two_applies seeded)) = segments seeded
  ∧ length (segments (run two_applies seeded)) = 3
  ∧ bmc (run two_applies seeded) !! "key_partners"
    = Some ["Cloud infrastructure providers"; "University incubators"; "Acme Cloud"].
Proof. split_and!; evaluate. Qed.

(** ** Counting fingerprints

    A fingerprint has 16 characters, a field name any number: there are more
    field names than fingerprints. *)

Lemma length_bind_const {A B} (g : A → list B) (size : nat) (l : list A) :
  (∀ x, length (g x) = size) → length (l ≫= g) = (length l * size)%nat.
Proof.
  intros Hg. induction l as [|x l IH]; [done|].
  rewrite bind_cons, length_app, Hg, IH. simpl. lia.
Qed.

Lemma length_strings_of_length alphabet n :
  length (strings_of_length alphabet n) = (length alphabet ^ n)%nat.
Proof.
  induction n as [|n IH]; [done|].
  cbn [strings_of_length]. rewrite (length_bind_const _ (length alphabet ^ n)).
  - by rewrite Nat.pow_succ_r'.
  - intros c. by rewrite length_fmap.
Qed.

Lemma elem_of_strings_of_length alphabet s :
  (∀ c, c ∈ alphabet) → s ∈ strings_of_length alphabet (String.length s).
Proof.
  intros Hall. induction s as [|c s IH]; [apply list_elem_of_here|].
  cbn [String.length strings_of_length]. apply list_elem_of_bind.
  exists c. split; [|done]. by apply list_elem_of_fmap_2.
Qed.

Lemma NoDup_strings_of_length alphabet n :
  NoDup alphabet → NoDup (strings_of_length alphabet n).
Proof.
  intros Hnd. induction n as [|n IH]; [apply NoDup_singleton|].
  cbn [strings_of_length]. apply NoDup_bind; [|by intros; apply NoDup_fmap_2_strong; [congruence|]|done].
  intros c1 c2 s _ _ (s1 & -> & _)%list_elem_of_fmap (s2 & Heq & _)%list_elem_of_fmap.
  congruence.
Qed.

Lemma length_strings_up_to alphabet n :
  (2 ≤ length alphabet)%nat →
  (length (strings_up_to alphabet n) < 2 * length alphabet ^ n)%nat.
Proof.
  intros Htwo. unfold strings_up_to. induction n as [|n IH]; [simpl; lia|].
  rewrite seq_S, bind_app, length_app, bind_singleton, length_strings_of_length.
  rewrite Nat.add_0_l. rewrite (Nat.pow_succ_r' _ n).
  set (p := (length alphabet ^ n)%nat) in *.
  set (q := (length alphabet ^ S n)%nat) in *.
  assert (q = length alphabet * p)%nat as Hq by apply Nat.pow_succ_r'.
  nia.
Qed.

Lemma elem_of_strings_up_to alphabet n s :
  (∀ c, c ∈ alphabet) → (String.length s ≤ n)%nat → s ∈ strings_up_to alphabet n.
Proof.
  intros Hall Hlen. apply list_elem_of_bind. exists (String.length s). split.
  - by apply elem_of_strings_of_length.
  - apply elem_of_seq. lia.
Qed.

Lemma elem_of_all_ascii c : c ∈ all_ascii.
Proof.
  unfold all_ascii. rewrite <-(ascii_nat_embedding c).
  apply list_elem_of_fmap_2, elem_of_seq. pose proof (nat_ascii_bounded c). lia.
Qed.

Lemma length_all_ascii : length all_ascii = 256.
Proof. unfold all_ascii. by rewrite length_fmap, length_seq. Qed.

Lemma length_substring_le s : ∀ n m, (String.length (substring n m s) ≤ m)%nat.
Proof.
  induction s as [|c s IH]; intros [|n] [|m]; simpl; try lia.
  - specialize (IH 0 m). lia.
  - apply (IH n 0).
  - apply (IH n (S m)).
Qed.

Section collisions.

(** A function from strings to strings of bounded length takes the same value
    on two different strings. *)
Variable f : string → string.
Variable bound : nat.
Hypothesis f_bounded : ∀ s, (String.length (f s) ≤ bound)%nat.

Lemma bounded_collision : ∃ s1 s2, s1 ≠ s2 ∧ f s1 = f s2.
Proof using f_bounded.
  set (domain := strings_of_length ["0"%char; "1"%char] (S (8 * bound))).
  set (range := strings_up_to all_ascii bound).
  destruct (decide (Exists (λ s1, Exists (λ s2, s1 ≠ s2 ∧ f s1 = f s2) domain) domain))
    as [Hsome|Hnone].
  - apply Exists_exists in Hsome as (s1 & _ & Hsome).
    apply Exists_exists in Hsome as (s2 & _ & Hsome). by exists s1, s2.
  - exfalso.
    assert (NoDup (f <$> domain)) as Hnd.
    { apply NoDup_fmap_2_strong.
      - intros s1 s2 H1 H2 Heq. destruct (decide (s1 = s2)) as [|Hne]; [done|].
        destruct Hnone. apply Exists_exists. exists s1. split; [done|].
        apply Exists_exists. by exists s2.
      - apply NoDup_strings_of_length. apply NoDup_cons. split; [|apply NoDup_singleton].
        by intros [= ]%list_elem_of_singleton. }
    assert (f <$> domain ⊆+ range) as Hsub.
    { apply NoDup_submseteq; [done|]. intros y (s & -> & _)%list_elem_of_fmap.
      apply elem_of_strings_up_to; [apply elem_of_all_ascii|apply f_bounded]. }
    apply submseteq_length in Hsub.
    pose proof (length_strings_up_to all_ascii bound) as Hrange.
    rewrite length_all_ascii in Hrange.
    rewrite length_fmap in Hsub. unfold domain in Hsub.
    rewrite length_strings_of_length in Hsub. fold range in Hrange.
    cbn [length] in Hsub.
    rewrite Nat.pow_succ_r', Nat.pow_mul_r in Hsub.
    change (2 ^ 8)%nat with 256%nat in Hsub.
    set (p := (256 ^ bound)%nat) in *. lia.
Qed.

End collisions.

(** Two bmc adds that differ in their field alone and carry the same
    fingerprint exist. *)
Lemma field_collision :
  ∃ f1 f2,
    f1 ≠ f2
    ∧ ProposedChange.change_hash
        (ProposedChange.construct "chg-0001" CanvasType.bmc f1 ChangeAction.add
           None (Some "Acme Cloud") "interviews")
      = ProposedChange.change_hash
          (ProposedChange.construct "chg-0001" CanvasType.bmc f2 ChangeAction.add
             None (Some "Acme Cloud") "interviews").
Proof.
  apply (bounded_collision
           (λ f, ProposedChange.change_hash
                   (ProposedChange.construct "chg-0001" CanvasType.bmc f ChangeAction.add
                      None (Some "Acme Cloud") "interviews")) 16).
  intros f. rewrite construct_change_hash. apply length_substring_le.
Qed.

(** ** Claims about fingerprints and re-proposal *)

(** C3 (as the code has it).  The fingerprint of a constructed change is the
    first 16 hex digits of the SHA-256 of [canvas_type|field|action|new_value
    or ''] and of nothing else: the same four content fields give the same
    fingerprint whatever the id, [old_value] and [reason] are; a missing
    [new_value] and an empty one are hashed as the same string; and two
    constructions that differ in exactly one of [canvas_type], [field],
    [action] and [new_value or ''] feed different strings to the hash.
    Different strings may still share their first 16 digits (lemma
    [field_collision]). *)
Theorem fingerprint_is_content_key :
  (∀ uuid1 uuid2 ct f a ov1 ov2 nv r1 r2,
     ProposedChange.change_hash (ProposedChange.construct uuid1 ct f a ov1 nv r1)
     = ProposedChange.change_hash (ProposedChange.construct uuid2 ct f a ov2 nv r2))
  ∧ (∀ uuid ct f a ov nv r,
       ProposedChange.change_hash (ProposedChange.construct uuid ct f a ov nv r)
       = substring 0 16 (hashlib.sha256_hexdigest (hash_input ct f a nv)))
  ∧ (∀ ct f a, hash_input ct f a None = hash_input ct f a (Some EmptyString))
  ∧ (∀ ct1 ct2 f a nv, ct1 ≠ ct2 → hash_input ct1 f a nv ≠ hash_input ct2 f a nv)
  ∧ (∀ ct f1 f2 a nv, f1 ≠ f2 → hash_input ct f1 a nv ≠ hash_input ct f2 a nv)
  ∧ (∀ ct f a1 a2 nv, a1 ≠ a2 → hash_input ct f a1 nv ≠ hash_input ct f a2 nv)
  ∧ (∀ ct f a nv1 nv2,
       or_str nv1 EmptyString ≠ or_str nv2 EmptyString →
       hash_input ct f a nv1 ≠ hash_input ct f a nv2).
Proof.
  repeat split.
  - intros ct1 ct2 f a nv Hne Heq. by apply Hne, (hash_input_canvas_type _ _ _ _ _ Heq).
  - intros ct f1 f2 a nv Hne Heq. by apply Hne, (hash_input_field _ _ _ _ _ Heq).
  - intros ct f a1 a2 nv Hne Heq. by apply Hne, (hash_input_action _ _ _ _ _ Heq).
  - intros ct f a nv1 nv2 Hne Heq. by apply Hne, (hash_input_new_value _ _ _ _ _ Heq).
Qed.

(** Two constructions that differ in [new_value] -- none given, and the empty
    string given -- and carry the same fingerprint. *)
Lemma missing_and_empty_new_value_collide :
  ProposedChange.new_value
    (ProposedChange.construct "chg-0001" CanvasType.bmc "key_partners" ChangeAction.add
       None None "interviews")
  ≠ ProposedChange.new_value
      (ProposedChange.construct "chg-0002" CanvasType.bmc "key_partners" ChangeAction.add
         None (Some EmptyString) "interviews")
  ∧ ProposedChange.change_hash
      (ProposedChange.construct "chg-0001" CanvasType.bmc "key_partners" ChangeAction.add
         None None "interviews")
    = ProposedChange.change_hash
        (ProposedChange.construct "chg-0002" CanvasType.bmc "key_partners" ChangeAction.add
           None (Some EmptyString) "interviews").
Proof. split; [discriminate|]. vm_compute. reflexivity. Qed.

(** The separator is not escaped either: moving a [|] between [field] and
    [new_value] gives the same hashed string. *)
Example separator_collision :
  hash_input CanvasType.bmc "channels|add" ChangeAction.add (Some "x")
  = hash_input CanvasType.bmc "channels" ChangeAction.add (Some "add|x").
Proof. reflexivity. Qed.

(** Against the claim that changes differing in one content field never share
    a fingerprint: a change without [new_value] and the same change with the
    empty [new_value] share theirs, and so do two changes that differ in
    their field alone. *)
Lemma fingerprint_collisions :
  (ProposedChange.new_value
     (ProposedChange.construct "chg-0001" CanvasType.bmc "key_partners" ChangeAction.add
        None None "interviews")
   ≠ ProposedChange.new_value
       (ProposedChange.construct "chg-0002" CanvasType.bmc "key_partners" ChangeAction.add
          None (Some EmptyString) "interviews")
   ∧ ProposedChange.change_hash
       (ProposedChange.construct "chg-0001" CanvasType.bmc "key_partners" ChangeAction.add
          None None "interviews")
     = ProposedChange.change_hash
         (ProposedChange.construct "chg-0002" CanvasType.bmc "key_partners"
            ChangeAction.add None (Some EmptyString) "interviews"))
  ∧ ∃ f1 f2,
      f1 ≠ f2
      ∧ ProposedChange.change_hash
          (ProposedChange.construct "chg-0001" CanvasType.bmc f1 ChangeAction.add
             None (Some "Acme Cloud") "interviews")
        = ProposedChange.change_hash
            (ProposedChange.construct "chg-0001" CanvasType.bmc f2 ChangeAction.add
               None (Some "Acme Cloud") "interviews").
Proof. split; [exact missing_and_empty_new_value_collide|exact field_collision]. Qed.

(** C7. Let [v] be the entry on top of the undo stack, recorded for an applied
    change with content [(ct, f, a, nv)].  After undoing it, a proposal with
    the same content -- whatever its id, [old_value] and [reason] -- is not
    reported as a duplicate.  In auto mode, when its apply succeeds, the
    version log gains a new entry with that fingerprint; in manual mode it is
    queued, and its fingerprint is still absent from the log, so the batch
    loop will not skip it as already applied. *)
Theorem reproposal_after_undo s v uuid0 ov0 r0 ct f a nv ov r uuid fresh :
  last (undo_stack s) = Some v →
  CanvasVersion.change_hash v
  = ProposedChange.change_hash (ProposedChange.construct uuid0 ct f a ov0 nv r0) →
  ∃ s2 o,
    propose_canvas_update (undo_last_change s).1 (CanvasType.value ct) f
                          (ChangeAction.value a) nv ov r uuid fresh = (s2, o)
    ∧ (∀ h, o ≠ Return (DuplicateSkipped h))
    ∧ (∀ c, o = Return (AutoApplied (Applied c)) →
         ∃ v', versions s2 = (versions (undo_last_change s).1 ++ [v'])%list
               ∧ CanvasVersion.change_hash v' = CanvasVersion.change_hash v)
    ∧ (auto_mode s = false →
         o = Return (WaitingForApproval (ProposedChange.construct uuid ct f a ov nv r))
         ∧ pending_changes s2
           = (pending_changes (undo_last_change s).1
              ++ [ProposedChange.construct uuid ct f a ov nv r])%list
         ∧ CanvasVersion.change_hash v ∉ existing_hashes s2).
Proof.
  intros [U HU]%last_Some Hhash.
  pose proof (undo_reopens_hash _ _ _ HU) as Hopen.
  destruct (undo_fields _ _ _ HU) as (_ & _ & _ & _ & _ & _ & Hauto & _).
  set (s1 := (undo_last_change s).1) in *.
  assert (ProposedChange.change_hash (ProposedChange.construct uuid ct f a ov nv r)
          = CanvasVersion.change_hash v) as Hsame.
  { by rewrite Hhash, !construct_change_hash. }
  rewrite propose_fresh by (by rewrite Hsame).
  rewrite Hauto. destruct (auto_mode s).
  - destruct (_apply_single_change s1 _ fresh) as [s2 [res|e]] eqn:E.
    + exists s2, (Return (AutoApplied res)). split; [done|]. split; [done|]. split; [|done].
      intros c [= ->].
      destruct (apply_applied _ _ _ _ _ E) as (_ & v' & Hh & _ & _ & _ & _ & Hv & _).
      exists v'. split; [done|]. by rewrite Hh.
    + exists s2, (Raise e). by repeat split.
  - eexists _, _. split; [done|]. split; [done|]. split; [done|].
    intros _. by repeat split.
Qed.

Lemma reproposal_after_undo_witness :
  ∃ s2 o,
    propose_canvas_update (undo_last_change (run two_applies seeded)).1 "segments" "name"
                          "add" (Some "Students") (Some "anything") "asked again"
                          "chg-0003" draw1 = (s2, o)
    ∧ (∀ h, o ≠ Return (DuplicateSkipped h))
    ∧ (∀ c, o = Return (AutoApplied (Applied c)) →
         ∃ v', versions s2
               = (versions (undo_last_change (run two_applies seeded)).1 ++ [v'])%list
               ∧ CanvasVersion.change_hash v' = "cce10e4b8dbd6c7e").
Proof.
  destruct (reproposal_after_undo (run two_applies seeded)
              (new_version (update_thread_state seeded true)
                 (ProposedChange.construct "chg-0002" CanvasType.segments "name"
                    ChangeAction.add None (Some "Students") "survey")
                 (SegmentsSnapshot (segments seeded))
                 (SegmentsSnapshot (segments (run two_applies seeded))) draw2)
              "chg-0002" None "survey" CanvasType.segments "name" ChangeAction.add
              (Some "Students") (Some "anything") "asked again" "chg-0003" draw1)
    as (s2 & o & Hrun & Hnodup & Hnew & _).
  - vm_compute. reflexivity.
  - vm_compute. reflexivity.
  - exists s2, o. split; [exact Hrun|]. split; [exact Hnodup|].
    intros c Hc. destruct (Hnew c Hc) as (v' & Hv' & Hh). exists v'. split; [exact Hv'|].
    rewrite Hh. vm_compute. reflexivity.
Defined.

(** ** What the branches of an apply do *)

Lemma is_action_true a change :
  ProposedChange.action change = a → is_action a change = true.
Proof. intros H. unfold is_action. by rewrite bool_decide_eq_true_2. Qed.

Lemma is_action_false a change :
  ProposedChange.action change ≠ a → is_action a change = false.
Proof. intros H. unfold is_action. by rewrite bool_decide_eq_false_2. Qed.

Lemma truthy_text_of o : truthy o = true → o = Some (text_of o).
Proof. by destruct o. Qed.

Lemma set_bmc_id s : set_bmc (bmc s) s = s.
Proof. by destruct s. Qed.

Lemma set_vpc_id s : set_vpc (vpc s) s = s.
Proof. by destruct s. Qed.

Lemma set_segments_id s : set_segments (segments s) s = s.
Proof. by destruct s. Qed.

(** Replacing what is not there replaces nothing. *)
Lemma replace_miss (old new : string) (entries : list string) :
  old ∉ entries →
  (λ v, if bool_decide (v = old) then new else v) <$> entries = entries.
Proof.
  induction entries as [|e entries IH]; [done|].
  intros Hnot. apply not_elem_of_cons in Hnot as [Hne Hnot].
  rewrite fmap_cons. cbn beta.
  rewrite bool_decide_eq_false_2 by done. by rewrite IH.
Qed.

Lemma retext_miss (old new : string) (items : list CanvasItem.t) :
  old ∉ CanvasItem.text <$> items →
  (λ item, if bool_decide (CanvasItem.text item = old)
           then with_text item new else item) <$> items = items.
Proof.
  induction items as [|e items IH]; [done|].
  rewrite fmap_cons. intros Hnot. apply not_elem_of_cons in Hnot as [Hne Hnot].
  rewrite fmap_cons. cbn beta.
  rewrite bool_decide_eq_false_2 by done. by rewrite IH.
Qed.

(** The segments update loop falls into its [else] exactly when no segment
    carries the name. *)
Lemma update_segment_miss segs old field new :
  old ∉ CustomerSegment.name <$> segs →
  update_segment segs old field new = Return None.
Proof.
  induction segs as [|seg segs IH]; [done|].
  simpl. intros Hnot. apply not_elem_of_cons in Hnot as [Hne Hnot].
  destruct (String.eqb_spec (CustomerSegment.name seg) old) as [Heq|_]; [done|].
  by rewrite IH.
Qed.

Lemma update_segment_hit segs old field new :
  old ∈ CustomerSegment.name <$> segs →
  update_segment segs old field new ≠ Return None.
Proof.
  induction segs as [|seg segs IH]; [by intros ?%elem_of_nil|].
  simpl. intros Hin.
  destruct (String.eqb_spec (CustomerSegment.name seg) old) as [Heq|Hne].
  - by destruct (set_attribute seg field new).
  - apply elem_of_cons in Hin as [Heq|Hin]; [done|].
    specialize (IH Hin). by destruct (update_segment segs old field new) as [[?|]|].
Qed.

(** An apply whose branch leaves the canvas as it is: the version is recorded
    all the same, with two equal snapshots. *)
Lemma apply_unchanged s change fresh :
  match ProposedChange.canvas_type change with
  | CanvasType.bmc =>
      ∃ entries, bmc s !! ProposedChange.field change = Some entries
                 ∧ apply_bmc (bmc s) (ProposedChange.field change) entries change = bmc s
  | CanvasType.vpc =>
      ∃ items, vpc s !! ProposedChange.field change = Some items
               ∧ apply_vpc (vpc s) (ProposedChange.field change) items change = vpc s
  | CanvasType.segments =>
      apply_segments (segments s) change fresh = Return (Some (segments s))
  end →
  _apply_single_change s change fresh
  = (record_version s change
       (snapshot_of (ProposedChange.canvas_type change) (canvases s))
       (snapshot_of (ProposedChange.canvas_type change) (canvases s)) fresh,
     Return (Applied change)).
Proof.
  unfold _apply_single_change.
  destruct (ProposedChange.canvas_type change); simpl.
  - intros (entries & -> & ->). by rewrite set_bmc_id.
  - intros (items & -> & ->). by rewrite set_vpc_id.
  - intros ->. by rewrite set_segments_id.
Qed.

Lemma apply_bmc_nothing d f entries change :
  d !! f = Some entries → changes_nothing change entries →
  apply_bmc d f entries change = d.
Proof.
  intros Hf [[Ha Hmiss]|[Ha (new & Hnew & Hin)]]; unfold apply_bmc, is_action; rewrite Ha; simpl.
  - destruct (truthy (ProposedChange.old_value change)) eqn:Hov; [|done].
    destruct (truthy (ProposedChange.new_value change)); [|done]. simpl.
    rewrite replace_miss by (by apply Hmiss, truthy_text_of). by apply insert_id.
  - rewrite Hnew. simpl. destruct (String.eqb new EmptyString); [done|]. simpl.
    by rewrite bool_decide_eq_true_2.
Qed.

Lemma apply_vpc_nothing d f items change :
  d !! f = Some items → changes_nothing change (CanvasItem.text <$> items) →
  apply_vpc d f items change = d.
Proof.
  intros Hf [[Ha Hmiss]|[Ha (new & Hnew & Hin)]]; unfold apply_vpc, is_action; rewrite Ha; simpl.
  - destruct (truthy (ProposedChange.old_value change)) eqn:Hov; [|done].
    destruct (truthy (ProposedChange.new_value change)); [|done]. simpl.
    rewrite retext_miss by (by apply Hmiss, truthy_text_of). by apply insert_id.
  - rewrite Hnew. simpl. destruct (String.eqb new EmptyString); [done|]. simpl.
    by rewrite bool_decide_eq_true_2.
Qed.




(** ** Claims about single applies *)

(** C8. A bmc or vpc apply on a valid field that cannot change it -- an
    update whose [old_value] equals no entry (no item text, for the vpc), or
    an add whose [new_value] is already an entry -- leaves the three canvases
    as they are, reports success, and appends to the version log and pushes on
    the undo stack one entry whose two snapshots are equal.  The entry is the
    one of this change: both snapshots are the canvas of the change's type as
    it is, and the entry carries the change's canvas type, fingerprint and
    description, the mode it was applied in, and the id and timestamp drawn
    for it. *)
Theorem noop_apply_is_versioned s change fresh present :
  field_content s change = Some present →
  changes_nothing change present →
  ∃ s' v,
    _apply_single_change s change fresh = (s', Return (Applied change))
    ∧ bmc s' = bmc s ∧ vpc s' = vpc s ∧ segments s' = segments s
    ∧ versions s' = (versions s ++ [v])%list
    ∧ undo_stack s' = (undo_stack s ++ [v])%list
    ∧ CanvasVersion.snapshot_before v = CanvasVersion.snapshot_after v
    ∧ CanvasVersion.snapshot_after v
      = snapshot_of (ProposedChange.canvas_type change) (canvases s')
    ∧ CanvasVersion.canvas_type v = ProposedChange.canvas_type change
    ∧ CanvasVersion.change_hash v = ProposedChange.change_hash change
    ∧ CanvasVersion.change_description v = describe change
    ∧ CanvasVersion.applied_by v = (if auto_mode s then "auto" else "manual")
    ∧ CanvasVersion.id v = version_id fresh
    ∧ CanvasVersion.timestamp v = version_timestamp fresh.
Proof.
  intros Hcontent Hnothing.
  exists (record_version s change
            (snapshot_of (ProposedChange.canvas_type change) (canvases s))
            (snapshot_of (ProposedChange.canvas_type change) (canvases s)) fresh),
         (new_version s change
            (snapshot_of (ProposedChange.canvas_type change) (canvases s))
            (snapshot_of (ProposedChange.canvas_type change) (canvases s)) fresh).
  split; [|by repeat split].
  apply apply_unchanged. unfold field_content in Hcontent.
  destruct (ProposedChange.canvas_type change); [| |done].
  - exists present. split; [done|]. by apply apply_bmc_nothing.
  - apply fmap_Some in Hcontent as (items & Hitems & ->).
    exists items. split; [done|]. by apply apply_vpc_nothing.
Qed.


Lemma noop_apply_is_versioned_witness :
  ∃ s' v,
    _apply_single_change auto_seeded repeated_pain draw1 = (s', Return (Applied repeated_pain))
    ∧ bmc s' = bmc auto_seeded ∧ vpc s' = vpc auto_seeded
    ∧ segments s' = segments auto_seeded
    ∧ versions s' = (versions auto_seeded ++ [v])%list
    ∧ undo_stack s' = (undo_stack auto_seeded ++ [v])%list
    ∧ CanvasVersion.snapshot_before v = CanvasVersion.snapshot_after v
    ∧ CanvasVersion.snapshot_after v
      = snapshot_of (ProposedChange.canvas_type repeated_pain) (canvases s')
    ∧ CanvasVersion.canvas_type v = ProposedChange.canvas_type repeated_pain
    ∧ CanvasVersion.change_hash v = ProposedChange.change_hash repeated_pain
    ∧ CanvasVersion.change_description v = describe repeated_pain
    ∧ CanvasVersion.applied_by v = (if auto_mode auto_seeded then "auto" else "manual")
    ∧ CanvasVersion.id v = version_id draw1
    ∧ CanvasVersion.timestamp v = version_timestamp draw1.
Proof.
  apply (noop_apply_is_versioned auto_seeded repeated_pain draw1
           ["Manual canvas updates are tedious";
            "Hard to connect experiment results to model changes"]).
  - vm_compute. reflexivity.
  - right. split; [reflexivity|].
    exists "Manual canvas updates are tedious". split; [reflexivity|].
    apply list_elem_of_here.
Defined.


(** C5 (as the code has it).  A segments update that gives both an
    [old_value] and a [new_value] (neither missing nor empty) and whose
    [old_value] is the name of no segment fails with "no segment found" and
    returns the state as it was: the segments list is unchanged, nothing is
    appended to the version log and nothing is pushed on the undo stack. *)
Theorem segment_update_miss_fails s change fresh :
  ProposedChange.canvas_type change = CanvasType.segments →
  ProposedChange.action change = ChangeAction.update →
  truthy (ProposedChange.old_value change) = true →
  truthy (ProposedChange.new_value change) = true →
  text_of (ProposedChange.old_value change) ∉ CustomerSegment.name <$> segments s →
  _apply_single_change s change fresh
  = (s, Return (SegmentNotFound (ProposedChange.old_value change))).
Proof.
  intros Hct Ha Hov Hnv Hmiss.
  unfold _apply_single_change, apply_segments, is_action.
  rewrite Hct, Ha, Hov, Hnv. simpl.
  by rewrite update_segment_miss.
Qed.

Lemma segment_update_miss_fails_witness :
  _apply_single_change seeded alex_update draw1
  = (seeded, Return (SegmentNotFound (Some "Alex"))).
Proof.
  apply (segment_update_miss_fails seeded alex_update draw1); try reflexivity.
  apply (bool_decide_unpack _). vm_compute. exact I.
Defined.

(** The same update without its [new_value]: no segment is named Alex, and
    yet the apply succeeds and records a version. *)
Lemma segment_update_miss_without_value_applies :
  ("Alex" ∉ CustomerSegment.name <$> segments seeded)
  ∧ ProposedChange.action alex_update_without_value = ChangeAction.update
  ∧ (_apply_single_change seeded alex_update_without_value draw1).2
    = Return (Applied alex_update_without_value)
  ∧ length (versions (_apply_single_change seeded alex_update_without_value draw1).1) = 1
  ∧ length (undo_stack (_apply_single_change seeded alex_update_without_value draw1).1) = 1.
Proof.
  split; [apply (bool_decide_unpack _); vm_compute; exact I|].
  split_and!; evaluate.
Qed.

(** ** The keys of the canvases *)

Lemma apply_bmc_dom d f entries change :
  d !! f = Some entries → dom (apply_bmc d f entries change) = dom d.
Proof.
  intros Hf. unfold apply_bmc.
  repeat (case_match; try done); apply dom_insert_lookup_L; by rewrite Hf.
Qed.

Lemma apply_vpc_dom d f items change :
  d !! f = Some items → dom (apply_vpc d f items change) = dom d.
Proof.
  intros Hf. unfold apply_vpc.
  repeat (case_match; try done); apply dom_insert_lookup_L; by rewrite Hf.
Qed.

Lemma apply_keeps_keys s change fresh :
  dom (bmc (_apply_single_change s change fresh).1) = dom (bmc s)
  ∧ dom (vpc (_apply_single_change s change fresh).1) = dom (vpc s).
Proof.
  unfold _apply_single_change.
  destruct (ProposedChange.canvas_type change).
  - destruct (bmc s !! ProposedChange.field change) as [entries|] eqn:Hf; [|done].
    simpl. split; [|done]. by apply apply_bmc_dom.
  - destruct (vpc s !! ProposedChange.field change) as [items|] eqn:Hf; [|done].
    simpl. split; [done|]. by apply apply_vpc_dom.
  - by destruct (apply_segments _ _ _) as [[?|]|].
Qed.

Lemma keyed_snapshot_of ct c : keyed_canvases c → keyed_snapshot (snapshot_of ct c).
Proof. intros [? ?]. by destruct ct. Qed.

Lemma keyed_put ct snapshot c :
  keyed_canvases c → keyed_snapshot snapshot → keyed_canvases (put ct snapshot c).
Proof. intros [? ?] Hs. by destruct ct, snapshot. Qed.

Lemma keys_inv_seed uuid1 uuid2 : keys_inv (get_canvas_state uuid1 uuid2).
Proof. split; [|constructor]. split; evaluate. Qed.

Lemma keys_inv_ext s t :
  keys_inv s → canvases t = canvases s →
  undo_stack t = undo_stack s → redo_stack t = redo_stack s → keys_inv t.
Proof. unfold keys_inv. by intros ? -> -> ->. Qed.

Lemma keys_inv_apply s change fresh s' o :
  keys_inv s → _apply_single_change s change fresh = (s', o) → keys_inv s'.
Proof.
  intros [[Hb Hv] Hstacks] E.
  pose proof (apply_keeps_keys s change fresh) as [Hb' Hv']. rewrite E in Hb', Hv'.
  simpl in Hb, Hv, Hb', Hv'.
  assert (keyed_canvases (canvases s')) as Hkeyed.
  { split; simpl; [by rewrite Hb'|by rewrite Hv']. }
  destruct (apply_outcomes s change fresh) as [[s'' E']|(o' & E' & _)];
    rewrite E' in E; simplify_eq; [|done].
  destruct (apply_applied _ _ _ _ _ E')
    as (_ & v & _ & _ & Hbefore & Hafter & _ & _ & Hu & Hr & _).
  split; [done|]. rewrite Hu, Hr, app_nil_r. apply Forall_app. split.
  - by apply Forall_app in Hstacks as [? _].
  - constructor; [|constructor]. split.
    + rewrite Hbefore. by apply keyed_snapshot_of.
    + rewrite Hafter. by apply keyed_snapshot_of.
Qed.

Lemma keys_inv_undo s : keys_inv s → keys_inv (undo_last_change s).1.
Proof.
  intros [Hc Hstacks]. destruct (pop (undo_stack s)) as [[U v]|] eqn:Hpop.
  2: { apply pop_None in Hpop. by rewrite (undo_empty _ Hpop). }
  apply pop_Some in Hpop.
  destruct (undo_fields _ _ _ Hpop) as (Hc' & _ & _ & _ & Hu & Hr & _).
  rewrite Hpop in Hstacks.
  apply Forall_app in Hstacks as [[HU [Hv _]%Forall_cons]%Forall_app HR].
  split.
  - rewrite Hc'. apply keyed_put; [done|apply Hv].
  - rewrite Hu, Hr. repeat (apply Forall_app; split); try done. by constructor.
Qed.

Lemma keys_inv_redo s : store_inv s → keys_inv s → keys_inv (redo_change s).1.
Proof.
  intros Hinv [Hc Hstacks]. destruct (pop (redo_stack s)) as [[R v]|] eqn:Hpop.
  2: { apply pop_None in Hpop. by rewrite (redo_empty _ Hpop). }
  apply pop_Some in Hpop.
  assert (CanvasVersion.change_hash v ∉ existing_hashes s) as Hnew.
  { pose proof Hinv as [I1 I2 _ _ _]. unfold existing_hashes.
    rewrite I1. rewrite Hpop, fmap_app in I2.
    apply NoDup_app in I2 as (_ & Hnd & _). intros Hin. apply (Hnd _ Hin).
    rewrite fmap_app. apply elem_of_app. right. apply list_elem_of_here. }
  destruct (redo_fields _ _ _ Hpop Hnew) as (Hc' & _ & _ & _ & Hu & Hr & _).
  rewrite Hpop in Hstacks.
  apply Forall_app in Hstacks as [HU [HR [Hv _]%Forall_cons]%Forall_app].
  split.
  - rewrite Hc'. apply keyed_put; [done|apply Hv].
  - rewrite Hu, Hr. repeat (apply Forall_app; split); try done. by constructor.
Qed.

Lemma keys_inv_apply_loop pending fresh ids :
  ∀ i s results, keys_inv s → keys_inv (apply_loop pending fresh i ids s results).1.
Proof.
  induction ids as [|cid ids IH]; intros i s results Hk; simpl; [done|].
  destruct (find_change pending cid) as [c|]; [|by apply IH].
  case_bool_decide; [by apply IH|].
  destruct (_apply_single_change s _ (fresh i)) as [s' [res|e]] eqn:E.
  - apply IH. by eapply keys_inv_apply.
  - simpl. by eapply keys_inv_apply.
Qed.

Lemma keys_inv_step s op : store_inv s → keys_inv s → keys_inv (step s op).
Proof.
  intros Hinv Hk. destruct op; simpl.
  - unfold propose_canvas_update.
    destruct (CanvasType.parse _); [|done]. destruct (ChangeAction.parse _); [|done].
    case_bool_decide; [done|]. destruct (auto_mode s); [|by eapply keys_inv_ext].
    destruct (_apply_single_change _ _ _) as [s' [res|e]] eqn:E; simpl;
      by eapply keys_inv_apply.
  - unfold apply_proposed_changes.
    pose proof (keys_inv_apply_loop (pending_changes s) fresh (batch_ids s change_ids)
                  0 s [] Hk) as Hloop.
    destruct (apply_loop _ _ _ _ _ _) as [s' [results|e]]; simpl in *; [|done].
    by eapply keys_inv_ext.
  - by apply keys_inv_undo.
  - by apply keys_inv_redo.
  - by eapply keys_inv_ext.
  - unfold reject_change. destruct (String.eqb _ _); [done|]. simpl.
    destruct (Nat.eqb _ _); [by eapply keys_inv_ext|].
    destruct (find_change _ _); by eapply keys_inv_ext.
  - by eapply keys_inv_ext.
Qed.

Lemma keys_inv_run ops : ∀ s, store_inv s → keys_inv s → keys_inv (run ops s).
Proof.
  unfold run. induction ops as [|op ops IH]; intros s Hinv Hk; simpl; [done|].
  apply IH; [by apply store_inv_step|by apply keys_inv_step].
Qed.

(** In every reachable state the bmc has its nine fields and the vpc its six
    sections, no more and no fewer. *)
Lemma reachable_keys uuid1 uuid2 ops :
  dom (bmc (run ops (get_canvas_state uuid1 uuid2))) = bmc_fields
  ∧ dom (vpc (run ops (get_canvas_state uuid1 uuid2))) = vpc_sections.
Proof.
  destruct (keys_inv_run ops _ (store_inv_seed uuid1 uuid2) (keys_inv_seed uuid1 uuid2))
    as [[? ?] _].
  done.
Qed.

(** ** Claim about unknown fields *)

(** C9 (as the code has it).  A bmc or vpc apply whose field is not a key of
    the canvas aborts with "invalid field" and returns the state as it was:
    no canvas change, no version recorded.  In a reachable state the keys of
    the bmc are its nine fields and the keys of the vpc its six sections, so
    every other field name aborts.  The segments branch has no such check: it
    never reports an invalid field. *)
Theorem unknown_field_aborts :
  (∀ s change fresh,
     ProposedChange.canvas_type change = CanvasType.bmc →
     bmc s !! ProposedChange.field change = None →
     _apply_single_change s change fresh
     = (s, Return (InvalidBMCField (ProposedChange.field change))))
  ∧ (∀ s change fresh,
       ProposedChange.canvas_type change = CanvasType.vpc →
       vpc s !! ProposedChange.field change = None →
       _apply_single_change s change fresh
       = (s, Return (InvalidVPCField (ProposedChange.field change))))
  ∧ (∀ uuid1 uuid2 ops change fresh,
       ProposedChange.canvas_type change = CanvasType.bmc →
       ProposedChange.field change ∉ bmc_fields →
       _apply_single_change (run ops (get_canvas_state uuid1 uuid2)) change fresh
       = (run ops (get_canvas_state uuid1 uuid2),
          Return (InvalidBMCField (ProposedChange.field change))))
  ∧ (∀ uuid1 uuid2 ops change fresh,
       ProposedChange.canvas_type change = CanvasType.vpc →
       ProposedChange.field change ∉ vpc_sections →
       _apply_single_change (run ops (get_canvas_state uuid1 uuid2)) change fresh
       = (run ops (get_canvas_state uuid1 uuid2),
          Return (InvalidVPCField (ProposedChange.field change))))
  ∧ (∀ s change fresh f,
       ProposedChange.canvas_type change = CanvasType.segments →
       (_apply_single_change s change fresh).2 ≠ Return (InvalidBMCField f)
       ∧ (_apply_single_change s change fresh).2 ≠ Return (InvalidVPCField f)).
Proof.
  assert (∀ s change fresh,
            ProposedChange.canvas_type change = CanvasType.bmc →
            bmc s !! ProposedChange.field change = None →
            _apply_single_change s change fresh
            = (s, Return (InvalidBMCField (ProposedChange.field change)))) as Hbmc.
  { intros s change fresh. unfold _apply_single_change. by intros -> ->. }
  assert (∀ s change fresh,
            ProposedChange.canvas_type change = CanvasType.vpc →
            vpc s !! ProposedChange.field change = None →
            _apply_single_change s change fresh
            = (s, Return (InvalidVPCField (ProposedChange.field change)))) as Hvpc.
  { intros s change fresh. unfold _apply_single_change. by intros -> ->. }
  split; [exact Hbmc|]. split; [exact Hvpc|]. split; [|split].
  - intros uuid1 uuid2 ops change fresh Hct Hnot. apply Hbmc; [done|].
    apply not_elem_of_dom. by rewrite (proj1 (reachable_keys uuid1 uuid2 ops)).
  - intros uuid1 uuid2 ops change fresh Hct Hnot. apply Hvpc; [done|].
    apply not_elem_of_dom. by rewrite (proj2 (reachable_keys uuid1 uuid2 ops)).
  - intros s change fresh f. unfold _apply_single_change. intros ->.
    by destruct (apply_segments _ _ _) as [[?|]|].
Qed.

(** A field outside the nine, on the seeded thread. *)
Example unknown_bmc_field :
  _apply_single_change seeded
    (ProposedChange.construct "chg-0010" CanvasType.bmc "pricing" ChangeAction.add
       None (Some "Freemium") "pricing test") draw1
  = (seeded, Return (InvalidBMCField "pricing")).
Proof. vm_compute. reflexivity. Qed.

(** A segments add with a field the segments do not have: it is applied, the
    field ends up as the description of the new segment, and a version is
    recorded. *)
Lemma segments_field_is_not_checked :
  (_apply_single_change seeded add_with_unknown_field draw1).2
  = Return (Applied add_with_unknown_field)
  ∧ segments (_apply_single_change seeded add_with_unknown_field draw1).1
    = (segments seeded
       ++ [CustomerSegment.make "seg-0003" "Students" "pricing_tier" EmptyString
             SegmentImportance.fairly_important])%list
  ∧ length (versions (_apply_single_change seeded add_with_unknown_field draw1).1) = 1.
Proof. split_and!; evaluate. Qed.

(** ** Failures and batches *)

(** A proposal that neither applies nor queues a change -- a duplicate, a
    failed apply, an exception -- returns the state as it was. *)
Lemma propose_failure_leaves_state s ct f a nv ov r uuid fresh s' o :
  propose_canvas_update s ct f a nv ov r uuid fresh = (s', o) →
  (∀ c, o ≠ Return (AutoApplied (Applied c))) →
  (∀ c, o ≠ Return (WaitingForApproval c)) →
  s' = s.
Proof.
  unfold propose_canvas_update. intros E Hnot_applied Hnot_queued.
  destruct (CanvasType.parse ct) as [ct'|]; [|by simplify_eq].
  destruct (ChangeAction.parse a) as [a'|]; [|by simplify_eq].
  case_bool_decide; [by simplify_eq|].
  destruct (auto_mode s).
  - destruct (_apply_single_change _ _ _) as [s'' [res|e]] eqn:E'; simplify_eq.
    + eapply apply_not_applied; [exact E'|]. intros c [= ->]. by eapply Hnot_applied.
    + by eapply apply_not_applied.
  - simplify_eq. by destruct (Hnot_queued (ProposedChange.construct uuid ct' f a' ov nv r)).
Qed.

(** When the loop returns, it has appended one report per id, in order, each
    of the kind the id calls for. *)
Lemma apply_loop_reports pending fresh ids :
  ∀ i s results s' out,
    apply_loop pending fresh i ids s results = (s', Return out) →
    ∃ reports, out = (results ++ reports)%list
               ∧ Forall2 (report_fits pending) ids reports.
Proof.
  induction ids as [|cid ids IH]; intros i s results s' out; simpl.
  - intros [= <- <-]. exists []. by rewrite app_nil_r.
  - destruct (find_change pending cid) as [c|] eqn:Hfind.
    + case_bool_decide.
      * intros (reports & -> & Hfits)%IH. exists (AlreadyApplied cid :: reports).
        rewrite <-app_assoc. split; [done|]. constructor; [|done].
        unfold report_fits. rewrite Hfind. by left.
      * destruct (_apply_single_change s _ (fresh i)) as [s'' [res|e]]; [|done].
        intros (reports & -> & Hfits)%IH. exists (Processed res :: reports).
        rewrite <-app_assoc. split; [done|]. constructor; [|done].
        unfold report_fits. rewrite Hfind. right. by exists res.
    + intros (reports & -> & Hfits)%IH. exists (ChangeNotFound cid :: reports).
      rewrite <-app_assoc. split; [done|]. constructor; [|done].
      unfold report_fits. by rewrite Hfind.
Qed.

(** A batch that returns: one fitting report per id of the batch, in the
    order given, and a pending queue from which exactly the changes named in
    the batch are gone. *)
Lemma batch_returns s ids fresh s' out :
  apply_proposed_changes s ids fresh = (s', Return out) →
  Forall2 (report_fits (pending_changes s)) (batch_ids s ids) out
  ∧ pending_changes s'
    = filter (λ c, ProposedChange.id c ∉ batch_ids s ids) (pending_changes s).
Proof.
  unfold apply_proposed_changes.
  destruct (apply_loop _ _ _ _ _ _) as [s'' [results|e]] eqn:E; [|done].
  intros [= <- <-]. split; [|done].
  by apply apply_loop_reports in E as (reports & -> & Hfits).
Qed.

Lemma batch_removes_named s ids fresh s' out c :
  apply_proposed_changes s ids fresh = (s', Return out) →
  ProposedChange.id c ∈ batch_ids s ids → c ∉ pending_changes s'.
Proof.
  intros [_ ->]%batch_returns Hin [Hnot _]%list_elem_of_filter. by apply Hnot.
Qed.

Lemma batch_keeps_others s ids fresh s' out c :
  apply_proposed_changes s ids fresh = (s', Return out) →
  c ∈ pending_changes s → ProposedChange.id c ∉ batch_ids s ids →
  c ∈ pending_changes s'.
Proof. intros [_ ->]%batch_returns Hin Hnot. by apply list_elem_of_filter. Qed.

(** A batch that raises never reaches the line that rewrites the queue. *)
Lemma batch_raise_keeps_pending s ids fresh s' e :
  apply_proposed_changes s ids fresh = (s', Raise e) →
  pending_changes s' = pending_changes s.
Proof.
  unfold apply_proposed_changes.
  pose proof (apply_loop_pending (pending_changes s) fresh (batch_ids s ids) 0 s [])
    as Hpending.
  destruct (apply_loop _ _ _ _ _ _) as [s'' [results|e']]; [done|].
  by intros [= <- <-].
Qed.

(** C4, at the inputs where the code departs from it.  An importance outside
    its enum, a canvas type outside its enum and an action outside its enum
    each leave [propose_canvas_update] as a raised [ValueError], not as a
    returned report; the state is untouched. *)
Theorem invalid_enum_raises :
  propose_canvas_update auto_seeded "segments" "importance" "update" (Some "critical")
                        (Some "Technical Founders") "interview" "chg-0001" draw1
  = (auto_seeded, Raise (ValueError "'critical' is not a valid SegmentImportance"))
  ∧ propose_canvas_update auto_seeded "roadmap" "key_partners" "add" (Some "Acme Cloud")
                          None "interviews" "chg-0001" draw1
    = (auto_seeded, Raise (ValueError "'roadmap' is not a valid CanvasType"))
  ∧ propose_canvas_update auto_seeded "bmc" "key_partners" "replace" (Some "Acme Cloud")
                          None "interviews" "chg-0001" draw1
    = (auto_seeded, Raise (ValueError "'replace' is not a valid ChangeAction")).
Proof. split_and!; evaluate. Qed.

(** C6, at the input where the code departs from it.  With the invalid
    importance update queued as [chg-0001] and a partner queued as
    [chg-0002], the batch [chg-0002, chg-0001] applies the partner, then
    raises: no report is returned, and both changes are still pending, the
    applied one included.  The batch of all pending changes raises as well,
    before anything is applied. *)
Theorem batch_aborted_by_invalid_importance :
  (apply_proposed_changes (run queue_with_bad_importance seeded)
     ["chg-0002"; "chg-0001"] (λ _, draw1)).2
  = Raise (ValueError "'critical' is not a valid SegmentImportance")
  ∧ ProposedChange.id
      <$> pending_changes
            (apply_proposed_changes (run queue_with_bad_importance seeded)
               ["chg-0002"; "chg-0001"] (λ _, draw1)).1
    = ["chg-0001"; "chg-0002"]
  ∧ bmc (apply_proposed_changes (run queue_with_bad_importance seeded)
           ["chg-0002"; "chg-0001"] (λ _, draw1)).1 !! "key_partners"
    = Some ["Cloud infrastructure providers"; "University incubators"; "Acme Cloud"]
  ∧ apply_proposed_changes (run queue_with_bad_importance seeded) [] (λ _, draw1)
    = (run queue_with_bad_importance seeded,
       Raise (ValueError "'critical' is not a valid SegmentImportance")).
Proof. split_and!; evaluate. Qed.

(** The batch of the spec's example, for comparison: a real id and a bogus
    one. *)
Example batch_with_bogus_id :
  (apply_proposed_changes
     (run [Propose "bmc" "key_partners" "add" (Some "Acme Cloud") None "interviews"
                   "real_id" draw1;
           Propose "vpc" "gains" "add" (Some "Less rework") None "interviews"
                   "other_id" draw2] seeded)
     ["real_id"; "bogus_id"] (λ _, draw1)).2
  = Return [Processed (Applied (ProposedChange.construct "real_id" CanvasType.bmc
                                  "key_partners" ChangeAction.add None
                                  (Some "Acme Cloud") "interviews"));
            ChangeNotFound "bogus_id"]
  ∧ ProposedChange.id
      <$> pending_changes
            (apply_proposed_changes
               (run [Propose "bmc" "key_partners" "add" (Some "Acme Cloud") None
                             "interviews" "real_id" draw1;
                     Propose "vpc" "gains" "add" (Some "Less rework") None "interviews"
                             "other_id" draw2] seeded)
               ["real_id"; "bogus_id"] (λ _, draw1)).1
    = ["other_id"].
Proof. split_and!; evaluate. Qed.

(** * Further properties of the code *)


(** ** The history query *)

Lemma py_slice_from_zero {A} (l : list A) : py_slice_from 0 l = l.
Proof. unfold py_slice_from. simpl. by rewrite Z.min_l by lia. Qed.

Lemma py_slice_from_negative {A} (k : Z) (l : list A) :
  (0 < k)%Z → py_slice_from (- k) l = drop (length l - Z.to_nat k) l.
Proof.
  intros Hk. unfold py_slice_from.
  destruct (Z.ltb_spec (- k) 0) as [_|?]; [|lia].
  f_equal. lia.
Qed.

Lemma py_slice_from_positive {A} (k : Z) (l : list A) :
  (0 ≤ k)%Z → py_slice_from k l = drop (Z.to_nat k) l.
Proof.
  intros Hk. unfold py_slice_from.
  destruct (Z.ltb_spec k 0) as [?|_]; [lia|].
  destruct (Z.le_gt_cases k (Z.of_nat (length l))) as [Hle|Hgt].
  - by rewrite Z.min_l.
  - rewrite Z.min_r by lia. rewrite Nat2Z.id.
    rewrite !drop_ge; [done|lia|lia].
Qed.

Lemma matching_versions_eq s canvas_type :
  matching_versions s canvas_type
  = if truthy canvas_type
    then filter (λ v, CanvasType.value (CanvasVersion.canvas_type v) = text_of canvas_type)
                (versions s)
    else versions s.
Proof. reflexivity. Qed.

Lemma recent_versions_slice s canvas_type limit :
  recent_versions s canvas_type limit
  = py_slice_from (- limit) (matching_versions s canvas_type).
Proof. reflexivity. Qed.

(** X1. The window of [get_version_history].  A positive limit selects the
    newest [limit] matching entries (all of them when there are fewer).  A
    limit of zero does not select nothing: [versions[-0:]] is the whole list.
    A negative limit drops the oldest [-limit] entries and keeps the rest. *)
Theorem history_window s canvas_type limit :
  ((0 < limit)%Z →
   recent_versions s canvas_type limit
   = drop (length (matching_versions s canvas_type) - Z.to_nat limit)
          (matching_versions s canvas_type)
   ∧ length (recent_versions s canvas_type limit)
     = Nat.min (Z.to_nat limit) (length (matching_versions s canvas_type)))
  ∧ (limit = 0%Z →
     recent_versions s canvas_type limit = matching_versions s canvas_type)
  ∧ ((limit < 0)%Z →
     recent_versions s canvas_type limit
     = drop (Z.to_nat (- limit)) (matching_versions s canvas_type)).
Proof.
  rewrite recent_versions_slice. split; [|split].
  - intros Hpos. rewrite py_slice_from_negative by done.
    split; [done|]. rewrite length_drop. lia.
  - intros ->. apply py_slice_from_zero.
  - intros Hneg. by rewrite py_slice_from_positive by lia.
Qed.

(** X3. A filter that is not the value of a canvas type -- [BMC] in capitals,
    say -- is not an error: the query answers that there is no history,
    whatever the log holds. *)
Theorem history_of_unknown_canvas_type s filter limit :
  filter ≠ EmptyString →
  (∀ ct, CanvasType.value ct ≠ filter) →
  get_version_history s (Some filter) limit = "No version history yet.".
Proof.
  intros Hne Hunknown. unfold get_version_history.
  rewrite recent_versions_slice, matching_versions_eq. simpl.
  destruct (String.eqb_spec filter EmptyString) as [|_]; [done|]. simpl.
  rewrite filter_none; [unfold py_slice_from; by rewrite drop_nil|].
  apply Forall_forall. intros v _ Heq. by apply (Hunknown (CanvasVersion.canvas_type v)).
Qed.

Lemma history_of_unknown_canvas_type_witness :
  get_version_history after_two_changes (Some "BMC") 10 = "No version history yet.".
Proof.
  apply history_of_unknown_canvas_type; [discriminate|].
  by intros [].
Defined.

(** The same thread has history under the right spelling. *)
Example history_of_bmc :
  get_version_history after_two_changes (Some "bmc") 10
  = "Version History:" ++ newline
    ++ "  [2025-03-01T10:00:00+00:00] add 'Acme Cloud' in bmc.key_partners (by: auto)".
Proof. evaluate. Qed.

(** X2. In a reachable state the unfiltered history, asked for at least one
    entry, lists first the very entry the next undo reverts -- the top of the
    undo stack -- and it is empty exactly when there is nothing to undo. *)
Theorem history_lists_the_undo_target uuid1 uuid2 ops limit :
  (0 < limit)%Z →
  head (reverse (recent_versions (run ops (get_canvas_state uuid1 uuid2)) None limit))
  = last (undo_stack (run ops (get_canvas_state uuid1 uuid2)))
  ∧ (undo_last_change (run ops (get_canvas_state uuid1 uuid2))).2
    = match head (reverse (recent_versions (run ops (get_canvas_state uuid1 uuid2))
                             None limit)) with
      | Some v => Undone (CanvasVersion.change_description v)
      | None => NothingToUndo
      end.
Proof.
  intros Hpos. set (s := run ops (get_canvas_state uuid1 uuid2)).
  pose proof (store_inv_run ops _ (store_inv_seed uuid1 uuid2)) as [I1 _ _ _ _].
  fold s in I1.
  assert (head (reverse (recent_versions s None limit)) = last (undo_stack s)) as Hhead.
  { rewrite recent_versions_slice, matching_versions_eq. simpl.
    rewrite py_slice_from_negative by done. rewrite I1.
    destruct (undo_stack s) as [|v0 U0] eqn:HU using rev_ind; [done|].
    rewrite drop_app_le by (rewrite length_app; simpl; lia).
    by rewrite reverse_snoc, last_snoc. }
  split; [done|]. rewrite Hhead.
  destruct (last (undo_stack s)) as [v|] eqn:Hlast.
  - apply last_Some in Hlast as [U HU]. by rewrite (undo_step _ _ _ HU).
  - apply last_None in Hlast. by rewrite (undo_empty _ Hlast).
Qed.

Lemma history_lists_the_undo_target_witness :
  head (reverse (recent_versions (run two_applies seeded) None 1))
  = last (undo_stack (run two_applies seeded))
  ∧ (undo_last_change (run two_applies seeded)).2
    = match head (reverse (recent_versions (run two_applies seeded) None 1)) with
      | Some v => Undone (CanvasVersion.change_description v)
      | None => NothingToUndo
      end.
Proof.
  apply (history_lists_the_undo_target "seg-0001" "seg-0002" two_applies 1). lia.
Defined.

(** ** The registry of threads *)








(** The thread that came back was seeded anew: it is in manual mode again,
    its change waits in the queue and its log is empty. *)
Example thread_a_started_over :
  auto_mode thread_a_of_busy_store = false
  ∧ ProposedChange.id <$> pending_changes thread_a_of_busy_store = ["chg-0003"]
  ∧ versions thread_a_of_busy_store = []
  ∧ CustomerSegment.id <$> segments thread_a_of_busy_store = ["seg-0007"; "seg-0008"].
Proof. split_and!; evaluate. Qed.

(** X6. A thread is seeded once.  [get_canvas_state] on a thread that is in
    the store returns the stored state and leaves the store alone, so a second
    call gives what the first gave and draws no new ids; only after
    [delete_thread] does the thread start again from the seed, with new
    segment ids and nothing left of its history. *)
Theorem thread_is_seeded_once :
  (∀ canvas_store thread_id s uuid1 uuid2,
     canvas_store !! thread_id = Some s →
     get_canvas_state_in canvas_store thread_id uuid1 uuid2 = (canvas_store, s))
  ∧ (∀ canvas_store thread_id uuid1 uuid2 uuid3 uuid4,
       get_canvas_state_in (get_canvas_state_in canvas_store thread_id uuid1 uuid2).1
                           thread_id uuid3 uuid4
       = get_canvas_state_in canvas_store thread_id uuid1 uuid2)
  ∧ (∀ canvas_store thread_id uuid1 uuid2,
       get_canvas_state_in (delete_thread canvas_store thread_id) thread_id uuid1 uuid2
       = (<[thread_id := get_canvas_state uuid1 uuid2]> (delete thread_id canvas_store),
          get_canvas_state uuid1 uuid2)).
Proof.
  split_and!.
  - intros canvas_store thread_id s uuid1 uuid2 Hin. unfold get_canvas_state_in.
    by rewrite Hin.
  - intros canvas_store thread_id uuid1 uuid2 uuid3 uuid4.
    unfold get_canvas_state_in at 2 3.
    destruct (canvas_store !! thread_id) as [s|] eqn:E; simpl.
    + unfold get_canvas_state_in. by rewrite E.
    + unfold get_canvas_state_in. by rewrite lookup_insert_eq.
  - intros canvas_store thread_id uuid1 uuid2. unfold delete_thread, get_canvas_state_in.
    destruct (canvas_store !! thread_id) as [s|] eqn:E.
    + by rewrite lookup_delete_eq.
    + rewrite E. by rewrite delete_id.
Qed.

(** ** The format of a fingerprint *)

Lemma hex_digit_in_hex_digits (d : N) : (d < 16)%N → hashlib.hex_digit d ∈ hex_digits.
Proof.
  intros Hd. destruct d as [|p]; [apply (bool_decide_unpack _); vm_compute; exact I|].
  repeat (match goal with q : positive |- _ => destruct q as [q|q|] end; try lia);
    apply (bool_decide_unpack _); vm_compute; exact I.
Qed.

Lemma land_15_lt (x : N) : (N.land x 15 < 16)%N.
Proof.
  change 15%N with (N.ones 4). rewrite N.land_ones.
  apply N.mod_upper_bound. discriminate.
Qed.

Lemma length_hex_word n x tail :
  String.length (hashlib.hex_word n x tail) = (n + String.length tail)%nat.
Proof. induction n as [|n IH]; simpl; [done|]. by rewrite IH. Qed.

Lemma hex_word_hex n x tail :
  Forall (λ c, c ∈ hex_digits) (list_ascii_of_string tail) →
  Forall (λ c, c ∈ hex_digits) (list_ascii_of_string (hashlib.hex_word n x tail)).
Proof.
  intros Htail. induction n as [|n IH]; [done|].
  cbn [hashlib.hex_word list_ascii_of_string]. constructor; [|done].
  apply hex_digit_in_hex_digits, land_15_lt.
Qed.

Lemma length_hexdigest h : String.length (hashlib.hexdigest h) = 64.
Proof. unfold hashlib.hexdigest. by rewrite !length_hex_word. Qed.

Lemma hexdigest_hex h :
  Forall (λ c, c ∈ hex_digits) (list_ascii_of_string (hashlib.hexdigest h)).
Proof. unfold hashlib.hexdigest. repeat apply hex_word_hex. constructor. Qed.

Lemma length_substring_prefix s :
  ∀ m, (m ≤ String.length s)%nat → String.length (substring 0 m s) = m.
Proof.
  induction s as [|c s IH]; intros [|m] Hm; simpl in *; try done; try lia.
  rewrite IH; [done|lia].
Qed.

Lemma substring_keeps (P : ascii → Prop) s :
  Forall P (list_ascii_of_string s) →
  ∀ n m, Forall P (list_ascii_of_string (substring n m s)).
Proof.
  induction s as [|c s IH]; intros Hs [|n] [|m]; simpl; try done; try constructor.
  - by apply Forall_cons in Hs as [? ?].
  - apply IH. by apply Forall_cons in Hs as [? ?].
  - apply IH. by apply Forall_cons in Hs as [? ?].
  - apply IH. by apply Forall_cons in Hs as [? ?].
Qed.

(** X7. Every fingerprint the store computes is exactly 16 characters long,
    each of them one of [0-9a-f], whatever the content hashed. *)
Theorem fingerprint_format uuid ct f a ov nv r :
  String.length
    (ProposedChange.change_hash (ProposedChange.construct uuid ct f a ov nv r)) = 16
  ∧ Forall (λ c, c ∈ hex_digits)
      (list_ascii_of_string
         (ProposedChange.change_hash (ProposedChange.construct uuid ct f a ov nv r))).
Proof.
  rewrite construct_change_hash. unfold hashlib.sha256_hexdigest. split.
  - apply length_substring_prefix. rewrite length_hexdigest. lia.
  - apply substring_keeps, hexdigest_hex.
Qed.

(** ** Proposals, approvals and the queue *)

(** A successful apply leaves its fingerprint in the log. *)
Lemma applied_hash_in_log s change fresh s' c :
  _apply_single_change s change fresh = (s', Return (Applied c)) →
  c = change ∧ ProposedChange.change_hash change ∈ existing_hashes s'.
Proof.
  intros E. destruct (apply_applied _ _ _ _ _ E) as (-> & v & Hh & _ & _ & _ & _ & Hv & _).
  split; [done|]. unfold existing_hashes. rewrite Hv, fmap_app, <-Hh.
  apply elem_of_app. right. apply list_elem_of_here.
Qed.

(** X8. Idempotency in auto mode: once a proposal has been applied, a second
    proposal with the same canvas type, field, action and [new_value] -- its
    id, [old_value] and [reason] may differ -- is answered "duplicate,
    skipped" and changes nothing at all. *)
Theorem second_proposal_is_skipped s ct f a nv ov r uuid fresh c ov' r' uuid' fresh' :
  (propose_canvas_update s ct f a nv ov r uuid fresh).2
  = Return (AutoApplied (Applied c)) →
  propose_canvas_update (propose_canvas_update s ct f a nv ov r uuid fresh).1
                        ct f a nv ov' r' uuid' fresh'
  = ((propose_canvas_update s ct f a nv ov r uuid fresh).1,
     Return (DuplicateSkipped (ProposedChange.change_hash c))).
Proof.
  intros Hfirst.
  assert (∃ ct' a' s1,
            CanvasType.parse ct = Return ct' ∧ ChangeAction.parse a = Return a'
            ∧ propose_canvas_update s ct f a nv ov r uuid fresh
              = (s1, Return (AutoApplied (Applied c)))
            ∧ c = ProposedChange.construct uuid ct' f a' ov nv r
            ∧ ProposedChange.change_hash c ∈ existing_hashes s1)
    as (ct' & a' & s1 & Hct & Ha & Hrun & -> & Hin).
  { unfold propose_canvas_update in *.
    destruct (CanvasType.parse ct) as [ct'|]; [|done].
    destruct (ChangeAction.parse a) as [a'|]; [|done].
    case_bool_decide; [done|]. destruct (auto_mode s); [|done].
    destruct (_apply_single_change _ _ _) as [s1 [res|e]] eqn:E; [|done].
    simpl in Hfirst. injection Hfirst as ->.
    destruct (applied_hash_in_log _ _ _ _ _ E) as [-> Hin].
    by exists ct', a', s1. }
  rewrite Hrun. simpl. unfold propose_canvas_update. rewrite Hct, Ha.
  rewrite construct_change_hash in Hin.
  rewrite bool_decide_eq_true_2 by (by rewrite construct_change_hash).
  by rewrite !construct_change_hash.
Qed.

Lemma second_proposal_is_skipped_witness :
  propose_canvas_update
    (propose_canvas_update auto_seeded "bmc" "key_partners" "add" (Some "Acme Cloud") None
                           "interviews" "chg-0001" draw1).1
    "bmc" "key_partners" "add" (Some "Acme Cloud") (Some "Acme") "said again"
    "chg-0002" draw2
  = ((propose_canvas_update auto_seeded "bmc" "key_partners" "add" (Some "Acme Cloud") None
                            "interviews" "chg-0001" draw1).1,
     Return (DuplicateSkipped
               (ProposedChange.change_hash
                  (ProposedChange.construct "chg-0001" CanvasType.bmc "key_partners"
                     ChangeAction.add None (Some "Acme Cloud") "interviews")))).
Proof.
  apply (second_proposal_is_skipped auto_seeded "bmc" "key_partners" "add"
           (Some "Acme Cloud") None "interviews" "chg-0001" draw1
           (ProposedChange.construct "chg-0001" CanvasType.bmc "key_partners"
              ChangeAction.add None (Some "Acme Cloud") "interviews")).
  reflexivity.
Defined.

(** An apply neither reads nor writes the pending queue. *)
Lemma apply_set_pending pending s change fresh :
  _apply_single_change (set_pending_changes pending s) change fresh
  = (set_pending_changes pending (_apply_single_change s change fresh).1,
     (_apply_single_change s change fresh).2).
Proof.
  unfold _apply_single_change. destruct (ProposedChange.canvas_type change); simpl.
  - by destruct (bmc s !! ProposedChange.field change).
  - by destruct (vpc s !! ProposedChange.field change).
  - by destruct (apply_segments (segments s) change fresh) as [[?|]|].
Qed.

Lemma apply_keeps_pending s change fresh :
  pending_changes (_apply_single_change s change fresh).1 = pending_changes s.
Proof.
  unfold _apply_single_change. destruct (ProposedChange.canvas_type change); simpl.
  - by destruct (bmc s !! ProposedChange.field change).
  - by destruct (vpc s !! ProposedChange.field change).
  - by destruct (apply_segments (segments s) change fresh) as [[?|]|].
Qed.

Lemma set_pending_changes_id s : set_pending_changes (pending_changes s) s = s.
Proof. by destruct s. Qed.

Lemma set_pending_changes_twice p q s :
  set_pending_changes p (set_pending_changes q s) = set_pending_changes p s.
Proof. done. Qed.

Lemma find_change_snoc pending c :
  ProposedChange.id c ∉ ProposedChange.id <$> pending →
  find_change (pending ++ [c])%list (ProposedChange.id c) = Some c.
Proof.
  unfold find_change. induction pending as [|c0 pending IH]; simpl.
  - intros _. by rewrite String.eqb_refl.
  - intros Hnot. apply not_elem_of_cons in Hnot as [Hne Hnot].
    destruct (String.eqb_spec (ProposedChange.id c0) (ProposedChange.id c)); [done|].
    by apply IH.
Qed.

Lemma filter_other_ids pending c :
  ProposedChange.id c ∉ ProposedChange.id <$> pending →
  filter (λ c', ProposedChange.id c' ∉ [ProposedChange.id c]) (pending ++ [c])%list
  = pending.
Proof.
  intros Hnot. rewrite filter_app, filter_all, filter_none, app_nil_r; [done| |].
  - constructor; [|constructor]. intros Hn. apply Hn, list_elem_of_here.
  - apply Forall_forall. intros c' Hin Heq%list_elem_of_singleton.
    apply Hnot. rewrite <-Heq. by apply list_elem_of_fmap_2.
Qed.

(** X9. In manual mode, proposing a change under an id no pending change
    carries and then approving that id does to the thread exactly what
    applying the change at once does -- same canvases, same version entry --
    and leaves the queue as it was before the proposal. *)
Theorem approve_after_propose_is_apply s ct f a nv ov r uuid fresh0 fresh result :
  auto_mode s = false →
  uuid ∉ ProposedChange.id <$> pending_changes s →
  ProposedChange.change_hash (ProposedChange.construct uuid ct f a ov nv r)
    ∉ existing_hashes s →
  (_apply_single_change s (ProposedChange.construct uuid ct f a ov nv r) (fresh 0)).2
  = Return result →
  apply_proposed_changes
    (propose_canvas_update s (CanvasType.value ct) f (ChangeAction.value a) nv ov r
                           uuid fresh0).1 [uuid] fresh
  = ((_apply_single_change s (ProposedChange.construct uuid ct f a ov nv r) (fresh 0)).1,
     Return [Processed result]).
Proof.
  intros Hmanual Hid Hnew Hresult.
  rewrite propose_fresh by done. rewrite Hmanual.
  set (change := ProposedChange.construct uuid ct f a ov nv r) in *.
  pose proof (find_change_snoc (pending_changes s) change Hid) as Hfind.
  pose proof (filter_other_ids (pending_changes s) change Hid) as Hfilter.
  change (ProposedChange.id change) with uuid in Hfind, Hfilter.
  unfold apply_proposed_changes, batch_ids, apply_loop.
  cbn [fst snd pending_changes set_pending_changes].
  rewrite Hfind, Hfilter.
  change (existing_hashes (set_pending_changes _ s)) with (existing_hashes s).
  rewrite bool_decide_eq_false_2 by done.
  rewrite (model_post_init_hashed change)
    by apply construct_change_hash_nonempty.
  rewrite apply_set_pending, Hresult. cbn [app].
  f_equal. rewrite set_pending_changes_twice.
  rewrite <-(apply_keeps_pending s change (fresh 0)) at 1.
  apply set_pending_changes_id.
Qed.

Lemma approve_after_propose_is_apply_witness :
  apply_proposed_changes
    (propose_canvas_update seeded "bmc" "key_partners" "add" (Some "Acme Cloud") None
                           "interviews" "chg-0001" draw2).1 ["chg-0001"] (λ _, draw1)
  = ((_apply_single_change seeded
        (ProposedChange.construct "chg-0001" CanvasType.bmc "key_partners"
           ChangeAction.add None (Some "Acme Cloud") "interviews") draw1).1,
     Return [Processed (Applied (ProposedChange.construct "chg-0001" CanvasType.bmc
                                   "key_partners" ChangeAction.add None
                                   (Some "Acme Cloud") "interviews"))]).
Proof.
  apply (approve_after_propose_is_apply seeded CanvasType.bmc "key_partners"
           ChangeAction.add (Some "Acme Cloud") None "interviews" "chg-0001" draw2
           (λ _, draw1)).
  - reflexivity.
  - intros Hin. by apply elem_of_nil in Hin.
  - intros Hin. by apply elem_of_nil in Hin.
  - reflexivity.
Defined.

Lemma find_change_not_in pending cid :
  cid ∉ ProposedChange.id <$> pending → find_change pending cid = None.
Proof.
  intros Hnot. destruct (find_change pending cid) as [c|] eqn:Hfind; [|done].
  apply find_change_Some in Hfind as [Hin <-].
  destruct Hnot. by apply list_elem_of_fmap_2.
Qed.

Lemma fitting_reports_of_pending pending ids out :
  Forall2 (report_fits pending) ids out →
  Forall (λ cid, cid ∈ ProposedChange.id <$> pending) ids →
  Forall (λ r, ∀ cid, r ≠ ChangeNotFound cid) out.
Proof.
  induction 1 as [|cid r ids out Hfit _ IH]; [done|].
  intros [Hin Hrest]%Forall_cons. constructor; [|by apply IH].
  unfold report_fits in Hfit.
  destruct (find_change pending cid) eqn:Hfind.
  - by destruct Hfit as [->|[result ->]].
  - by apply find_change_None in Hfind.
Qed.

(** X10. Approving everything (no ids given) either raises or empties the
    queue; when it returns there is one report per change that was pending,
    and none of them is "not found". *)
Theorem approve_all_empties_queue s fresh :
  is_raise (apply_proposed_changes s [] fresh).2 = false →
  pending_changes (apply_proposed_changes s [] fresh).1 = []
  ∧ ∃ out, (apply_proposed_changes s [] fresh).2 = Return out
           ∧ length out = length (pending_changes s)
           ∧ Forall (λ r, ∀ cid, r ≠ ChangeNotFound cid) out.
Proof.
  destruct (apply_proposed_changes s [] fresh) as [s' [out|e]] eqn:E; [|done].
  intros _. apply batch_returns in E as [Hfits Hpending]. simpl in *. split.
  - rewrite Hpending. apply filter_none, Forall_forall.
    intros c Hin Hnot. apply Hnot. by apply list_elem_of_fmap_2.
  - exists out. split_and!; [done| |].
    + apply Forall2_length in Hfits. by rewrite <-Hfits, length_fmap.
    + eapply fitting_reports_of_pending; [exact Hfits|]. by apply Forall_forall.
Qed.

Lemma approve_all_empties_queue_witness :
  pending_changes (apply_proposed_changes two_in_queue [] (λ _, draw1)).1 = []
  ∧ ∃ out, (apply_proposed_changes two_in_queue [] (λ _, draw1)).2 = Return out
           ∧ length out = length (pending_changes two_in_queue)
           ∧ Forall (λ r, ∀ cid, r ≠ ChangeNotFound cid) out.
Proof. apply (approve_all_empties_queue two_in_queue (λ _, draw1)). evaluate. Defined.

(** X11. An id a returning batch has worked on is gone from the queue:
    approving it once more reports "not found" and changes nothing. *)
Theorem approved_id_is_gone s ids fresh cid fresh' :
  is_raise (apply_proposed_changes s ids fresh).2 = false →
  cid ∈ batch_ids s ids →
  apply_proposed_changes (apply_proposed_changes s ids fresh).1 [cid] fresh'
  = ((apply_proposed_changes s ids fresh).1, Return [ChangeNotFound cid]).
Proof.
  destruct (apply_proposed_changes s ids fresh) as [s' [out|e]] eqn:E; [|done].
  intros _ Hin. apply batch_returns in E as [_ Hpending]. simpl.
  assert (cid ∉ ProposedChange.id <$> pending_changes s') as Hgone.
  { rewrite Hpending. intros (c & -> & [Hnot _]%list_elem_of_filter)%list_elem_of_fmap.
    by apply Hnot. }
  unfold apply_proposed_changes, batch_ids, apply_loop.
  rewrite find_change_not_in by done. cbn [app]. f_equal.
  rewrite filter_all; [apply set_pending_changes_id|].
  apply Forall_forall. intros c Hc [= Heq]%list_elem_of_singleton.
  apply Hgone. rewrite <-Heq. by apply list_elem_of_fmap_2.
Qed.

Lemma approved_id_is_gone_witness :
  apply_proposed_changes
    (apply_proposed_changes two_in_queue ["chg-0002"] (λ _, draw1)).1 ["chg-0002"]
    (λ _, draw2)
  = ((apply_proposed_changes two_in_queue ["chg-0002"] (λ _, draw1)).1,
     Return [ChangeNotFound "chg-0002"]).
Proof.
  apply (approved_id_is_gone two_in_queue ["chg-0002"] (λ _, draw1) "chg-0002"
           (λ _, draw2)).
  - evaluate.
  - apply list_elem_of_here.
Defined.

(** ** main.py: rejecting a pending change *)

(** X12. Rejecting an id no pending change carries changes nothing: the
    answer is "not found", or the 400 error when the id is empty. *)
Theorem reject_unknown_id_changes_nothing s cid :
  cid ∉ ProposedChange.id <$> pending_changes s →
  reject_change s cid
  = (s, if String.eqb cid EmptyString then ChangeIdRequired else RejectNotFound cid).
Proof.
  intros Hnot. unfold reject_change.
  destruct (String.eqb cid EmptyString); [done|].
  assert (filter (λ c, ProposedChange.id c ≠ cid) (pending_changes s) = pending_changes s)
    as Hfilter.
  { apply filter_all, Forall_forall. intros c Hin <-.
    by apply Hnot, list_elem_of_fmap_2. }
  cbn [pending_changes set_pending_changes]. rewrite Hfilter, Nat.eqb_refl.
  by rewrite set_pending_changes_id.
Qed.

Lemma reject_unknown_id_changes_nothing_witness :
  reject_change two_in_queue "chg-0009" = (two_in_queue, RejectNotFound "chg-0009").
Proof.
  apply (reject_unknown_id_changes_nothing two_in_queue "chg-0009").
  apply (bool_decide_unpack _). vm_compute. exact I.
Defined.

(** X13. Rejecting the id of a pending change removes every pending change
    with that id, appends the first of them to the rejected changes, and
    answers with the number of changes left, which is smaller than before.
    Canvases, version log and stacks are not touched. *)
Theorem reject_moves_change s cid c :
  cid ≠ EmptyString →
  find_change (pending_changes s) cid = Some c →
  let s' := (reject_change s cid).1 in
  (reject_change s cid).2 = Rejected cid (length (pending_changes s'))
  ∧ (length (pending_changes s') < length (pending_changes s))%nat
  ∧ pending_changes s'
    = filter (λ c', ProposedChange.id c' ≠ cid) (pending_changes s)
  ∧ rejected_changes s' = (rejected_changes s ++ [c])%list
  ∧ canvases s' = canvases s ∧ versions s' = versions s
  ∧ undo_stack s' = undo_stack s ∧ redo_stack s' = redo_stack s.
Proof.
  intros Hcid Hfind. unfold reject_change.
  destruct (String.eqb_spec cid EmptyString) as [|_]; [done|].
  rewrite Hfind. cbn [pending_changes set_pending_changes].
  apply find_change_Some in Hfind as [Hin Hid].
  assert (length (filter (λ c', ProposedChange.id c' ≠ cid) (pending_changes s))
          < length (pending_changes s))%nat as Hlt.
  { apply (length_filter_lt _ _ c); [done|]. intros Hne. by apply Hne. }
  destruct (Nat.eqb_spec (length (pending_changes s))
              (length (filter (λ c', ProposedChange.id c' ≠ cid) (pending_changes s))))
    as [Heq|_]; [lia|].
  by simpl.
Qed.

Lemma reject_moves_change_witness :
  let s' := (reject_change two_in_queue "chg-0001").1 in
  (reject_change two_in_queue "chg-0001").2 = Rejected "chg-0001" (length (pending_changes s'))
  ∧ (length (pending_changes s') < length (pending_changes two_in_queue))%nat
  ∧ pending_changes s'
    = filter (λ c', ProposedChange.id c' ≠ "chg-0001") (pending_changes two_in_queue)
  ∧ rejected_changes s'
    = (rejected_changes two_in_queue
       ++ [ProposedChange.construct "chg-0001" CanvasType.bmc "key_partners"
             ChangeAction.add None (Some "Acme Cloud") "interviews"])%list
  ∧ canvases s' = canvases two_in_queue ∧ versions s' = versions two_in_queue
  ∧ undo_stack s' = undo_stack two_in_queue ∧ redo_stack s' = redo_stack two_in_queue.
Proof.
  apply (reject_moves_change two_in_queue "chg-0001"
           (ProposedChange.construct "chg-0001" CanvasType.bmc "key_partners"
              ChangeAction.add None (Some "Acme Cloud") "interviews")).
  - discriminate.
  - evaluate.
Defined.

Lemma apply_set_rejected rejected s change fresh :
  _apply_single_change (set_rejected_changes rejected s) change fresh
  = (set_rejected_changes rejected (_apply_single_change s change fresh).1,
     (_apply_single_change s change fresh).2).
Proof.
  unfold _apply_single_change. destruct (ProposedChange.canvas_type change); simpl.
  - by destruct (bmc s !! ProposedChange.field change).
  - by destruct (vpc s !! ProposedChange.field change).
  - by destruct (apply_segments (segments s) change fresh) as [[?|]|].
Qed.

(** X14. [propose_canvas_update] never reads the rejected changes: its
    outcome and its effect are the same whatever has been rejected, so a
    rejected change that is proposed again is queued or applied again. *)
Theorem proposal_ignores_rejections s rejected ct f a nv ov r uuid fresh :
  propose_canvas_update (set_rejected_changes rejected s) ct f a nv ov r uuid fresh
  = (set_rejected_changes rejected (propose_canvas_update s ct f a nv ov r uuid fresh).1,
     (propose_canvas_update s ct f a nv ov r uuid fresh).2).
Proof.
  unfold propose_canvas_update.
  destruct (CanvasType.parse ct) as [ct'|]; [|done].
  destruct (ChangeAction.parse a) as [a'|]; [|done].
  change (existing_hashes (set_rejected_changes rejected s)) with (existing_hashes s).
  case_bool_decide; [done|].
  change (auto_mode (set_rejected_changes rejected s)) with (auto_mode s).
  destruct (auto_mode s); [|done].
  rewrite apply_set_rejected.
  by destruct (_apply_single_change s _ fresh) as [s' [result|e]].
Qed.

(** ** The canvases and the undo stack *)

(** An apply either leaves the state alone or pushes one entry. *)
Lemma apply_same_or_pushes s change fresh :
  (_apply_single_change s change fresh).1 = s
  ∨ length (undo_stack (_apply_single_change s change fresh).1)
    = S (length (undo_stack s)).
Proof.
  destruct (apply_outcomes s change fresh) as [[s' E]|(o & E & _)]; rewrite E; simpl.
  - right. by eapply applied_pushes_one.
  - by left.
Qed.

Lemma apply_loop_same_or_pushes pending fresh ids :
  ∀ i s results,
    (length (undo_stack s)
     ≤ length (undo_stack (apply_loop pending fresh i ids s results).1))%nat
    ∧ (length (undo_stack (apply_loop pending fresh i ids s results).1)
       = length (undo_stack s) →
       (apply_loop pending fresh i ids s results).1 = s).
Proof.
  induction ids as [|cid ids IH]; intros i s results; simpl; [done|].
  destruct (find_change pending cid) as [c|]; [|by apply IH].
  case_bool_decide; [by apply IH|].
  destruct (apply_same_or_pushes s (ProposedChange.model_post_init c) (fresh i))
    as [Hsame|Hpush];
    destruct (_apply_single_change s _ (fresh i)) as [s' [result|e]]; simpl in *.
  - subst s'. apply IH.
  - by subst s'.
  - destruct (IH (S i) s' (results ++ [Processed result])%list) as [Hle _].
    split; lia.
  - split; lia.
Qed.

(** X15. Every change to the canvases goes through the undo stack: a call
    that leaves the length of the undo stack as it was has changed neither
    the canvases nor the version log. *)
Theorem canvases_move_with_undo_stack s op :
  length (undo_stack (step s op)) = length (undo_stack s) →
  canvases (step s op) = canvases s ∧ versions (step s op) = versions s.
Proof.
  destruct op as [ct f a nv ov r uuid fresh|ids fresh| | |n o l uuid now|cid|b]; simpl.
  - unfold propose_canvas_update.
    destruct (CanvasType.parse ct) as [ct'|]; [|done].
    destruct (ChangeAction.parse a) as [a'|]; [|done].
    case_bool_decide; [done|]. destruct (auto_mode s); [|done].
    destruct (apply_same_or_pushes s (ProposedChange.construct uuid ct' f a' ov nv r) fresh)
      as [Hsame|Hpush];
      destruct (_apply_single_change s _ fresh) as [s' [result|e]]; simpl in *;
      first [by subst s' | lia].
  - unfold apply_proposed_changes.
    destruct (apply_loop_same_or_pushes (pending_changes s) fresh (batch_ids s ids) 0 s [])
      as [_ Hsame].
    destruct (apply_loop _ _ _ _ _ _) as [s' [results|e]]; simpl in *; intros Hlen;
      by rewrite (Hsame Hlen).
  - destruct (pop (undo_stack s)) as [[U v]|] eqn:Hpop.
    + apply pop_Some in Hpop. rewrite undo_stack_length_undo, Hpop, length_app.
      simpl. lia.
    + apply pop_None in Hpop. by rewrite (undo_empty _ Hpop).
  - destruct (pop (redo_stack s)) as [[R v]|] eqn:Hpop.
    + apply pop_Some in Hpop. rewrite (redo_step _ _ _ Hpop). simpl.
      set (t := if bool_decide _ then _ else _).
      destruct (restore_bookkeeping (CanvasVersion.canvas_type v)
                  (CanvasVersion.snapshot_after v) t) as (_ & _ & _ & -> & _).
      subst t. case_bool_decide; simpl; rewrite length_app; simpl; lia.
    + apply pop_None in Hpop. by rewrite (redo_empty _ Hpop).
  - done.
  - intros _. unfold reject_change. destruct (String.eqb cid EmptyString); [done|].
    simpl. destruct (Nat.eqb _ _); [done|]. by destruct (find_change _ _).
  - done.
Qed.

Lemma canvases_move_with_undo_stack_witness :
  canvases (step two_in_queue (Reject "chg-0001")) = canvases two_in_queue
  ∧ versions (step two_in_queue (Reject "chg-0001")) = versions two_in_queue.
Proof. apply (canvases_move_with_undo_stack two_in_queue (Reject "chg-0001")). evaluate. Defined.

(** ** Undoing everything *)

Lemma rewound_snoc c U v :
  rewound c (U ++ [v])
  = rewound (put (CanvasVersion.canvas_type v) (CanvasVersion.snapshot_before v) c) U.
Proof. unfold rewound. by rewrite foldr_snoc. Qed.

Lemma rewound_apply s change fresh :
  rewound (canvases (_apply_single_change s change fresh).1)
          (undo_stack (_apply_single_change s change fresh).1)
  = rewound (canvases s) (undo_stack s).
Proof.
  destruct (apply_outcomes s change fresh) as [[s' E]|(o & E & _)]; rewrite E; [|done].
  simpl. destruct (apply_applied _ _ _ _ _ E)
    as (_ & v & _ & Hct & Hbefore & _ & -> & _ & -> & _).
  rewrite rewound_snoc, Hct, Hbefore.
  rewrite put_put by apply shape_snapshot_of. by rewrite put_snapshot_of.
Qed.

Lemma rewound_apply_loop pending fresh ids :
  ∀ i s results,
    rewound (canvases (apply_loop pending fresh i ids s results).1)
            (undo_stack (apply_loop pending fresh i ids s results).1)
    = rewound (canvases s) (undo_stack s).
Proof.
  induction ids as [|cid ids IH]; intros i s results; simpl; [done|].
  destruct (find_change pending cid) as [c|]; [|by apply IH].
  case_bool_decide; [by apply IH|].
  pose proof (rewound_apply s (ProposedChange.model_post_init c) (fresh i)) as Happly.
  destruct (_apply_single_change s _ (fresh i)) as [s' [result|e]]; simpl in *; [|done].
  by rewrite IH.
Qed.

(** No call moves the canvases the undo stack leads back to. *)
Lemma rewound_step s op :
  store_inv s →
  rewound (canvases (step s op)) (undo_stack (step s op))
  = rewound (canvases s) (undo_stack s).
Proof.
  intros Hinv.
  destruct op as [ct f a nv ov r uuid fresh|ids fresh| | |n o l uuid now|cid|b]; simpl.
  - unfold propose_canvas_update.
    destruct (CanvasType.parse ct) as [ct'|]; [|done].
    destruct (ChangeAction.parse a) as [a'|]; [|done].
    case_bool_decide; [done|]. destruct (auto_mode s); [|done].
    pose proof (rewound_apply s (ProposedChange.construct uuid ct' f a' ov nv r) fresh)
      as Happly.
    by destruct (_apply_single_change s _ fresh) as [s' [result|e]].
  - unfold apply_proposed_changes.
    pose proof (rewound_apply_loop (pending_changes s) fresh (batch_ids s ids) 0 s [])
      as Hloop.
    by destruct (apply_loop _ _ _ _ _ _) as [s' [results|e]].
  - destruct (pop (undo_stack s)) as [[U v]|] eqn:Hpop.
    + apply pop_Some in Hpop.
      destruct (undo_fields _ _ _ Hpop) as (-> & _ & _ & _ & -> & _).
      by rewrite Hpop, rewound_snoc.
    + apply pop_None in Hpop. by rewrite (undo_empty _ Hpop).
  - destruct (pop (redo_stack s)) as [[R v]|] eqn:Hpop.
    + apply pop_Some in Hpop.
      pose proof (inv_redoable _ Hinv) as Hredo.
      rewrite Hpop, reverse_snoc in Hredo. simpl in Hredo.
      destruct Hredo as (Hbefore & _ & _).
      rewrite (redo_step _ _ _ Hpop). simpl. rewrite canvases_restore.
      set (t := if bool_decide _ then _ else _).
      destruct (restore_bookkeeping (CanvasVersion.canvas_type v)
                  (CanvasVersion.snapshot_after v) t) as (_ & _ & _ & -> & _).
      assert (canvases t = canvases s ∧ undo_stack t = (undo_stack s ++ [v])%list)
        as [-> ->] by (subst t; by case_bool_decide).
      rewrite rewound_snoc, <-Hbefore.
      rewrite put_put by apply shape_snapshot_of. by rewrite put_snapshot_of.
    + apply pop_None in Hpop. by rewrite (redo_empty _ Hpop).
  - done.
  - unfold reject_change. destruct (String.eqb cid EmptyString); [done|].
    simpl. destruct (Nat.eqb _ _); [done|]. by destruct (find_change _ _).
  - done.
Qed.

Lemma rewound_run ops :
  ∀ s, store_inv s →
       rewound (canvases (run ops s)) (undo_stack (run ops s))
       = rewound (canvases s) (undo_stack s).
Proof.
  unfold run. induction ops as [|op ops IH]; intros s Hinv; simpl; [done|].
  rewrite IH by by apply store_inv_step. by apply rewound_step.
Qed.

Lemma undo_n_all n :
  ∀ s, store_inv s → length (undo_stack s) = n →
       canvases (undo_n n s) = rewound (canvases s) (undo_stack s)
       ∧ versions (undo_n n s) = [] ∧ undo_stack (undo_n n s) = [].
Proof.
  induction n as [|n IH]; intros s Hinv Hlen.
  - apply nil_length_inv in Hlen. simpl.
    by rewrite (inv_log_is_undo_stack _ Hinv), Hlen.
  - destruct (pop (undo_stack s)) as [[U v]|] eqn:Hpop;
      [|apply pop_None in Hpop; by rewrite Hpop in Hlen].
    apply pop_Some in Hpop. rewrite undo_n_succ.
    destruct (undo_fields _ _ _ Hpop) as (Hc & _ & _ & _ & Hu & _).
    destruct (IH (undo_last_change s).1) as (-> & -> & ->).
    + by apply store_inv_undo.
    + rewrite undo_stack_length_undo, Hlen. done.
    + by rewrite Hc, Hu, Hpop, rewound_snoc.
Qed.

(** X16. Whatever calls a thread has seen, undoing as many times as its undo
    stack is long gives back the canvases the thread was seeded with, with
    an empty version log and an empty undo stack. *)
Theorem undo_everything_restores_seed uuid1 uuid2 ops :
  let s := run ops (get_canvas_state uuid1 uuid2) in
  canvases (undo_n (length (undo_stack s)) s) = canvases (get_canvas_state uuid1 uuid2)
  ∧ versions (undo_n (length (undo_stack s)) s) = []
  ∧ undo_stack (undo_n (length (undo_stack s)) s) = [].
Proof.
  intros s.
  destruct (undo_n_all (length (undo_stack s)) s) as (-> & -> & ->); [|done|].
  - apply store_inv_run, store_inv_seed.
  - split_and!; [|done..]. subst s. by rewrite rewound_run by apply store_inv_seed.
Qed.

(** ** What a change does to a field *)

Lemma truthy_Some (text : string) : text ≠ EmptyString → truthy (Some text) = true.
Proof. intros H. simpl. by destruct (String.eqb_spec text EmptyString). Qed.

Lemma fmap_of_Some {A B} (f : A → B) (x : A) : f <$> Some x = Some (f x).
Proof. done. Qed.

Lemma texts_of_filter (old : string) (items : list CanvasItem.t) :
  CanvasItem.text <$> filter (λ item, CanvasItem.text item ≠ old) items
  = filter (λ v, v ≠ old) (CanvasItem.text <$> items).
Proof.
  induction items as [|item items IH]; [done|].
  rewrite fmap_cons, !filter_cons. destruct (decide (CanvasItem.text item ≠ old)).
  - by rewrite fmap_cons, IH.
  - done.
Qed.

Lemma texts_of_retext (old new : string) (items : list CanvasItem.t) :
  CanvasItem.text <$> ((λ item, if bool_decide (CanvasItem.text item = old)
                                then with_text item new else item) <$> items)
  = (λ v, if bool_decide (v = old) then new else v) <$> (CanvasItem.text <$> items).
Proof.
  induction items as [|item items IH]; [done|].
  rewrite !fmap_cons, IH. cbn beta. by case_bool_decide.
Qed.

(** The content of the changed field after an [add], a [remove] and an
    [update] that carry the values they need. *)
Lemma content_after_add s change fresh present new :
  ProposedChange.action change = ChangeAction.add →
  ProposedChange.new_value change = Some new → new ≠ EmptyString →
  field_content s change = Some present →
  field_content (_apply_single_change s change fresh).1 change
  = Some (if bool_decide (new ∈ present) then present else (present ++ [new])%list).
Proof.
  intros Ha Hnew Hne. unfold field_content, _apply_single_change.
  destruct (ProposedChange.canvas_type change).
  - intros Hf. rewrite Hf. simpl. unfold apply_bmc.
    rewrite (is_action_true _ _ Ha), Hnew, (truthy_Some _ Hne). simpl.
    case_bool_decide; [done|]. by rewrite lookup_insert_eq.
  - intros (items & Hf & ->)%fmap_Some. rewrite Hf. simpl. unfold apply_vpc.
    rewrite (is_action_true _ _ Ha), Hnew, (truthy_Some _ Hne). simpl.
    case_bool_decide; [by rewrite Hf|]. rewrite lookup_insert_eq. rewrite fmap_of_Some.
    by rewrite fmap_app.
  - done.
Qed.

Lemma content_after_remove s change fresh present old :
  ProposedChange.action change = ChangeAction.remove →
  ProposedChange.old_value change = Some old → old ≠ EmptyString →
  field_content s change = Some present →
  field_content (_apply_single_change s change fresh).1 change
  = Some (filter (λ v, v ≠ old) present).
Proof.
  intros Ha Hold Hne. unfold field_content, _apply_single_change.
  destruct (ProposedChange.canvas_type change).
  - intros Hf. rewrite Hf. simpl. unfold apply_bmc.
    rewrite (is_action_false ChangeAction.add) by by rewrite Ha.
    rewrite (is_action_true _ _ Ha), Hold, (truthy_Some _ Hne). simpl.
    by rewrite lookup_insert_eq.
  - intros (items & Hf & ->)%fmap_Some. rewrite Hf. simpl. unfold apply_vpc.
    rewrite (is_action_false ChangeAction.add) by by rewrite Ha.
    rewrite (is_action_true _ _ Ha), Hold, (truthy_Some _ Hne). simpl.
    by rewrite lookup_insert_eq, fmap_of_Some, texts_of_filter.
  - done.
Qed.

Lemma content_after_update s change fresh present old new :
  ProposedChange.action change = ChangeAction.update →
  ProposedChange.old_value change = Some old → old ≠ EmptyString →
  ProposedChange.new_value change = Some new → new ≠ EmptyString →
  field_content s change = Some present →
  field_content (_apply_single_change s change fresh).1 change
  = Some ((λ v, if bool_decide (v = old) then new else v) <$> present).
Proof.
  intros Ha Hold Hne Hnew Hne'. unfold field_content, _apply_single_change.
  destruct (ProposedChange.canvas_type change).
  - intros Hf. rewrite Hf. simpl. unfold apply_bmc.
    rewrite (is_action_false ChangeAction.add) by by rewrite Ha.
    rewrite (is_action_false ChangeAction.remove) by by rewrite Ha.
    rewrite (is_action_true _ _ Ha), Hold, Hnew, (truthy_Some _ Hne), (truthy_Some _ Hne').
    simpl. by rewrite lookup_insert_eq.
  - intros (items & Hf & ->)%fmap_Some. rewrite Hf. simpl. unfold apply_vpc.
    rewrite (is_action_false ChangeAction.add) by by rewrite Ha.
    rewrite (is_action_false ChangeAction.remove) by by rewrite Ha.
    rewrite (is_action_true _ _ Ha), Hold, Hnew, (truthy_Some _ Hne), (truthy_Some _ Hne').
    simpl. rewrite lookup_insert_eq. rewrite fmap_of_Some.
    by rewrite texts_of_retext.
  - done.
Qed.

(** X17. A bmc or vpc [add] with a non-empty value appends the value to the
    field unless the field holds it already: afterwards the value is there,
    nothing that was there has moved, and a field without repetitions stays
    without. *)
Theorem add_appends_unless_present s change fresh present new :
  ProposedChange.action change = ChangeAction.add →
  ProposedChange.new_value change = Some new → new ≠ EmptyString →
  field_content s change = Some present →
  ∃ content,
    field_content (_apply_single_change s change fresh).1 change = Some content
    ∧ new ∈ content
    ∧ (content = present ∨ ((new ∉ present) ∧ content = (present ++ [new])%list))
    ∧ (NoDup present → NoDup content).
Proof.
  intros Ha Hnew Hne Hf.
  rewrite (content_after_add _ _ fresh _ _ Ha Hnew Hne Hf).
  case_bool_decide as Hin.
  - exists present. split_and!; [done|done|by left|done].
  - exists (present ++ [new])%list. split_and!; [done| |by right|].
    + apply elem_of_app. right. apply list_elem_of_here.
    + intros Hnd. apply NoDup_app. split_and!; [done| |apply NoDup_singleton].
      intros x Hx ->%list_elem_of_singleton. done.
Qed.

Lemma add_appends_unless_present_witness :
  ∃ content,
    field_content (_apply_single_change seeded repeated_pain draw1).1 repeated_pain
    = Some content
    ∧ "Manual canvas updates are tedious" ∈ content
    ∧ (content = ["Manual canvas updates are tedious";
                  "Hard to connect experiment results to model changes"]
       ∨ (("Manual canvas updates are tedious"
             ∉ ["Manual canvas updates are tedious";
                "Hard to connect experiment results to model changes"])
          ∧ content = (["Manual canvas updates are tedious";
                        "Hard to connect experiment results to model changes"]
                       ++ ["Manual canvas updates are tedious"])%list))
    ∧ (NoDup ["Manual canvas updates are tedious";
              "Hard to connect experiment results to model changes"] → NoDup content).
Proof.
  apply (add_appends_unless_present seeded repeated_pain draw1
           ["Manual canvas updates are tedious";
            "Hard to connect experiment results to model changes"]
           "Manual canvas updates are tedious").
  - reflexivity.
  - reflexivity.
  - discriminate.
  - evaluate.
Defined.

(** X18. A bmc or vpc [remove] with a non-empty [old_value] deletes every
    occurrence of the value and keeps the other entries in their order. *)
Theorem remove_drops_every_occurrence s change fresh present old :
  ProposedChange.action change = ChangeAction.remove →
  ProposedChange.old_value change = Some old → old ≠ EmptyString →
  field_content s change = Some present →
  ∃ content,
    field_content (_apply_single_change s change fresh).1 change = Some content
    ∧ (old ∉ content)
    ∧ content = filter (λ v, v ≠ old) present.
Proof.
  intros Ha Hold Hne Hf. exists (filter (λ v, v ≠ old) present).
  rewrite (content_after_remove _ _ fresh _ _ Ha Hold Hne Hf).
  split_and!; [done| |done]. intros [Hno _]%list_elem_of_filter. by apply Hno.
Qed.

(** X19. A bmc or vpc [update] with both values non-empty rewrites every
    entry equal to [old_value] in place: the field keeps its length, and no
    check keeps the new value from appearing twice. *)
Theorem update_replaces_in_place s change fresh present old new :
  ProposedChange.action change = ChangeAction.update →
  ProposedChange.old_value change = Some old → old ≠ EmptyString →
  ProposedChange.new_value change = Some new → new ≠ EmptyString →
  field_content s change = Some present →
  ∃ content,
    field_content (_apply_single_change s change fresh).1 change = Some content
    ∧ length content = length present
    ∧ (∀ i v, present !! i = Some v →
              content !! i = Some (if bool_decide (v = old) then new else v))
    ∧ (old ∈ present → new ∈ present → old ≠ new → ¬ NoDup content).
Proof.
  intros Ha Hold Hne Hnew Hne' Hf.
  exists ((λ v, if bool_decide (v = old) then new else v) <$> present).
  rewrite (content_after_update _ _ fresh _ _ _ Ha Hold Hne Hnew Hne' Hf).
  split_and!; [done|by rewrite length_fmap| |].
  - intros i v Hi. by rewrite list_lookup_fmap, Hi.
  - intros (i & Hi)%list_elem_of_lookup_1 (j & Hj)%list_elem_of_lookup_1 Hdiff Hnd.
    assert (i ≠ j) as Hij by (intros ->; congruence).
    apply Hij. eapply NoDup_lookup; [exact Hnd| |].
    + rewrite list_lookup_fmap, Hi. simpl. by rewrite bool_decide_eq_true_2.
    + rewrite list_lookup_fmap, Hj. simpl. by rewrite bool_decide_eq_false_2.
Qed.

Lemma remove_drops_every_occurrence_witness :
  ∃ content,
    field_content (_apply_single_change seeded drop_cloud_hosting draw1).1
      drop_cloud_hosting = Some content
    ∧ ("Cloud hosting" ∉ content)
    ∧ content = filter (λ v, v ≠ "Cloud hosting")
                  ["Cloud hosting"; "AI API costs"; "Team salaries"].
Proof.
  apply (remove_drops_every_occurrence seeded drop_cloud_hosting draw1
           ["Cloud hosting"; "AI API costs"; "Team salaries"] "Cloud hosting").
  - reflexivity.
  - reflexivity.
  - discriminate.
  - evaluate.
Defined.

Lemma update_replaces_in_place_witness :
  ∃ content,
    field_content (_apply_single_change seeded rename_channel draw1).1 rename_channel
    = Some content
    ∧ length content = length ["Direct web app"; "Startup community events"]
    ∧ (∀ i v, ["Direct web app"; "Startup community events"] !! i = Some v →
              content !! i
              = Some (if bool_decide (v = "Direct web app") then "Mobile app" else v))
    ∧ ("Direct web app" ∈ ["Direct web app"; "Startup community events"] →
       "Mobile app" ∈ ["Direct web app"; "Startup community events"] →
       "Direct web app" ≠ "Mobile app" → ¬ NoDup content).
Proof.
  apply (update_replaces_in_place seeded rename_channel draw1
           ["Direct web app"; "Startup community events"] "Direct web app" "Mobile app").
  - reflexivity.
  - reflexivity.
  - discriminate.
  - reflexivity.
  - discriminate.
  - evaluate.
Defined.

(** The content of a field depends on the canvas type and the field of the
    change that names it, and on nothing else of the change. *)
Lemma field_content_ext s c1 c2 :
  ProposedChange.canvas_type c1 = ProposedChange.canvas_type c2 →
  ProposedChange.field c1 = ProposedChange.field c2 →
  field_content s c1 = field_content s c2.
Proof. unfold field_content. by intros -> ->. Qed.

(** X20. Round trip on a bmc field or vpc section: adding a value the field
    does not hold and then removing that value gives back the content the
    field had. *)
Theorem add_then_remove_round_trip s adding removing fresh1 fresh2 present new :
  ProposedChange.action adding = ChangeAction.add →
  ProposedChange.new_value adding = Some new → new ≠ EmptyString →
  ProposedChange.action removing = ChangeAction.remove →
  ProposedChange.old_value removing = Some new →
  ProposedChange.canvas_type removing = ProposedChange.canvas_type adding →
  ProposedChange.field removing = ProposedChange.field adding →
  field_content s adding = Some present → new ∉ present →
  field_content
    (_apply_single_change (_apply_single_change s adding fresh1).1 removing fresh2).1
    adding
  = Some present.
Proof.
  intros Ha Hnew Hne Hr Hold Hct Hfield Hf Hnot.
  pose proof (content_after_add _ _ fresh1 _ _ Ha Hnew Hne Hf) as Hadded.
  rewrite bool_decide_eq_false_2 in Hadded by done.
  rewrite <-(field_content_ext _ removing adding Hct Hfield) in Hadded.
  rewrite <-(field_content_ext _ removing adding Hct Hfield).
  rewrite (content_after_remove _ _ fresh2 _ _ Hr Hold Hne Hadded).
  f_equal. rewrite filter_app, filter_all, filter_none, app_nil_r; [done| |].
  - constructor; [|constructor]. intros Hn. by apply Hn.
  - apply Forall_forall. by intros v Hv ->.
Qed.

Lemma add_then_remove_round_trip_witness :
  field_content
    (_apply_single_change (_apply_single_change seeded add_acme draw1).1 remove_acme draw2).1
    add_acme
  = Some ["Cloud infrastructure providers"; "University incubators"].
Proof.
  apply (add_then_remove_round_trip seeded add_acme remove_acme draw1 draw2
           ["Cloud infrastructure providers"; "University incubators"] "Acme Cloud").
  - reflexivity.
  - reflexivity.
  - discriminate.
  - reflexivity.
  - reflexivity.
  - reflexivity.
  - reflexivity.
  - evaluate.
  - apply (bool_decide_unpack _). vm_compute. exact I.
Defined.

(** X21. A vpc [update] rewrites texts only: whatever its values are, every
    item of the section keeps its importance and its place. *)
Theorem vpc_update_keeps_importance s change fresh items :
  ProposedChange.canvas_type change = CanvasType.vpc →
  ProposedChange.action change = ChangeAction.update →
  vpc s !! ProposedChange.field change = Some items →
  ∃ items',
    vpc (_apply_single_change s change fresh).1 !! ProposedChange.field change
    = Some items'
    ∧ CanvasItem.importance <$> items' = CanvasItem.importance <$> items.
Proof.
  intros Hct Ha Hf. unfold _apply_single_change. rewrite Hct, Hf. simpl.
  unfold apply_vpc.
  rewrite (is_action_false ChangeAction.add) by by rewrite Ha.
  rewrite (is_action_false ChangeAction.remove) by by rewrite Ha.
  rewrite (is_action_true _ _ Ha). simpl.
  destruct (truthy (ProposedChange.old_value change)
            && truthy (ProposedChange.new_value change)).
  - rewrite lookup_insert_eq. eexists. split; [done|].
    rewrite <-list_fmap_compose. apply list_fmap_ext. intros i item _. simpl.
    by case_bool_decide.
  - by exists items.
Qed.

Lemma vpc_update_keeps_importance_witness :
  ∃ items',
    vpc (_apply_single_change seeded reword_pain draw1).1 !! "pains" = Some items'
    ∧ CanvasItem.importance <$> items'
      = CanvasItem.importance
          <$> [CanvasItem.make "Manual canvas updates are tedious" Importance.very_essential;
               CanvasItem.make "Hard to connect experiment results to model changes"
                 Importance.fairly_essential].
Proof.
  apply (vpc_update_keeps_importance seeded reword_pain draw1
           [CanvasItem.make "Manual canvas updates are tedious" Importance.very_essential;
            CanvasItem.make "Hard to connect experiment results to model changes"
              Importance.fairly_essential]).
  - reflexivity.
  - reflexivity.
  - evaluate.
Defined.

(** ** Changes to the customer segments *)

Lemma set_attribute_id seg field new seg' :
  set_attribute seg field new = Return seg' →
  CustomerSegment.id seg' = CustomerSegment.id seg.
Proof.
  destruct seg as [i n d p imp]. unfold set_attribute.
  repeat (destruct (String.eqb field _); [by intros [= <-]|]).
  destruct (String.eqb field _); [|by intros [= <-]].
  destruct (SegmentImportance.parse new); [by intros [= <-]|done].
Qed.

(** The update loop stops at the first segment that carries the name. *)
Lemma update_segment_first segs old field new :
  ∀ i seg,
    segs !! i = Some seg → CustomerSegment.name seg = old →
    (∀ j other, (j < i)%nat → segs !! j = Some other → CustomerSegment.name other ≠ old) →
    update_segment segs old field new
    = match set_attribute seg field new with
      | Return seg' => Return (Some (<[i := seg']> segs))
      | Raise e => Raise e
      end.
Proof.
  induction segs as [|seg0 segs IH]; intros i seg Hi Hname Hfirst; [done|].
  destruct i as [|i]; simpl in *.
  - injection Hi as ->. by rewrite Hname, String.eqb_refl.
  - destruct (String.eqb_spec (CustomerSegment.name seg0) old) as [Heq|_].
    { by destruct (Hfirst 0%nat seg0 ltac:(lia) eq_refl). }
    rewrite (IH i seg Hi Hname).
    + by destruct (set_attribute seg field new).
    + intros j other Hj Hother. apply (Hfirst (S j) other); [lia|done].
Qed.

(** X22. A segments [update] with both values non-empty changes the first
    segment named [old_value] and no other: where the attribute assignment
    returns, the new list is the old one with that position rewritten, and
    the segment keeps its id. *)
Theorem segment_update_changes_first_match s change fresh old new i seg seg' :
  ProposedChange.canvas_type change = CanvasType.segments →
  ProposedChange.action change = ChangeAction.update →
  ProposedChange.old_value change = Some old → old ≠ EmptyString →
  ProposedChange.new_value change = Some new → new ≠ EmptyString →
  segments s !! i = Some seg → CustomerSegment.name seg = old →
  (∀ j other, (j < i)%nat → segments s !! j = Some other →
              CustomerSegment.name other ≠ old) →
  set_attribute seg (ProposedChange.field change) new = Return seg' →
  (_apply_single_change s change fresh).2 = Return (Applied change)
  ∧ segments (_apply_single_change s change fresh).1 = <[i := seg']> (segments s)
  ∧ CustomerSegment.id seg' = CustomerSegment.id seg.
Proof.
  intros Hct Ha Hold Hne Hnew Hne' Hi Hname Hfirst Hset.
  unfold _apply_single_change, apply_segments. rewrite Hct.
  rewrite (is_action_false ChangeAction.add) by by rewrite Ha.
  rewrite (is_action_false ChangeAction.remove) by by rewrite Ha.
  rewrite (is_action_true _ _ Ha), Hold, Hnew, (truthy_Some _ Hne), (truthy_Some _ Hne').
  simpl. rewrite (update_segment_first _ _ _ _ i seg Hi Hname Hfirst), Hset. simpl.
  split_and!; [done|done|]. by eapply set_attribute_id.
Qed.

Lemma segment_update_changes_first_match_witness :
  (_apply_single_change seeded rewrite_persona draw1).2 = Return (Applied rewrite_persona)
  ∧ segments (_apply_single_change seeded rewrite_persona draw1).1
    = <[0%nat := CustomerSegment.make "seg-0001" "Technical Founders"
                   "Founders with engineering backgrounds building B2B SaaS"
                   "Sam, 35, second-time founder" SegmentImportance.very_important]>
        (segments seeded)
  ∧ CustomerSegment.id
      (CustomerSegment.make "seg-0001" "Technical Founders"
         "Founders with engineering backgrounds building B2B SaaS"
         "Sam, 35, second-time founder" SegmentImportance.very_important)
    = CustomerSegment.id
        (CustomerSegment.make "seg-0001" "Technical Founders"
           "Founders with engineering backgrounds building B2B SaaS"
           "Alex, 28, ex-FAANG engineer, building dev tools startup"
           SegmentImportance.very_important).
Proof.
  apply (segment_update_changes_first_match seeded rewrite_persona draw1
           "Technical Founders" "Sam, 35, second-time founder" 0%nat
           (CustomerSegment.make "seg-0001" "Technical Founders"
              "Founders with engineering backgrounds building B2B SaaS"
              "Alex, 28, ex-FAANG engineer, building dev tools startup"
              SegmentImportance.very_important)).
  - reflexivity.
  - reflexivity.
  - reflexivity.
  - discriminate.
  - reflexivity.
  - discriminate.
  - reflexivity.
  - reflexivity.
  - intros j other Hj. lia.
  - reflexivity.
Defined.

Lemma existsb_name (new : string) (segs : list CustomerSegment.t) :
  existsb (λ s, String.eqb (CustomerSegment.name s) new) segs = true
  ↔ new ∈ CustomerSegment.name <$> segs.
Proof.
  rewrite existsb_exists, list_elem_of_fmap. split.
  - intros (seg & Hin%list_elem_of_In & Heq%String.eqb_eq). by exists seg.
  - intros (seg & -> & Hin%list_elem_of_In). exists seg. by rewrite String.eqb_refl.
Qed.

(** X23. A segments [add] with a non-empty value appends one segment named
    after the value, unless a segment of that name exists.  The new segment
    takes its id from the draw, has no persona and the default importance,
    and its description is the [field] argument itself, unless the field is
    [name]. *)
Theorem segment_add_appends_named s change fresh new :
  ProposedChange.canvas_type change = CanvasType.segments →
  ProposedChange.action change = ChangeAction.add →
  ProposedChange.new_value change = Some new → new ≠ EmptyString →
  (_apply_single_change s change fresh).2 = Return (Applied change)
  ∧ segments (_apply_single_change s change fresh).1
    = (if bool_decide (new ∈ CustomerSegment.name <$> segments s) then segments s
       else segments s
            ++ [CustomerSegment.make (segment_id fresh) new
                  (if bool_decide (ProposedChange.field change = "name")
                   then EmptyString else ProposedChange.field change)
                  EmptyString SegmentImportance.fairly_important])%list
  ∧ new ∈ CustomerSegment.name <$> segments (_apply_single_change s change fresh).1.
Proof.
  intros Hct Ha Hnew Hne.
  unfold _apply_single_change, apply_segments. rewrite Hct.
  rewrite (is_action_true _ _ Ha), Hnew, (truthy_Some _ Hne). simpl.
  destruct (existsb _ (segments s)) eqn:Hex; case_bool_decide as Hin; simpl.
  - done.
  - by apply existsb_name in Hex.
  - apply existsb_name in Hin. congruence.
  - split_and!; [done| |].
    + by destruct (String.eqb_spec (ProposedChange.field change) "name");
        case_bool_decide.
    + rewrite fmap_app. apply elem_of_app. right. apply list_elem_of_here.
Qed.

Lemma segment_add_appends_named_witness :
  (_apply_single_change seeded add_students_persona draw1).2
  = Return (Applied add_students_persona)
  ∧ segments (_apply_single_change seeded add_students_persona draw1).1
    = (if bool_decide ("Students" ∈ CustomerSegment.name <$> segments seeded)
       then segments seeded
       else segments seeded
            ++ [CustomerSegment.make (segment_id draw1) "Students"
                  (if bool_decide (ProposedChange.field add_students_persona = "name")
                   then EmptyString else ProposedChange.field add_students_persona)
                  EmptyString SegmentImportance.fairly_important])%list
  ∧ "Students" ∈ CustomerSegment.name
                   <$> segments (_apply_single_change seeded add_students_persona draw1).1.
Proof.
  apply (segment_add_appends_named seeded add_students_persona draw1 "Students").
  - reflexivity.
  - reflexivity.
  - reflexivity.
  - discriminate.
Defined.

Example students_described_as_persona :
  segments (_apply_single_change seeded add_students_persona draw1).1 !! 2%nat
  = Some (CustomerSegment.make "seg-0003" "Students" "persona" EmptyString
            SegmentImportance.fairly_important).
Proof. evaluate. Qed.

(** ** Proposals outside the enums *)

Lemma canvas_type_parse_raises text :
  is_raise (CanvasType.parse text) = true ↔ ∀ ct, CanvasType.value ct ≠ text.
Proof.
  unfold CanvasType.parse.
  destruct (String.eqb_spec text "bmc") as [->|H1];
    [split; [done|intros H; by destruct (H CanvasType.bmc)]|].
  destruct (String.eqb_spec text "vpc") as [->|H2];
    [split; [done|intros H; by destruct (H CanvasType.vpc)]|].
  destruct (String.eqb_spec text "segments") as [->|H3];
    [split; [done|intros H; by destruct (H CanvasType.segments)]|].
  split; [|done]. intros _ [] <-; done.
Qed.

Lemma change_action_parse_raises text :
  is_raise (ChangeAction.parse text) = true ↔ ∀ a, ChangeAction.value a ≠ text.
Proof.
  unfold ChangeAction.parse.
  destruct (String.eqb_spec text "add") as [->|H1];
    [split; [done|intros H; by destruct (H ChangeAction.add)]|].
  destruct (String.eqb_spec text "update") as [->|H2];
    [split; [done|intros H; by destruct (H ChangeAction.update)]|].
  destruct (String.eqb_spec text "remove") as [->|H3];
    [split; [done|intros H; by destruct (H ChangeAction.remove)]|].
  split; [|done]. intros _ [] <-; done.
Qed.

(** X24. A proposal whose canvas type or action is not, letter for letter,
    a value of its enum raises, in manual and in auto mode alike, whatever
    the field and the values are; the call leaves the state as it was:
    nothing is queued and nothing applied. *)
Theorem proposal_with_unknown_enum_raises s ct f a nv ov r uuid fresh :
  (∀ ct', CanvasType.value ct' ≠ ct) ∨ (∀ a', ChangeAction.value a' ≠ a) →
  is_raise (propose_canvas_update s ct f a nv ov r uuid fresh).2 = true
  ∧ (propose_canvas_update s ct f a nv ov r uuid fresh).1 = s.
Proof.
  intros Hunknown. unfold propose_canvas_update.
  pose proof (canvas_type_parse_raises ct) as Hct.
  pose proof (change_action_parse_raises a) as Ha.
  destruct (CanvasType.parse ct) as [ct'|e]; simpl in *; [|done].
  destruct (ChangeAction.parse a) as [a'|e]; simpl in *; [|done].
  destruct Hunknown as [Hx|Hx]; [by apply Hct in Hx|by apply Ha in Hx].
Qed.

Lemma proposal_with_unknown_enum_raises_witness :
  is_raise (propose_canvas_update auto_seeded "BMC" "key_partners" "add"
              (Some "Acme Cloud") None "interviews" "chg-0001" draw1).2 = true
  ∧ (propose_canvas_update auto_seeded "BMC" "key_partners" "add"
       (Some "Acme Cloud") None "interviews" "chg-0001" draw1).1 = auto_seeded.
Proof.
  apply (proposal_with_unknown_enum_raises auto_seeded "BMC" "key_partners" "add"
           (Some "Acme Cloud") None "interviews" "chg-0001" draw1).
  left. by intros [].
Defined.

(** ** What an apply leaves alone *)

Lemma apply_bmc_other d f entries change other :
  other ≠ f → apply_bmc d f entries change !! other = d !! other.
Proof.
  intros Hne. unfold apply_bmc.
  repeat (match goal with |- context [if ?b then _ else _] => destruct b end);
    by rewrite ?lookup_insert_ne.
Qed.

Lemma apply_vpc_other d f items change other :
  other ≠ f → apply_vpc d f items change !! other = d !! other.
Proof.
  intros Hne. unfold apply_vpc.
  repeat (match goal with |- context [if ?b then _ else _] => destruct b end);
    by rewrite ?lookup_insert_ne.
Qed.

(** X25. One apply touches one field of one canvas: every other field of
    the bmc and the vpc holds what it held, and a change to one canvas
    leaves the two other canvases as they were. *)
Theorem apply_touches_one_field s change fresh other :
  other ≠ ProposedChange.field change →
  bmc (_apply_single_change s change fresh).1 !! other = bmc s !! other
  ∧ vpc (_apply_single_change s change fresh).1 !! other = vpc s !! other
  ∧ (ProposedChange.canvas_type change ≠ CanvasType.bmc →
     bmc (_apply_single_change s change fresh).1 = bmc s)
  ∧ (ProposedChange.canvas_type change ≠ CanvasType.vpc →
     vpc (_apply_single_change s change fresh).1 = vpc s)
  ∧ (ProposedChange.canvas_type change ≠ CanvasType.segments →
     segments (_apply_single_change s change fresh).1 = segments s).
Proof.
  intros Hne. unfold _apply_single_change.
  destruct (ProposedChange.canvas_type change).
  - destruct (bmc s !! ProposedChange.field change) as [entries|]; simpl; [|done].
    by rewrite apply_bmc_other.
  - destruct (vpc s !! ProposedChange.field change) as [items|]; simpl; [|done].
    by rewrite apply_vpc_other.
  - by destruct (apply_segments (segments s) change fresh) as [[segs|]|e].
Qed.

Lemma apply_touches_one_field_witness :
  bmc (_apply_single_change seeded rename_channel draw1).1 !! "key_partners"
  = bmc seeded !! "key_partners"
  ∧ vpc (_apply_single_change seeded rename_channel draw1).1 !! "key_partners"
    = vpc seeded !! "key_partners"
  ∧ (ProposedChange.canvas_type rename_channel ≠ CanvasType.bmc →
     bmc (_apply_single_change seeded rename_channel draw1).1 = bmc seeded)
  ∧ (ProposedChange.canvas_type rename_channel ≠ CanvasType.vpc →
     vpc (_apply_single_change seeded rename_channel draw1).1 = vpc seeded)
  ∧ (ProposedChange.canvas_type rename_channel ≠ CanvasType.segments →
     segments (_apply_single_change seeded rename_channel draw1).1 = segments seeded).
Proof.
  apply (apply_touches_one_field seeded rename_channel draw1 "key_partners").
  discriminate.
Defined.

(** ** An apply and the undo that follows it *)

(** X26. A change whose fingerprint is not in the log and whose apply
    succeeds can be taken back: the undo that follows gives back the
    canvases, the version log, the undo stack and the queue as they were.
    The redo stack then holds the undone entry and nothing else, since the
    apply has emptied it: right after the apply there is nothing to redo. *)
Theorem applied_change_can_be_undone s change fresh c :
  ProposedChange.change_hash change ∉ existing_hashes s →
  (_apply_single_change s change fresh).2 = Return (Applied c) →
  canvases (undo_last_change (_apply_single_change s change fresh).1).1 = canvases s
  ∧ versions (undo_last_change (_apply_single_change s change fresh).1).1 = versions s
  ∧ undo_stack (undo_last_change (_apply_single_change s change fresh).1).1 = undo_stack s
  ∧ pending_changes (undo_last_change (_apply_single_change s change fresh).1).1
    = pending_changes s
  ∧ length (redo_stack (undo_last_change (_apply_single_change s change fresh).1).1) = 1%nat
  ∧ redo_change (_apply_single_change s change fresh).1
    = ((_apply_single_change s change fresh).1, NothingToRedo).
Proof.
  intros Hnew Hok.
  destruct (_apply_single_change s change fresh) as [s' o] eqn:E. simpl in *. subst o.
  destruct (apply_applied _ _ _ _ _ E)
    as (_ & v & Hh & Hct & Hbefore & _ & Hc & Hv & Hu & Hr & Hp & _).
  destruct (undo_fields _ _ _ Hu) as (-> & -> & -> & _ & -> & -> & _).
  split_and!.
  - rewrite Hc, Hct, Hbefore, put_put by apply shape_snapshot_of.
    by rewrite put_snapshot_of.
  - rewrite Hv, filter_app, filter_all, filter_none, app_nil_r; [done| |].
    + constructor; [|constructor]. intros Hn. by apply Hn.
    + apply Forall_forall. intros w Hw Heq. apply Hnew. unfold existing_hashes.
      rewrite <-Hh, <-Heq. by apply list_elem_of_fmap_2.
  - done.
  - done.
  - by rewrite Hr.
  - by apply redo_empty.
Qed.

Lemma applied_change_can_be_undone_witness :
  canvases (undo_last_change (_apply_single_change seeded add_acme draw1).1).1
  = canvases seeded
  ∧ versions (undo_last_change (_apply_single_change seeded add_acme draw1).1).1
    = versions seeded
  ∧ undo_stack (undo_last_change (_apply_single_change seeded add_acme draw1).1).1
    = undo_stack seeded
  ∧ pending_changes (undo_last_change (_apply_single_change seeded add_acme draw1).1).1
    = pending_changes seeded
  ∧ length (redo_stack (undo_last_change (_apply_single_change seeded add_acme draw1).1).1)
    = 1%nat
  ∧ redo_change (_apply_single_change seeded add_acme draw1).1
    = ((_apply_single_change seeded add_acme draw1).1, NothingToRedo).
Proof.
  apply (applied_change_can_be_undone seeded add_acme draw1 add_acme).
  - intros Hin. by apply elem_of_nil in Hin.
  - reflexivity.
Defined.

(** ** The fingerprints of queued changes *)

Lemma construct_hashed uuid ct f a ov nv r :
  ProposedChange.change_hash (ProposedChange.construct uuid ct f a ov nv r)
  = ProposedChange.compute_hash (ProposedChange.construct uuid ct f a ov nv r).
Proof. by rewrite construct_change_hash, compute_hash_input. Qed.

Lemma apply_keeps_rejected s change fresh :
  rejected_changes (_apply_single_change s change fresh).1 = rejected_changes s.
Proof.
  unfold _apply_single_change. destruct (ProposedChange.canvas_type change); simpl.
  - by destruct (bmc s !! ProposedChange.field change).
  - by destruct (vpc s !! ProposedChange.field change).
  - by destruct (apply_segments (segments s) change fresh) as [[?|]|].
Qed.

Lemma apply_loop_rejected pending fresh ids :
  ∀ i s results,
    rejected_changes (apply_loop pending fresh i ids s results).1 = rejected_changes s.
Proof.
  induction ids as [|cid ids IH]; intros i s results; simpl; [done|].
  destruct (find_change pending cid) as [c|]; [|by apply IH].
  case_bool_decide; [by apply IH|].
  pose proof (apply_keeps_rejected s (ProposedChange.model_post_init c) (fresh i)) as Hr.
  destruct (_apply_single_change s _ (fresh i)) as [s' [result|e]]; simpl in *; [|done].
  by rewrite IH.
Qed.

Lemma queued_hashed_step s op :
  Forall (λ c, ProposedChange.change_hash c = ProposedChange.compute_hash c)
         (pending_changes s ++ rejected_changes s)%list →
  Forall (λ c, ProposedChange.change_hash c = ProposedChange.compute_hash c)
         (pending_changes (step s op) ++ rejected_changes (step s op))%list.
Proof.
  intros Hs.
  destruct op as [ct f a nv ov r uuid fresh|ids fresh| | |n o l uuid now|cid|b]; simpl.
  - unfold propose_canvas_update.
    destruct (CanvasType.parse ct) as [ct'|]; [|done].
    destruct (ChangeAction.parse a) as [a'|]; [|done].
    case_bool_decide; [done|]. destruct (auto_mode s).
    + pose proof (apply_keeps_pending s (ProposedChange.construct uuid ct' f a' ov nv r) fresh)
        as Hp.
      pose proof (apply_keeps_rejected s (ProposedChange.construct uuid ct' f a' ov nv r) fresh)
        as Hr.
      destruct (_apply_single_change s _ fresh) as [s' [result|e]]; simpl in *;
        by rewrite Hp, Hr.
    + simpl. apply Forall_app in Hs as [Hp Hr]. rewrite !Forall_app. split_and!; [done| |done].
      constructor; [apply construct_hashed|constructor].
  - unfold apply_proposed_changes.
    pose proof (apply_loop_pending (pending_changes s) fresh (batch_ids s ids) 0 s []) as Hp.
    pose proof (apply_loop_rejected (pending_changes s) fresh (batch_ids s ids) 0 s []) as Hr.
    destruct (apply_loop _ _ _ _ _ _) as [s' [results|e]]; simpl in *.
    + rewrite Hr. apply Forall_app in Hs as [Hp' Hr']. apply Forall_app. split; [|done].
      apply Forall_forall. intros c [_ Hin]%list_elem_of_filter.
      rewrite Forall_forall in Hp'. by apply Hp'.
    + by rewrite Hp, Hr.
  - destruct (pop (undo_stack s)) as [[U v]|] eqn:Hpop.
    + apply pop_Some in Hpop.
      by destruct (undo_fields _ _ _ Hpop) as (_ & _ & -> & -> & _).
    + apply pop_None in Hpop. by rewrite (undo_empty _ Hpop).
  - destruct (pop (redo_stack s)) as [[R v]|] eqn:Hpop.
    + apply pop_Some in Hpop. rewrite (redo_step _ _ _ Hpop). simpl.
      set (t := if bool_decide _ then _ else _).
      destruct (restore_bookkeeping (CanvasVersion.canvas_type v)
                  (CanvasVersion.snapshot_after v) t) as (_ & -> & -> & _).
      subst t. by case_bool_decide.
    + apply pop_None in Hpop. by rewrite (redo_empty _ Hpop).
  - done.
  - unfold reject_change. destruct (String.eqb cid EmptyString); [done|].
    apply Forall_app in Hs as [Hp Hr].
    assert (Forall (λ c, ProposedChange.change_hash c = ProposedChange.compute_hash c)
              (filter (λ c, ProposedChange.id c ≠ cid) (pending_changes s))) as Hfilter.
    { apply Forall_forall. intros c [_ Hin]%list_elem_of_filter.
      rewrite Forall_forall in Hp. by apply Hp. }
    simpl. destruct (Nat.eqb _ _); simpl; [by apply Forall_app|].
    destruct (find_change (pending_changes s) cid) as [c|] eqn:Hfind; simpl.
    + rewrite !Forall_app. split_and!; [done|done|].
      constructor; [|constructor].
      apply find_change_Some in Hfind as [Hin _].
      rewrite Forall_forall in Hp. by apply Hp.
    + by apply Forall_app.
  - done.
Qed.

(** X27. Every change that waits in the queue or has been rejected carries
    the fingerprint of its own content: the stored hash is the one
    [compute_hash] gives for the stored change, in every state the calls can
    reach. *)
Theorem queued_changes_carry_their_fingerprint uuid1 uuid2 ops :
  Forall (λ c, ProposedChange.change_hash c = ProposedChange.compute_hash c)
         (pending_changes (run ops (get_canvas_state uuid1 uuid2))
          ++ rejected_changes (run ops (get_canvas_state uuid1 uuid2)))%list.
Proof.
  assert (∀ s,
            Forall (λ c, ProposedChange.change_hash c = ProposedChange.compute_hash c)
                   (pending_changes s ++ rejected_changes s)%list →
            Forall (λ c, ProposedChange.change_hash c = ProposedChange.compute_hash c)
                   (pending_changes (run ops s) ++ rejected_changes (run ops s))%list)
    as Hrun.
  { unfold run. induction ops as [|op ops IH]; intros s Hs; simpl; [done|].
    by apply IH, queued_hashed_step. }
  apply Hrun. constructor.
Qed.
